(** * Flashcard app: the spaced-repetition review engine

    A shallow embedding of [lib/spacedRepetition.ts] ([calculateSM2]), of the
    [POST /api/reviews] route handler with its [prisma.$transaction], and of
    the due-card query of [GET /api/reviews/due], followed by the properties
    of the scheduling specification that can be settled on them.

    Conventions of the embedding.
    - A JavaScript [number] that comes from a JSON body or from a
      [DOUBLE PRECISION] column is a finite value, the rational [Q] it
      denotes.  Integer columns ([INTEGER]) are [Z].
    - [calculateSM2] is embedded twice.  [SpacedRepetition.calculateSM2]
      evaluates the arithmetic of the function exactly; the route handler is
      built on it.  [SpacedRepetitionBinary64.calculateSM2] is the same text
      with every literal, sum, difference and product rounded to the nearest
      double, as the code computes them; the properties that rounding
      decides are stated on it.
    - A [Date] is its [getTime()] value, a [Z] number of milliseconds.  The
      server's local time is taken to be UTC, so that a calendar day is
      [msPerDay] milliseconds long and starts at a multiple of [msPerDay].
    - All [new Date()] readings made while one request is served are the same
      instant [now]. *)

From Stdlib Require Import ZArith QArith Qround Qminmax Qabs Qpower Lqa Lia.
From stdpp Require Import gmap list sorting strings.

Local Open Scope Z_scope.

(** ** JavaScript primitives used by the code *)

Module JS.

(** [a < b] on numbers. *)
Definition lt (a b : Q) : bool :=
  match (a ?= b)%Q with Lt => true | _ => false end.

(** [a > b] on numbers. *)
Definition gt (a b : Q) : bool := lt b a.

(** [a >= b] on numbers. *)
Definition ge (a b : Q) : bool :=
  match (a ?= b)%Q with Lt => false | _ => true end.

Definition Math_max (a b : Q) : Q := Qmax a b.
Definition Math_min (a b : Q) : Q := Qmin a b.

(** [Math.round] rounds to the nearest integer, a tie going up. *)
Definition Math_round (x : Q) : Z := Qfloor (x + 0.5)%Q.

Definition Math_ceil (x : Q) : Z := Qceiling x.

Definition msPerDay : Z := 86400000.

(** [d.setHours(0, 0, 0, 0)]: midnight of the day of [d]. *)
Definition setHours0 (d : Z) : Z := d - d mod msPerDay.

(** [d.setDate(d.getDate() + n)]. *)
Definition addDays (d n : Z) : Z := d + n * msPerDay.

(** [x || 0] for an optional number: [undefined], [null] and [0] give 0. *)
Definition orZero (x : option Q) : Q :=
  match x with Some q => q | None => 0%Q end.

End JS.

(** ** lib/spacedRepetition.ts *)

Module SpacedRepetition.
Import JS.

Record SM2Result := mkSM2Result {
  easeFactor : Q;
  interval : Z;
  repetitions : Z;
  nextReviewDate : Z
}.

Definition calculateSM2 (now : Z)
    (quality : Q) (repetitions : Z) (easeFactor : Q) (interval : Z)
    : SM2Result :=
  (* Step 1: update ease factor *)
  let newEF :=
    (easeFactor + (0.1 - (5 - quality) * (0.08 + (5 - quality) * 0.02)))%Q in
  (* clamp ease factor between 1.3 and 2.5 *)
  let newEF := Math_max 1.3 (Math_min 2.5 newEF) in
  (* Step 2: was the answer correct (quality >= 3)? *)
  let '(newInterval, newRepetitions) :=
    if lt quality 3 then
      (1, 0)
    else
      let newRepetitions := repetitions + 1 in
      if newRepetitions =? 1 then (1, newRepetitions)
      else if newRepetitions =? 2 then (6, newRepetitions)
      else (Math_round (inject_Z interval * newEF), newRepetitions) in
  (* Step 3: next review date *)
  {| easeFactor := newEF;
     interval := newInterval;
     repetitions := newRepetitions;
     nextReviewDate := addDays now newInterval |}.

End SpacedRepetition.

(** ** Double-precision arithmetic

    A finite double is the rational it denotes.  [fl x] is the double nearest
    to [x]: the significand has 53 bits, a tie goes to the even significand
    and the exponent of the last place is never below -1074 (gradual
    underflow).  A decimal literal of the code denotes the double nearest to
    it, and the sum, the difference and the product of two doubles are the
    exact results rounded.  The exponent has no upper bound here: a result
    beyond the largest double, which the code turns into [Infinity], stays
    finite. *)

Module Binary64.

Definition pow2 (e : Z) : Q := (2 ^ e)%Q.

(** The integer [k] with [2^k <= |x| < 2^(k+1)], for [x] other than 0. *)
Definition ilog2 (x : Q) : Z :=
  let k := Z.log2 (Z.abs (Qnum x)) - Z.log2 (Zpos (Qden x)) in
  if Qle_bool (pow2 k) (Qabs x) then k else k - 1.

(** The exponent of the unit in the last place of the doubles around [x]. *)
Definition ulpExponent (x : Q) : Z := Z.max (ilog2 x - 52) (-1074).

(** The nearest integer, a tie going to the even one. *)
Definition roundHalfEven (x : Q) : Z :=
  let f := Qfloor x in
  match (x - inject_Z f ?= 1 # 2)%Q with
  | Lt => f
  | Gt => f + 1
  | Eq => if Z.even f then f else f + 1
  end.

Definition fl (x : Q) : Q :=
  if Qeq_bool x 0 then 0%Q
  else
    let e := ulpExponent x in
    (inject_Z (roundHalfEven (x / pow2 e)) * pow2 e)%Q.

(** [a + b], [a - b] and [a * b] on doubles. *)
Definition add (a b : Q) : Q := fl (a + b).
Definition sub (a b : Q) : Q := fl (a - b).
Definition mul (a b : Q) : Q := fl (a * b).

End Binary64.

(** ** lib/spacedRepetition.ts, in double precision

    [quality] and [easeFactor] are doubles; [repetitions] and [interval] are
    integers of [INTEGER] columns, which are doubles as they are.
    [Math.max], [Math.min] and the comparisons are exact on doubles, and
    [Math.round] is the exact rounding of its argument.  In this function
    only the product [(5 - quality) * (...)] can pass the largest double, and
    only for a rating of a magnitude that the route never lets through; the
    code then clamps [-Infinity] to the double nearest to 1.3, the value the
    clamp gives here as well. *)

Module SpacedRepetitionBinary64.
Import JS Binary64 SpacedRepetition.

Definition calculateSM2 (now : Z)
    (quality : Q) (repetitions : Z) (easeFactor : Q) (interval : Z)
    : SM2Result :=
  (* Step 1: update ease factor *)
  let newEF :=
    add easeFactor
        (sub (fl 0.1)
             (mul (sub 5 quality)
                  (add (fl 0.08) (mul (sub 5 quality) (fl 0.02))))) in
  (* clamp ease factor between 1.3 and 2.5 *)
  let newEF := Math_max (fl 1.3) (Math_min 2.5 newEF) in
  (* Step 2: was the answer correct (quality >= 3)? *)
  let '(newInterval, newRepetitions) :=
    if lt quality 3 then
      (1, 0)
    else
      let newRepetitions := repetitions + 1 in
      if newRepetitions =? 1 then (1, newRepetitions)
      else if newRepetitions =? 2 then (6, newRepetitions)
      else (Math_round (mul (inject_Z interval) newEF), newRepetitions) in
  (* Step 3: next review date *)
  {| easeFactor := newEF;
     interval := newInterval;
     repetitions := newRepetitions;
     nextReviewDate := addDays now newInterval |}.

End SpacedRepetitionBinary64.

(** ** The persisted entities (prisma/migrations/.../migration.sql)

    Columns that the modelled routes neither read nor write (surrogate
    [id]s, [createdAt], [updatedAt], [boxNumber], the card's content) are
    left out. *)

Module Schema.

Record Flashcard := mkFlashcard {
  fc_id : Z;
  fc_userId : Z
}.

Record ReviewSchedule := mkReviewSchedule {
  rs_easeFactor : Q;
  rs_interval : Z;
  rs_repetitions : Z;
  rs_nextReviewDate : Z;
  rs_lastReviewedAt : option Z;
  rs_userId : Z;
  rs_flashcardId : Z
}.

(** [rh_quality] and [rh_responseTimeSeconds] are the numbers the handler
    hands to [reviewHistory.create].  Their columns are [INTEGER]: an
    integer is stored as it is, and what the storage layer makes of a number
    that is not an integer is not modelled. *)
Record ReviewHistory := mkReviewHistory {
  rh_flashcardId : Z;
  rh_userId : Z;
  rh_quality : Q;
  rh_wasCorrect : bool;
  rh_responseTimeSeconds : option Q;
  rh_easeFactorBefore : Q;
  rh_easeFactorAfter : Q;
  rh_intervalBefore : Z;
  rh_intervalAfter : Z
}.

Record DailyStat := mkDailyStat {
  ds_userId : Z;
  ds_date : Z;
  ds_cardsReviewed : Z;
  ds_cardsLearned : Z;
  ds_correctAnswers : Z;
  ds_totalAnswers : Z;
  ds_studyTimeMinutes : Z
}.

Record StudyStreak := mkStudyStreak {
  ss_userId : Z;
  ss_currentStreak : Z;
  ss_longestStreak : Z;
  ss_lastStudyDate : option Z
}.

(** The database.  [ReviewSchedule] has a unique index on [flashcardId],
    [DailyStat] on [(userId, date)] and [StudyStreak] on [userId]: these
    tables are maps from their unique key.  [Flashcard] rows are kept in
    storage order and [ReviewHistory] in insertion order. *)
Record DB := mkDB {
  flashcards : list Flashcard;
  reviewSchedules : gmap Z ReviewSchedule;
  reviewHistory : list ReviewHistory;
  dailyStats : gmap (Z * Z) DailyStat;
  studyStreaks : gmap Z StudyStreak
}.

End Schema.

(** ** The Prisma client

    A database call either returns or throws, and may change the database.
    Every call site of the routes has a name ([Op]); the environment decides
    with [faults] which calls fail with a storage error, so that a failure of
    any single read or write can be injected. *)

Module Prisma.
Import Schema.

Inductive Op :=
| ReviewScheduleFindUnique
| ReviewScheduleUpdate
| ReviewHistoryCreate
| DailyStatUpsert
| StudyStreakFindUnique
| StudyStreakCreate
| StudyStreakUpdate
| FlashcardFindMany.

Inductive Error :=
| StorageFailure (op : Op)
| RecordNotFound (op : Op)
| UniqueConstraint (op : Op).

Definition Faults := Op -> bool.

Definition noFaults : Faults := fun _ => false.

(** A computation over the database that may throw: the state it returns
    next to an error is the state at the time of the throw. *)
Definition M (A : Type) : Type := Faults -> DB -> (Error + A) * DB.

#[export] Instance M_ret : MRet M :=
  fun A a _ db => (inr a, db).

#[export] Instance M_bind : MBind M :=
  fun A B k m faults db =>
    match m faults db with
    | (inr a, db') => k a faults db'
    | (inl e, db') => (inl e, db')
    end.

Definition throw {A} (e : Error) : M A := fun _ db => (inl e, db).

Definition get : M DB := fun _ db => (inr db, db).

Definition put (db : DB) : M unit := fun _ _ => (inr tt, db).

(** The call named [op] reaches the storage engine, which may refuse it. *)
Definition call (op : Op) : M unit :=
  fun faults db =>
    if faults op then (inl (StorageFailure op), db) else (inr tt, db).

(** [prisma.$transaction(async (tx) => body)]: the writes of [body] are
    committed when it returns and discarded when it throws. *)
Definition transaction {A} (body : M A) : M A :=
  fun faults db =>
    match body faults db with
    | (inr a, db') => (inr a, db')
    | (inl e, _) => (inl e, db)
    end.

Definition set_reviewSchedules (f : gmap Z ReviewSchedule -> gmap Z ReviewSchedule)
    (db : DB) : DB :=
  mkDB (flashcards db) (f (reviewSchedules db)) (reviewHistory db)
       (dailyStats db) (studyStreaks db).

Definition set_reviewHistory (f : list ReviewHistory -> list ReviewHistory)
    (db : DB) : DB :=
  mkDB (flashcards db) (reviewSchedules db) (f (reviewHistory db))
       (dailyStats db) (studyStreaks db).

Definition set_dailyStats (f : gmap (Z * Z) DailyStat -> gmap (Z * Z) DailyStat)
    (db : DB) : DB :=
  mkDB (flashcards db) (reviewSchedules db) (reviewHistory db)
       (f (dailyStats db)) (studyStreaks db).

Definition set_studyStreaks (f : gmap Z StudyStreak -> gmap Z StudyStreak)
    (db : DB) : DB :=
  mkDB (flashcards db) (reviewSchedules db) (reviewHistory db)
       (dailyStats db) (f (studyStreaks db)).

(** [reviewSchedule.findUnique({ where: { flashcardId } })] *)
Definition reviewSchedule_findUnique (flashcardId : Z)
    : M (option ReviewSchedule) :=
  call ReviewScheduleFindUnique ;;
  db ← get ;
  mret (reviewSchedules db !! flashcardId).

(** [reviewSchedule.update({ where: { flashcardId }, data })]: throws when
    no row has this key, returns the updated row. *)
Definition reviewSchedule_update (flashcardId : Z)
    (data : ReviewSchedule -> ReviewSchedule) : M ReviewSchedule :=
  call ReviewScheduleUpdate ;;
  db ← get ;
  match reviewSchedules db !! flashcardId with
  | None => throw (RecordNotFound ReviewScheduleUpdate)
  | Some row =>
      put (set_reviewSchedules (insert flashcardId (data row)) db) ;;
      mret (data row)
  end.

(** [reviewHistory.create({ data })] *)
Definition reviewHistory_create (data : ReviewHistory) : M unit :=
  call ReviewHistoryCreate ;;
  db ← get ;
  put (set_reviewHistory (fun rows => rows ++ [data]) db).

(** [dailyStat.upsert({ where: { userId_date }, create, update })] *)
Definition dailyStat_upsert (userId date : Z)
    (create : DailyStat) (update : DailyStat -> DailyStat) : M unit :=
  call DailyStatUpsert ;;
  db ← get ;
  match dailyStats db !! (userId, date) with
  | None => put (set_dailyStats (insert (userId, date) create) db)
  | Some row => put (set_dailyStats (insert (userId, date) (update row)) db)
  end.

(** [studyStreak.findUnique({ where: { userId } })] *)
Definition studyStreak_findUnique (userId : Z) : M (option StudyStreak) :=
  call StudyStreakFindUnique ;;
  db ← get ;
  mret (studyStreaks db !! userId).

(** [studyStreak.create({ data })]: [userId] is unique. *)
Definition studyStreak_create (data : StudyStreak) : M unit :=
  call StudyStreakCreate ;;
  db ← get ;
  match studyStreaks db !! ss_userId data with
  | Some _ => throw (UniqueConstraint StudyStreakCreate)
  | None => put (set_studyStreaks (insert (ss_userId data) data) db)
  end.

(** [studyStreak.update({ where: { userId }, data })] *)
Definition studyStreak_update (userId : Z)
    (data : StudyStreak -> StudyStreak) : M unit :=
  call StudyStreakUpdate ;;
  db ← get ;
  match studyStreaks db !! userId with
  | None => throw (RecordNotFound StudyStreakUpdate)
  | Some row => put (set_studyStreaks (insert userId (data row)) db)
  end.

End Prisma.

(** ** app/api/reviews/route.ts: POST /api/reviews *)

Module Reviews.
Import JS Schema Prisma SpacedRepetition.

(** [const { flashcardId, quality, responseTimeSeconds } = await request.json()] *)
Record Body := mkBody {
  flashcardId : Z;
  quality : Q;
  responseTimeSeconds : option Q
}.

(** A request: the user of the session cookie as [getCurrentUser()] returns
    it ([None] for [null]) and the JSON body. *)
Record Request := mkRequest {
  currentUser : option Z;
  body : Body
}.

Inductive Response :=
| Unauthorized401
| BadRequest400
| NotFound404
| Ok200 (updatedSchedule : ReviewSchedule)
| InternalServerError500.

(** [quality >= 3 ? 1 : 0] *)
Definition correctIncrement (quality : Q) : Z :=
  if ge quality 3 then 1 else 0.

(** The streak after a study day, from the row that was found. *)
Definition newCurrentStreak (streak : StudyStreak) (today yesterday : Z) : Z :=
  let lastStudy := setHours0 (default 0 (ss_lastStudyDate streak)) in
  if lastStudy =? yesterday then
    (* studied yesterday, increment streak *)
    ss_currentStreak streak + 1
  else if lastStudy <? yesterday then
    (* missed days, reset streak *)
    1
  else
    (* studied today already, keep current streak *)
    ss_currentStreak streak.

(** Step 4 of the transaction: update the study streak. *)
Definition updateStudyStreak (userId today : Z) : M unit :=
  streak ← studyStreak_findUnique userId ;
  let yesterday := addDays today (-1) in
  match streak with
  | None =>
      studyStreak_create
        {| ss_userId := userId;
           ss_currentStreak := 1;
           ss_longestStreak := 1;
           ss_lastStudyDate := Some today |}
  | Some streak =>
      let newCurrentStreak := newCurrentStreak streak today yesterday in
      studyStreak_update userId (fun row =>
        {| ss_userId := ss_userId row;
           ss_currentStreak := newCurrentStreak;
           ss_longestStreak := Z.max (ss_longestStreak streak) newCurrentStreak;
           ss_lastStudyDate := Some today |})
  end.

(** Step 3 of the transaction: update the daily statistics. *)
Definition updateDailyStats (userId today : Z) (quality : Q)
    (responseTimeSeconds : option Q) : M unit :=
  let minutes := Math_ceil (orZero responseTimeSeconds / 60) in
  dailyStat_upsert userId today
    {| ds_userId := userId;
       ds_date := today;
       ds_cardsReviewed := 1;
       ds_cardsLearned := 0;   (* not given: the column's DEFAULT 0 *)
       ds_correctAnswers := correctIncrement quality;
       ds_totalAnswers := 1;
       ds_studyTimeMinutes := minutes |}
    (fun row =>
      {| ds_userId := ds_userId row;
         ds_date := ds_date row;
         ds_cardsReviewed := ds_cardsReviewed row + 1;
         ds_cardsLearned := ds_cardsLearned row;
         ds_correctAnswers := ds_correctAnswers row + correctIncrement quality;
         ds_totalAnswers := ds_totalAnswers row + 1;
         ds_studyTimeMinutes := ds_studyTimeMinutes row + minutes |}).

(** The callback given to [prisma.$transaction]. *)
Definition reviewWrites (now userId : Z) (b : Body)
    (schedule : ReviewSchedule) (newSchedule : SM2Result) : M ReviewSchedule :=
  (* 1. update review schedule *)
  updatedSchedule ← reviewSchedule_update (flashcardId b) (fun row =>
    {| rs_easeFactor := easeFactor newSchedule;
       rs_interval := interval newSchedule;
       rs_repetitions := repetitions newSchedule;
       rs_nextReviewDate := nextReviewDate newSchedule;
       rs_lastReviewedAt := Some now;
       rs_userId := rs_userId row;
       rs_flashcardId := rs_flashcardId row |}) ;
  (* 2. create review history *)
  reviewHistory_create
    {| rh_flashcardId := flashcardId b;
       rh_userId := userId;
       rh_quality := quality b;
       rh_wasCorrect := ge (quality b) 3;
       rh_responseTimeSeconds := responseTimeSeconds b;
       rh_easeFactorBefore := rs_easeFactor schedule;
       rh_easeFactorAfter := easeFactor newSchedule;
       rh_intervalBefore := rs_interval schedule;
       rh_intervalAfter := interval newSchedule |} ;;
  (* 3. update daily stats *)
  let today := setHours0 now in
  updateDailyStats userId today (quality b) (responseTimeSeconds b) ;;
  (* 4. update study streak *)
  updateStudyStreak userId today ;;
  mret updatedSchedule.

(** What the [try] block does once the user is known and the rating has
    passed validation. *)
Definition submitReview (now userId : Z) (b : Body) : M Response :=
  (* fetch current review schedule *)
  schedule ← reviewSchedule_findUnique (flashcardId b) ;
  match schedule with
  | None => mret NotFound404
  | Some schedule =>
      (* calculate new schedule using the SM-2 algorithm *)
      let newSchedule :=
        calculateSM2 now (quality b) (rs_repetitions schedule)
                     (rs_easeFactor schedule) (rs_interval schedule) in
      (* update database in transaction *)
      result ← transaction (reviewWrites now userId b schedule newSchedule) ;
      mret (Ok200 result)
  end.

Definition POST (now : Z) (request : Request) (faults : Faults) (db : DB)
    : Response * DB :=
  match currentUser request with
  | None => (Unauthorized401, db)
  | Some userId =>
      let b := body request in
      (* validate quality rating (0-5) *)
      if lt (quality b) 0 || gt (quality b) 5 then (BadRequest400, db)
      else
        match submitReview now userId b faults db with
        | (inr response, db') => (response, db')
        | (inl _, db') => (InternalServerError500, db')   (* catch (error) *)
        end
  end.

End Reviews.

(** ** GET /api/reviews/due: the due-card query *)

Module DueCards.
Import JS Schema Prisma.

(** [where: { userId, reviewSchedule: { nextReviewDate: { lte: now } } }],
    with [include: { reviewSchedule: true }]. *)
Definition dueRow (db : DB) (userId now : Z) (card : Flashcard)
    : option (Flashcard * ReviewSchedule) :=
  if fc_userId card =? userId then
    match reviewSchedules db !! fc_id card with
    | Some schedule =>
        if rs_nextReviewDate schedule <=? now then Some (card, schedule)
        else None
    | None => None
    end
  else None.

(** [orderBy: { reviewSchedule: { nextReviewDate: 'asc' } }] *)
Definition byNextReviewDate (a b : Flashcard * ReviewSchedule) : Prop :=
  rs_nextReviewDate (snd a) <= rs_nextReviewDate (snd b).

#[export] Instance byNextReviewDate_dec a b : Decision (byNextReviewDate a b).
Proof. unfold byNextReviewDate. apply _. Defined.

(** The order of the specification: [nextReviewDate] ascending, rows with
    equal dates by card identifier.  The query does not ask for it. *)
Definition byNextReviewDateThenId (a b : Flashcard * ReviewSchedule) : Prop :=
  rs_nextReviewDate (snd a) < rs_nextReviewDate (snd b) \/
  (rs_nextReviewDate (snd a) = rs_nextReviewDate (snd b) /\
   fc_id (fst a) <= fc_id (fst b)).

(** [prisma.flashcard.findMany({ where, include, orderBy })]: the rows
    that match, sorted on the one key of [orderBy].  The query leaves the
    order of rows with equal keys to the storage engine; here it follows the
    order in which the rows are stored. *)
Fixpoint insertByDate (row : Flashcard * ReviewSchedule)
    (rows : list (Flashcard * ReviewSchedule)) : list (Flashcard * ReviewSchedule) :=
  match rows with
  | [] => [row]
  | row' :: rest =>
      if decide (byNextReviewDate row row') then row :: row' :: rest
      else row' :: insertByDate row rest
  end.

Definition sortByDate (rows : list (Flashcard * ReviewSchedule))
    : list (Flashcard * ReviewSchedule) :=
  foldr insertByDate [] rows.

Definition flashcard_findMany_due (userId now : Z)
    : M (list (Flashcard * ReviewSchedule)) :=
  call FlashcardFindMany ;;
  db ← get ;
  mret (sortByDate (omap (dueRow db userId now) (flashcards db))).

Definition dueCards (now userId : Z) (faults : Faults) (db : DB)
    : option (list (Flashcard * ReviewSchedule)) * DB :=
  match flashcard_findMany_due userId now faults db with
  | (inr rows, db') => (Some rows, db')
  | (inl _, db') => (None, db')
  end.

End DueCards.

(** ** The outcome of a committed review

    The four rows that [POST /api/reviews] leaves behind when its transaction
    commits, as pure functions of the rows found; they are used to state what
    the handler does. *)

Module ReviewEffects.
Import JS Schema Prisma SpacedRepetition Reviews.

Definition scheduleAfter (now : Z) (quality : Q) (row : ReviewSchedule)
    : ReviewSchedule :=
  let newSchedule :=
    calculateSM2 now quality (rs_repetitions row) (rs_easeFactor row)
                 (rs_interval row) in
  {| rs_easeFactor := easeFactor newSchedule;
     rs_interval := interval newSchedule;
     rs_repetitions := repetitions newSchedule;
     rs_nextReviewDate := nextReviewDate newSchedule;
     rs_lastReviewedAt := Some now;
     rs_userId := rs_userId row;
     rs_flashcardId := rs_flashcardId row |}.

Definition historyEntry (now userId : Z) (b : Body) (row : ReviewSchedule)
    : ReviewHistory :=
  {| rh_flashcardId := flashcardId b;
     rh_userId := userId;
     rh_quality := quality b;
     rh_wasCorrect := ge (quality b) 3;
     rh_responseTimeSeconds := responseTimeSeconds b;
     rh_easeFactorBefore := rs_easeFactor row;
     rh_easeFactorAfter := rs_easeFactor (scheduleAfter now (quality b) row);
     rh_intervalBefore := rs_interval row;
     rh_intervalAfter := rs_interval (scheduleAfter now (quality b) row) |}.

Definition dailyStatAfter (userId today : Z) (b : Body)
    (found : option DailyStat) : DailyStat :=
  let minutes := Math_ceil (orZero (responseTimeSeconds b) / 60) in
  match found with
  | None =>
      mkDailyStat userId today 1 0 (correctIncrement (quality b)) 1 minutes
  | Some row =>
      mkDailyStat (ds_userId row) (ds_date row)
        (ds_cardsReviewed row + 1)
        (ds_cardsLearned row)
        (ds_correctAnswers row + correctIncrement (quality b))
        (ds_totalAnswers row + 1)
        (ds_studyTimeMinutes row + minutes)
  end.

Definition streakAfter (userId today : Z) (found : option StudyStreak)
    : StudyStreak :=
  match found with
  | None => mkStudyStreak userId 1 1 (Some today)
  | Some row =>
      let current := newCurrentStreak row today (addDays today (-1)) in
      mkStudyStreak (ss_userId row) current
        (Z.max (ss_longestStreak row) current) (Some today)
  end.

Definition committed (now userId : Z) (b : Body) (row : ReviewSchedule)
    (db : DB) : DB :=
  let today := setHours0 now in
  {| flashcards := flashcards db;
     reviewSchedules :=
       <[flashcardId b := scheduleAfter now (quality b) row]> (reviewSchedules db);
     reviewHistory := reviewHistory db ++ [historyEntry now userId b row];
     dailyStats :=
       <[(userId, today) :=
           dailyStatAfter userId today b (dailyStats db !! (userId, today))]>
         (dailyStats db);
     studyStreaks :=
       <[userId := streakAfter userId today (studyStreaks db !! userId)]>
         (studyStreaks db) |}.

(** The call that writes the streak row: an update of the row found, a
    creation when there is none. *)
Definition streakWriteOp (userId : Z) (db : DB) : Op :=
  match studyStreaks db !! userId with
  | Some _ => StudyStreakUpdate
  | None => StudyStreakCreate
  end.

(** The database calls that the transaction of a review makes, in order. *)
Definition transactionOps (userId : Z) (db : DB) : list Op :=
  [ReviewScheduleUpdate; ReviewHistoryCreate; DailyStatUpsert;
   StudyStreakFindUnique; streakWriteOp userId db].

(** Every run of the handler ends in one of five ways; only the last one
    changes the database. *)
Inductive Outcome (now : Z) (request : Request) (faults : Faults) (db : DB)
    : Response * DB -> Prop :=
| OutUnauthorized :
    currentUser request = None ->
    Outcome now request faults db (Unauthorized401, db)
| OutBadRequest userId :
    currentUser request = Some userId ->
    lt (quality (body request)) 0 || gt (quality (body request)) 5 = true ->
    Outcome now request faults db (BadRequest400, db)
| OutNotFound userId :
    currentUser request = Some userId ->
    lt (quality (body request)) 0 || gt (quality (body request)) 5 = false ->
    faults ReviewScheduleFindUnique = false ->
    reviewSchedules db !! flashcardId (body request) = None ->
    Outcome now request faults db (NotFound404, db)
| OutError userId :
    currentUser request = Some userId ->
    lt (quality (body request)) 0 || gt (quality (body request)) 5 = false ->
    faults ReviewScheduleFindUnique = true \/
      (is_Some (reviewSchedules db !! flashcardId (body request)) /\
       existsb faults (transactionOps userId db) = true) ->
    Outcome now request faults db (InternalServerError500, db)
| OutCommitted userId row :
    currentUser request = Some userId ->
    lt (quality (body request)) 0 || gt (quality (body request)) 5 = false ->
    faults ReviewScheduleFindUnique = false ->
    reviewSchedules db !! flashcardId (body request) = Some row ->
    existsb faults (transactionOps userId db) = false ->
    Outcome now request faults db
      (Ok200 (scheduleAfter now (quality (body request)) row),
       committed now userId (body request) row db).

End ReviewEffects.

(** ** Sample data *)

Module Sample.
Import JS Schema Prisma Reviews.

(** Card 10 belongs to user 1 and has been reviewed twice; cards 11 and 12
    belong to user 1 as well and fall due at the same instant; card 20
    belongs to user 2.  Card 12 is stored before card 11. *)
Definition db : DB :=
  {| flashcards :=
       [mkFlashcard 10 1; mkFlashcard 12 1; mkFlashcard 11 1; mkFlashcard 20 2];
     reviewSchedules :=
       <[10 := mkReviewSchedule 2.5 6 2 500 None 1 10]>
       (<[11 := mkReviewSchedule 2.5 1 0 700 None 1 11]>
       (<[12 := mkReviewSchedule 2.5 1 0 700 None 1 12]>
       (<[20 := mkReviewSchedule 2.5 1 0 600 None 2 20]> ∅)));
     reviewHistory := [];
     dailyStats := ∅;
     studyStreaks := ∅ |}.

(** The same cards with card 11 stored before card 12. *)
Definition dbReordered : DB :=
  {| flashcards :=
       [mkFlashcard 10 1; mkFlashcard 11 1; mkFlashcard 12 1; mkFlashcard 20 2];
     reviewSchedules := reviewSchedules db;
     reviewHistory := [];
     dailyStats := ∅;
     studyStreaks := ∅ |}.

(** User [userId] rates card 10 with [quality], after 8 seconds. *)
Definition review (userId : Z) (quality : Q) : Request :=
  {| currentUser := Some userId;
     body := {| flashcardId := 10; quality := quality;
                responseTimeSeconds := Some 8%Q |} |}.

(** The storage engine refuses the upsert of the daily statistics. *)
Definition dailyStatFails : Faults :=
  fun op => match op with DailyStatUpsert => true | _ => false end.

End Sample.

(** ** JSON bodies and the schema of a new card (app/api/flashcards/route.ts)

    A string is the sequence of its UTF-16 code units, one character per
    unit, so that [String.length] is JavaScript's [length]. *)

Module Json.

#[local] Unset Elimination Schemes.

Inductive Value :=
| JNull
| JBool (b : bool)
| JNumber (q : Q)
| JString (s : string)
| JArray (items : list Value)
| JObject (members : list (string * Value)).

#[local] Set Elimination Schemes.

(** [data[key]] on a parsed object: of two members with one name the later
    one wins; a missing member is [undefined] ([None]). *)
Fixpoint member (key : string) (members : list (string * Value)) : option Value :=
  match members with
  | [] => None
  | (name, v) :: rest =>
      match member key rest with
      | Some later => Some later
      | None => if String.eqb name key then Some v else None
      end
  end.

End Json.

Module FlashcardSchema.
Import Json.

Inductive Difficulty := easy | medium | hard.

(** The output of [flashcardSchema.safeParse] when it succeeds. *)
Record FlashcardInput := mkFlashcardInput {
  question : string;
  answer : string;
  hint : option string;
  categoryId : option Q;
  difficulty : Difficulty;
  tags : list string
}.

(** [z.string().min(minLen).max(maxLen)] *)
Definition zString (minLen maxLen : nat) (v : Value) : option string :=
  match v with
  | JString s =>
      if (minLen <=? String.length s)%nat && (String.length s <=? maxLen)%nat
      then Some s else None
  | _ => None
  end.

(** [z.number()] *)
Definition zNumber (v : Value) : option Q :=
  match v with JNumber q => Some q | _ => None end.

(** [z.enum(['easy', 'medium', 'hard'])] *)
Definition zDifficulty (v : Value) : option Difficulty :=
  match v with
  | JString s =>
      if String.eqb s "easy" then Some easy
      else if String.eqb s "medium" then Some medium
      else if String.eqb s "hard" then Some hard
      else None
  | _ => None
  end.

(** [z.array(z.string())] *)
Definition zText (v : Value) : option string :=
  match v with JString s => Some s | _ => None end.

Definition zStringArray (v : Value) : option (list string) :=
  match v with
  | JArray items => mapM zText items
  | _ => None
  end.

(** A required field, [.optional()] and [.default(d)]. *)
Definition required {A} (schema : Value -> option A) (field : option Value)
    : option A :=
  match field with Some v => schema v | None => None end.

Definition optional {A} (schema : Value -> option A) (field : option Value)
    : option (option A) :=
  match field with Some v => Some <$> schema v | None => Some None end.

Definition withDefault {A} (d : A) (schema : Value -> option A)
    (field : option Value) : option A :=
  match field with Some v => schema v | None => Some d end.

(** [flashcardSchema.safeParse(body)]: [None] when validation fails.  Members
    that the schema does not name are dropped. *)
Definition safeParse (body : Value) : option FlashcardInput :=
  match body with
  | JObject members =>
      question ← required (zString 1 500) (member "question" members) ;
      answer ← required (zString 1 1000) (member "answer" members) ;
      hint ← optional (zString 0 300) (member "hint" members) ;
      categoryId ← optional zNumber (member "categoryId" members) ;
      difficulty ← withDefault medium zDifficulty (member "difficulty" members) ;
      tags ← withDefault [] zStringArray (member "tags" members) ;
      Some (mkFlashcardInput question answer hint categoryId difficulty tags)
  | _ => None
  end.

(** The object a client sends for an input: one member per field that is
    present. *)
Definition difficultyName (d : Difficulty) : string :=
  match d with easy => "easy" | medium => "medium" | hard => "hard" end.

Definition toMembers (input : FlashcardInput) : list (string * Value) :=
  [("question", JString (question input));
   ("answer", JString (answer input))]
  ++ match hint input with Some h => [("hint", JString h)] | None => [] end
  ++ match categoryId input with
     | Some c => [("categoryId", JNumber c)] | None => []
     end
  ++ [("difficulty", JString (difficultyName (difficulty input)));
      ("tags", JArray (JString <$> tags input))].

Definition toJson (input : FlashcardInput) : Value := JObject (toMembers input).

End FlashcardSchema.

(** ** app/api/flashcards/route.ts: POST /api/flashcards, and the deletion
    of a card with the cascades of the migration *)

Module Cards.
Import JS Schema FlashcardSchema.

(** The content columns of [Flashcard], keyed by the card's [id].
    [createdAt] has the default [CURRENT_TIMESTAMP]: the clock reading of the
    insertion, which is the request's one reading [now]. *)
Record CardContent := mkCardContent {
  cc_question : string;
  cc_answer : string;
  cc_hint : option string;
  cc_categoryId : option Q;
  cc_difficulty : Difficulty;
  cc_tags : list string;
  cc_createdAt : Z
}.

Record Store := mkStore {
  tables : DB;
  contents : gmap Z CardContent
}.

Definition emptyStore : Store :=
  {| tables := mkDB [] ∅ [] ∅ ∅; contents := ∅ |}.

(** What the storage engine contributes to an insertion: whether it accepts
    the row (foreign keys to the user and the category, column types) and the
    value its [SERIAL] sequence gives to [id]. *)
Record Insertion := mkInsertion {
  accepted : bool;
  newId : Z
}.

(** A request: the session's user and the body, [None] when
    [request.json()] throws on a malformed body. *)
Record Request := mkRequest {
  currentUser : option Z;
  body : option Json.Value
}.

Inductive Response :=
| Unauthorized401
| BadRequest400
| Created201 (card : Flashcard) (content : CardContent) (schedule : ReviewSchedule)
| InternalServerError500.

(** [prisma.flashcard.create({ data: { ..., reviewSchedule: { create } } })]:
    the card and its first schedule are inserted together; [None] when the
    call throws.  The primary key of the card and the unique [flashcardId] of
    the schedule refuse an identifier that is in use. *)
Definition flashcard_create (env : Insertion) (now userId : Z)
    (data : FlashcardInput) (st : Store)
    : option (Flashcard * CardContent * ReviewSchedule * Store) :=
  let db := tables st in
  let id := newId env in
  if negb (accepted env) then None
  else if existsb (fun c => fc_id c =? id) (flashcards db) then None
  else if bool_decide (is_Some (reviewSchedules db !! id)) then None
  else
    let card := {| fc_id := id; fc_userId := userId |} in
    let content :=
      {| cc_question := question data;
         cc_answer := answer data;
         cc_hint := hint data;
         cc_categoryId := categoryId data;
         cc_difficulty := difficulty data;
         cc_tags := tags data;
         cc_createdAt := now |} in
    let schedule :=
      {| rs_easeFactor := 2.5;
         rs_interval := 1;
         rs_repetitions := 0;
         rs_nextReviewDate := now + 24 * 60 * 60 * 1000;
         rs_lastReviewedAt := None;
         rs_userId := userId;
         rs_flashcardId := id |} in
    Some (card, content, schedule,
          {| tables :=
               {| flashcards := flashcards db ++ [card];
                  reviewSchedules := <[id := schedule]> (reviewSchedules db);
                  reviewHistory := reviewHistory db;
                  dailyStats := dailyStats db;
                  studyStreaks := studyStreaks db |};
             contents := <[id := content]> (contents st) |}).

Definition POST (now : Z) (env : Insertion) (request : Request) (st : Store)
    : Response * Store :=
  (* 1. authenticate user *)
  match currentUser request with
  | None => (Unauthorized401, st)
  | Some userId =>
      (* 2. parse and validate request body *)
      match body request with
      | None => (InternalServerError500, st)
      | Some body =>
          match safeParse body with
          | None => (BadRequest400, st)
          | Some data =>
              (* 3. create flashcard with initial review schedule *)
              match flashcard_create env now userId data st with
              | Some (card, content, schedule, st') =>
                  (* 4. return created flashcard *)
                  (Created201 card content schedule, st')
              | None => (InternalServerError500, st)
              end
          end
      end
  end.

Inductive DeleteError := DeleteRefused | DeleteNotFound.

(** [prisma.flashcard.delete({ where: { id } })].  [ReviewSchedule] and
    [ReviewHistory] reference the card [ON DELETE CASCADE]; [DailyStat] and
    [StudyStreak] reference the user only. *)
Definition flashcard_delete (accepted : bool) (id : Z) (st : Store)
    : DeleteError + Store :=
  let db := tables st in
  if negb accepted then inl DeleteRefused
  else if existsb (fun c => fc_id c =? id) (flashcards db) then
    inr {| tables :=
             {| flashcards :=
                  List.filter (fun c => negb (fc_id c =? id)) (flashcards db);
                reviewSchedules := delete id (reviewSchedules db);
                reviewHistory :=
                  List.filter (fun h => negb (rh_flashcardId h =? id))
                              (reviewHistory db);
                dailyStats := dailyStats db;
                studyStreaks := studyStreaks db |};
           contents := delete id (contents st) |}
  else inl DeleteNotFound.

End Cards.

(** ** app/api/flashcards/route.ts: GET /api/flashcards *)

Module Listing.
Import Strings.Ascii JS Schema Cards.

(** [parseInt(string)] without a radix: leading white space is skipped, a
    sign is read, the prefix [0x] selects radix 16, the longest run of digits
    is the value, and [NaN] ([None]) results when there is no digit.  The
    value is exact (the source rounds beyond 2^53).  A character is a code
    unit below 256, of which seven are white space or line terminators. *)
Definition isWhiteSpace (c : ascii) : bool :=
  let code := Z.of_N (N_of_ascii c) in
  (code =? 9) || (code =? 10) || (code =? 11) || (code =? 12) || (code =? 13)
  || (code =? 32) || (code =? 160).

Fixpoint trimStart (s : string) : string :=
  match s with
  | String c rest => if isWhiteSpace c then trimStart rest else s
  | EmptyString => s
  end.

Definition digitValue (c : ascii) : option Z :=
  let code := Z.of_N (N_of_ascii c) in
  if (48 <=? code) && (code <=? 57) then Some (code - 48)
  else if (97 <=? code) && (code <=? 122) then Some (code - 87)
  else if (65 <=? code) && (code <=? 90) then Some (code - 55)
  else None.

Fixpoint leadingDigits (radix : Z) (s : string) (value : option Z) : option Z :=
  match s with
  | String c rest =>
      match digitValue c with
      | Some d =>
          if d <? radix
          then leadingDigits radix rest (Some (default 0 value * radix + d))
          else value
      | None => value
      end
  | EmptyString => value
  end.

Definition parseInt (s : string) : option Z :=
  let s := trimStart s in
  let '(sign, s) :=
    match s with
    | String "-"%char rest => (-1, rest)
    | String "+"%char rest => (1, rest)
    | _ => (1, s)
    end in
  let '(radix, s) :=
    match s with
    | String "0"%char (String "x"%char rest) => (16, rest)
    | String "0"%char (String "X"%char rest) => (16, rest)
    | _ => (10, s)
    end in
  Z.mul sign <$> leadingDigits radix s None.

(** [searchParams.get(name)] for the four parameters, [None] for [null]. *)
Record Query := mkQuery {
  categoryIdParam : option string;
  searchParam : option string;
  pageParam : option string;
  limitParam : option string
}.

(** [x || d] and [if (x)] on a string or [null]: the empty string is falsy. *)
Definition orDefault (x : option string) (d : string) : string :=
  match x with
  | Some (String c rest) => String c rest
  | _ => d
  end.

Definition truthy (x : option string) : option string :=
  match x with
  | Some (String c rest) => Some (String c rest)
  | _ => None
  end.

(** A card with its content columns and the [reviewSchedule] that [include]
    adds to it, [None] for [null].  The [category] row that [include] also
    adds is not part of the model, which has no [Category] table; the card's
    [categoryId] column is. *)
Definition Row : Type := Flashcard * CardContent * option ReviewSchedule.

Definition rows (st : Store) : list Row :=
  omap (fun card =>
          content ← contents st !! fc_id card ;
          Some (card, content, reviewSchedules (tables st) !! fc_id card))
       (flashcards (tables st)).

Record Pagination := mkPagination {
  page : Z;
  limit : Z;
  total : Z;
  totalPages : Z
}.

Inductive Response :=
| Unauthorized401
| Ok200 (flashcards : list Row) (pagination : Pagination)
| InternalServerError500.

(** What the route leaves to the database and to Prisma while it serves one
    request: the case-insensitive containment test of [contains]; the order
    the database gives, in this request, to rows that [orderBy] does not
    tell apart (a smaller [tieKey] comes first); and the answer to a request
    whose arguments are not plain pagination arguments ([NaN], a page below
    1, a limit below 1, or a window beyond 2^31 rows). *)
Record Engine := mkEngine {
  containsInsensitive : string -> string -> bool;
  tieKey : Row -> Z;
  outside : option Z -> Query -> Store -> Response
}.

(** The [where] clause. *)
Definition matchesWhere (engine : Engine) (userId : Z) (category : option Z)
    (search : option string) (row : Row) : bool :=
  let '(card, content, _) := row in
  (fc_userId card =? userId)
  && match category with
     | Some c =>
         match cc_categoryId content with
         | Some c' => Qeq_bool c' (inject_Z c)
         | None => false
         end
     | None => true
     end
  && match search with
     | Some text =>
         containsInsensitive engine text (cc_question content)
         || containsInsensitive engine text (cc_answer content)
     | None => true
     end.

Definition createdAt (row : Row) : Z := cc_createdAt (snd (fst row)).

(** [row] may stand before [row'] in a listing. *)
Definition notOlder (row row' : Row) : Prop := createdAt row' <= createdAt row.

(** [orderBy: { createdAt: 'desc' }]: a row created later comes first.  The
    order of rows created at the same instant is the database's choice,
    [tieKey]. *)
Definition comesFirst (engine : Engine) (row row' : Row) : bool :=
  (createdAt row' <? createdAt row)
  || ((createdAt row' =? createdAt row)
      && (tieKey engine row <=? tieKey engine row')).

Fixpoint insertNewest (engine : Engine) (row : Row) (sorted : list Row)
    : list Row :=
  match sorted with
  | [] => [row]
  | row' :: rest =>
      if comesFirst engine row row'
      then row :: row' :: rest
      else row' :: insertNewest engine row rest
  end.

Definition newestFirst (engine : Engine) (l : list Row) : list Row :=
  foldr (insertNewest engine) [] l.

(** The rows that match the [where] clause, in the order of [orderBy]. *)
Definition matching (engine : Engine) (userId : Z) (category : option Z)
    (search : option string) (st : Store) : list Row :=
  newestFirst engine
    (List.filter (matchesWhere engine userId category search) (rows st)).

(** The category argument of the [where] clause is absent or a number. *)
Definition categoryParsed (query : Query) (category : option Z) : Prop :=
  match truthy (categoryIdParam query) with
  | Some text => exists c, parseInt text = Some c /\ category = Some c
  | None => category = None
  end.

(** The arguments for which the window [skip, take] is modelled. *)
Definition plainArguments (page limit : Z) : bool :=
  (1 <=? page) && (1 <=? limit) && ((page - 1) * limit + limit <? 2 ^ 31).

Definition GET (engine : Engine) (accepted : bool) (currentUser : option Z)
    (query : Query) (st : Store) : Response :=
  match currentUser with
  | None => Unauthorized401
  | Some userId =>
      (* parse query parameters *)
      let categoryId := truthy (categoryIdParam query) in
      let search := truthy (searchParam query) in
      let page := parseInt (orDefault (pageParam query) "1") in
      let limit :=
        (fun n => Z.min n 100) <$> parseInt (orDefault (limitParam query) "20") in
      (* build where clause *)
      let category := parseInt <$> categoryId in
      match page, limit, category with
      | Some page, Some limit, (None | Some (Some _)) =>
          if plainArguments page limit then
            if accepted then
              (* fetch flashcards with pagination *)
              let found := matching engine userId (mjoin category) search st in
              let skip := (page - 1) * limit in
              let total := Z.of_nat (length found) in
              Ok200 (take (Z.to_nat limit) (drop (Z.to_nat skip) found))
                    {| page := page;
                       limit := limit;
                       total := total;
                       totalPages := Math_ceil (inject_Z total / inject_Z limit) |}
            else InternalServerError500
          else outside engine (Some userId) query st
      | _, _, _ => outside engine (Some userId) query st
      end
  end.

End Listing.

Module SampleListing.
Import Schema FlashcardSchema Cards Listing.

(** The cards of [Sample.db] with content: card 10 was created first, card
    11 last; cards 10 and 11 are in category 3. *)
Definition store : Store :=
  {| tables := Sample.db;
     contents :=
       <[10 := mkCardContent "q10" "a10" None (Some 3%Q) easy [] 100]>
       (<[11 := mkCardContent "q11" "a11" None (Some 3%Q) medium [] 300]>
       (<[12 := mkCardContent "q12" "a12" None None hard [] 200]>
       (<[20 := mkCardContent "q20" "a20" None None medium [] 150]> ∅))) |}.

(** An engine whose containment test is equality, which lists cards created
    at the same instant by identifier, and which answers 500 outside the
    plain pagination arguments. *)
Definition engine : Engine :=
  {| containsInsensitive := String.eqb;
     tieKey := fun row => fc_id (fst (fst row));
     outside := fun _ _ _ => InternalServerError500 |}.

End SampleListing.

(** ** Sequences of requests *)

Module Trace.
Import Schema Prisma.

Inductive Event :=
| CreateCard (now : Z) (env : Cards.Insertion) (request : Cards.Request)
| SubmitReview (now : Z) (request : Reviews.Request) (faults : Faults)
| DeleteCard (accepted : bool) (id : Z).

Definition step (st : Cards.Store) (e : Event) : Cards.Store :=
  match e with
  | CreateCard now env request => snd (Cards.POST now env request st)
  | SubmitReview now request faults =>
      Cards.mkStore (snd (Reviews.POST now request faults (Cards.tables st)))
                    (Cards.contents st)
  | DeleteCard accepted id =>
      match Cards.flashcard_delete accepted id st with
      | inr st' => st'
      | inl _ => st
      end
  end.

Definition run (events : list Event) : Cards.Store :=
  foldl step Cards.emptyStore events.

End Trace.

(** ** Well-formed rows

    The ranges in which the routes keep the rows they write. *)

Module Invariants.
Import Schema.

Definition scheduleOk (row : ReviewSchedule) : Prop :=
  (1.3 <= rs_easeFactor row <= 2.5)%Q /\
  1 <= rs_interval row /\
  0 <= rs_repetitions row.

Definition dailyStatOk (row : DailyStat) : Prop :=
  ds_cardsReviewed row = ds_totalAnswers row /\
  0 <= ds_correctAnswers row <= ds_totalAnswers row.

Definition streakOk (row : StudyStreak) : Prop :=
  ss_currentStreak row <= ss_longestStreak row.

(** The identifier is not in use, neither by a card nor by a schedule. *)
Definition freshId (id : Z) (db : DB) : Prop :=
  (id ∉ (fc_id <$> flashcards db)) /\ reviewSchedules db !! id = None.

(** The bounds of [flashcardSchema]. *)
Definition inputOk (input : FlashcardSchema.FlashcardInput) : Prop :=
  (1 <= String.length (FlashcardSchema.question input) <= 500)%nat /\
  (1 <= String.length (FlashcardSchema.answer input) <= 1000)%nat /\
  (forall h, FlashcardSchema.hint input = Some h -> (String.length h <= 300)%nat).

(** The members that [flashcardSchema] names. *)
Definition schemaKeys : list string :=
  ["question"; "answer"; "hint"; "categoryId"; "difficulty"; "tags"].

(** A consistent store: well-formed rows, distinct card identifiers, one
    schedule per card and one card per schedule, owned by the card's owner,
    content for exactly the cards, and history that refers to stored cards. *)
Definition storeOk (st : Cards.Store) : Prop :=
  let db := Cards.tables st in
  map_Forall (fun _ row => scheduleOk row) (reviewSchedules db) /\
  map_Forall (fun _ row => dailyStatOk row) (dailyStats db) /\
  map_Forall (fun _ row => streakOk row) (studyStreaks db) /\
  NoDup (fc_id <$> flashcards db) /\
  (forall id, is_Some (reviewSchedules db !! id) <-> id ∈ (fc_id <$> flashcards db)) /\
  (forall card, card ∈ flashcards db ->
     exists schedule,
       reviewSchedules db !! fc_id card = Some schedule /\
       rs_userId schedule = fc_userId card /\
       rs_flashcardId schedule = fc_id card) /\
  (forall id, is_Some (Cards.contents st !! id) <-> id ∈ (fc_id <$> flashcards db)) /\
  (forall entry, entry ∈ reviewHistory db ->
     rh_flashcardId entry ∈ (fc_id <$> flashcards db)).

End Invariants.

(** * Properties *)

(** ** The comparison and rounding primitives *)

Section JSFacts.
Import JS.
Local Open Scope Q_scope.

Lemma lt_true (a b : Q) : lt a b = true <-> a < b.
Proof.
  unfold lt. rewrite Qlt_alt.
  destruct (a ?= b); split; intros H; congruence.
Qed.

Lemma lt_false (a b : Q) : lt a b = false <-> b <= a.
Proof.
  pose proof (lt_true a b) as Ht.
  pose proof (Qnot_lt_le a b) as Hle. pose proof (Qle_not_lt b a) as Hnl.
  destruct (lt a b); split; intros H; try congruence.
  - exfalso. apply (Hnl H), Ht. reflexivity.
  - apply Hle. intros Hlt. apply Ht in Hlt. congruence.
Qed.

Lemma ge_lt (a b : Q) : ge a b = negb (lt a b).
Proof. unfold ge, lt. now destruct (a ?= b). Qed.

Lemma ge_true (a b : Q) : ge a b = true <-> b <= a.
Proof. rewrite ge_lt, negb_true_iff. apply lt_false. Qed.

(** The clamp of step 1, by cases on the unclamped value. *)
Lemma clamp_cases (x : Q) :
  let c := Math_max 1.3 (Math_min 2.5 x) in
  (x <= 1.3 /\ c == 1.3) \/ (1.3 <= x <= 2.5 /\ c == x) \/ (2.5 <= x /\ c == 2.5).
Proof.
  unfold Math_max, Math_min. cbv zeta.
  destruct (Q.min_spec 2.5 x) as [[H1 E1] | [H1 E1]];
    destruct (Q.max_spec 1.3 (Qmin 2.5 x)) as [[H2 E2] | [H2 E2]];
    rewrite E1 in H2; rewrite E2, ?E1;
    first [ left; split; lra
          | right; left; split; lra
          | right; right; split; lra ].
Qed.

(** [Math_round x] is the integer nearest to [x], a tie going up. *)
Lemma Math_round_spec (x : Q) :
  inject_Z (Math_round x) - 0.5 <= x < inject_Z (Math_round x) + 0.5.
Proof.
  unfold Math_round.
  pose proof (Qfloor_le (x + 0.5)) as Hlo.
  pose proof (Qlt_floor (x + 0.5)) as Hhi.
  rewrite inject_Z_plus in Hhi. change (inject_Z 1) with 1 in Hhi.
  split; lra.
Qed.

Lemma Math_round_unique (x : Q) (n : Z) :
  inject_Z n - 0.5 <= x < inject_Z n + 0.5 -> Math_round x = n.
Proof.
  intros [Hlo Hhi]. unfold Math_round.
  assert (Hle : (n <= Qfloor (x + 0.5))%Z).
  { rewrite <- (Qfloor_Z n). apply Qfloor_resp_le. lra. }
  assert (Hlt : (Qfloor (x + 0.5) < n + 1)%Z).
  { rewrite Zlt_Qlt. eapply Qle_lt_trans; [apply Qfloor_le |].
    rewrite inject_Z_plus. change (inject_Z 1) with 1. lra. }
  lia.
Qed.

End JSFacts.

(** ** The scheduler *)

Section SchedulerFacts.
Import JS SpacedRepetition.
Local Open Scope Q_scope.

Variables (now : Z) (quality : Q) (reps : Z) (ef : Q) (iv : Z).

Let result := calculateSM2 now quality reps ef iv.
Let sum := ef + (0.1 - (5 - quality) * (0.08 + (5 - quality) * 0.02)).

Lemma calculateSM2_easeFactor :
  easeFactor result = Math_max 1.3 (Math_min 2.5 sum).
Proof.
  unfold result, sum, calculateSM2.
  destruct (lt quality 3); [reflexivity |].
  destruct (reps + 1 =? 1)%Z; [reflexivity |].
  destruct (reps + 1 =? 2)%Z; reflexivity.
Qed.

Lemma calculateSM2_incorrect :
  lt quality 3 = true ->
  interval result = 1%Z /\ repetitions result = 0%Z.
Proof. unfold result, calculateSM2. intros ->. split; reflexivity. Qed.

Lemma calculateSM2_correct :
  lt quality 3 = false ->
  repetitions result = (reps + 1)%Z /\
  interval result =
    (if reps + 1 =? 1 then 1
     else if reps + 1 =? 2 then 6
     else Math_round (inject_Z iv * easeFactor result))%Z.
Proof.
  intros Hq. rewrite calculateSM2_easeFactor.
  unfold result, sum, calculateSM2. rewrite Hq.
  destruct (reps + 1 =? 1)%Z; [split; reflexivity |].
  destruct (reps + 1 =? 2)%Z; split; reflexivity.
Qed.

Lemma calculateSM2_nextReviewDate :
  nextReviewDate result = addDays now (interval result).
Proof.
  unfold result, calculateSM2.
  destruct (lt quality 3); [reflexivity |].
  destruct (reps + 1 =? 1)%Z; [reflexivity |].
  destruct (reps + 1 =? 2)%Z; reflexivity.
Qed.

(** A failing answer lowers the unclamped ease factor. *)
Lemma incorrect_sum_below : quality < 3 -> sum < ef - 0.14.
Proof. unfold sum. intros Hq. nra. Qed.

End SchedulerFacts.

Section SchedulerClaims.
Import JS SpacedRepetition.
Local Open Scope Q_scope.

(** C1 (as stated, refuted).  The new ease factor is not left unbounded
    above: reviewing a card whose ease factor is 2.6 with quality 4 yields
    2.5, which is neither the floor-only clamp of [2.6 + delta] nor a value
    above 2.5. *)
Lemma C1_no_ceiling_counterexample :
  let result := calculateSM2 0 4 1 2.6 1 in
  easeFactor result == 2.5 /\
  ~ easeFactor result == Qmax 1.3 (2.6 + (0.1 - (5 - 4) * (0.08 + (5 - 4) * 0.02))) /\
  ~ 2.5 < easeFactor result.
Proof.
  cbv zeta. split; [| split].
  - vm_compute. reflexivity.
  - intros H. vm_compute in H. discriminate H.
  - intros H. vm_compute in H. discriminate H.
Qed.

(** C1 (amended).  For every prior state and every quality in [0,5], the new
    ease factor is [prior.easeFactor + delta] clamped to the interval
    [1.3, 2.5]: it is that sum when the sum lies between 1.3 and 2.5, it is
    1.3 when the sum is lower and 2.5 when the sum is higher; a prior ease
    factor of 2.6 reviewed with quality 4 yields 2.5. *)
Theorem C1_ease_factor_clamped (now : Z) (quality : Q) (reps : Z) (ef : Q) (iv : Z) :
  0 <= quality <= 5 ->
  let sum := ef + (0.1 - (5 - quality) * (0.08 + (5 - quality) * 0.02)) in
  let newEase := easeFactor (calculateSM2 now quality reps ef iv) in
  (sum <= 1.3 -> newEase == 1.3) /\
  (1.3 <= sum <= 2.5 -> newEase == sum) /\
  (2.5 <= sum -> newEase == 2.5) /\
  1.3 <= newEase <= 2.5 /\
  easeFactor (calculateSM2 now 4 1 2.6 1) == 2.5.
Proof.
  intros _ sum newEase. unfold newEase. rewrite calculateSM2_easeFactor.
  fold sum. pose proof (clamp_cases sum) as Hc. cbv zeta in Hc.
  split; [intros; lra |]. split; [intros; lra |]. split; [intros; lra |].
  split; [lra |]. vm_compute. reflexivity.
Qed.

Lemma C1_ease_factor_clamped_witness :
  (0 <= 5 <= 5) /\
  easeFactor (calculateSM2 0 5 3 2.5 16) == 2.5 /\
  easeFactor (calculateSM2 0 5 3 2.0 16) == 2.1.
Proof.
  assert (Hq : 0 <= 5 <= 5) by (split; discriminate).
  split; [exact Hq |]. split.
  - pose proof (C1_ease_factor_clamped 0 5 3 2.5 16 Hq) as (_ & _ & H & _).
    apply H. vm_compute. discriminate.
  - pose proof (C1_ease_factor_clamped 0 5 3 2.0 16 Hq) as (_ & H & _).
    rewrite H; [reflexivity |]. split; vm_compute; discriminate.
Defined.

(** C2.  For every prior state and every quality below 3 the scheduler
    returns [repetitions = 0] and [interval = 1], and the ease factor is
    still updated by step 1 (the delta formula and its clamp); a failing
    answer never reaches the upper end of the clamp from a stored ease
    factor of at most 2.5, so there the new ease factor is
    [max(1.3, prior.easeFactor + delta)]. *)
Theorem C2_incorrect_answer_resets (now : Z) (quality : Q) (reps : Z) (ef : Q) (iv : Z) :
  quality < 3 ->
  let delta := 0.1 - (5 - quality) * (0.08 + (5 - quality) * 0.02) in
  let result := calculateSM2 now quality reps ef iv in
  repetitions result = 0%Z /\
  interval result = 1%Z /\
  easeFactor result == Qmax 1.3 (Qmin 2.5 (ef + delta)) /\
  (ef <= 2.5 -> easeFactor result == Qmax 1.3 (ef + delta)).
Proof.
  intros Hq delta result.
  destruct (calculateSM2_incorrect now quality reps ef iv) as [Hi Hr];
    [now apply lt_true |].
  unfold result. rewrite calculateSM2_easeFactor. fold delta.
  repeat split; try assumption; try reflexivity.
  intros Hef. unfold Math_max, Math_min.
  pose proof (incorrect_sum_below quality ef Hq) as Hsum. fold delta in Hsum.
  destruct (Q.min_spec 2.5 (ef + delta)) as [[H1 E1] | [H1 E1]]; [lra |].
  destruct (Q.max_spec 1.3 (Qmin 2.5 (ef + delta))) as [[H2 E2] | [H2 E2]];
    destruct (Q.max_spec 1.3 (ef + delta)) as [[H3 E3] | [H3 E3]];
    rewrite E1 in H2; rewrite E2, E3, ?E1; lra.
Qed.

Lemma C2_incorrect_answer_resets_witness :
  let result := calculateSM2 0 2 3 2.8 16 in
  2 < 3 /\ repetitions result = 0%Z /\ interval result = 1%Z.
Proof.
  assert (Hq : 2 < 3) by reflexivity.
  destruct (C2_incorrect_answer_resets 0 2 3 2.8 16 Hq) as (Hr & Hi & _).
  cbv zeta. split; [exact Hq |]. split; [exact Hr | exact Hi].
Defined.

(** C3 (as stated, refuted).  The rounded interval is not coerced to at
    least 1: with a prior interval of 0 and a third passing answer the new
    interval is 0. *)
Lemma C3_zero_interval_counterexample :
  let result := calculateSM2 0 4 2 2.5 0 in
  repetitions result = 3%Z /\ interval result = 0%Z /\ ~ (1 <= interval result)%Z.
Proof.
  cbv zeta. split; [| split].
  - vm_compute. reflexivity.
  - vm_compute. reflexivity.
  - intros H. vm_compute in H. apply H. reflexivity.
Qed.

End SchedulerClaims.

(** ** Double-precision arithmetic: rounding *)

Section Binary64Facts.
Import Binary64.
Local Open Scope Q_scope.

Lemma pow2_pos (e : Z) : 0 < pow2 e.
Proof. apply Qpower_0_lt. reflexivity. Qed.

Lemma pow2_plus (a b : Z) : pow2 (a + b) == pow2 a * pow2 b.
Proof. apply Qpower_plus. discriminate. Qed.

Lemma pow2_succ (a : Z) : pow2 (a + 1) == 2 * pow2 a.
Proof. rewrite pow2_plus. change (pow2 1) with 2. ring. Qed.

Lemma pow2_le (a b : Z) : (a <= b)%Z -> pow2 a <= pow2 b.
Proof. intros H. apply Qpower_le_compat_l; [exact H | discriminate]. Qed.

Lemma pow2_lt (a b : Z) : (a < b)%Z -> pow2 a < pow2 b.
Proof. intros H. apply Qpower_lt_compat_l; [exact H | reflexivity]. Qed.

Lemma pow2_lt_inv (a b : Z) : pow2 a < pow2 b -> (a < b)%Z.
Proof. intros H. apply (Qpower_lt_compat_l_inv 2); [exact H | reflexivity]. Qed.

Lemma pow2_inject (a : Z) : (0 <= a)%Z -> inject_Z (2 ^ a) == pow2 a.
Proof. intros H. now rewrite Zpower_Qpower. Qed.

Lemma log2_bounds (n : Z) :
  (0 < n)%Z -> pow2 (Z.log2 n) <= inject_Z n < pow2 (Z.log2 n + 1).
Proof.
  intros Hn. pose proof (Z.log2_spec n Hn) as [Hlo Hhi].
  pose proof (Z.log2_nonneg n) as H0.
  rewrite <- !pow2_inject by lia. rewrite <- Zle_Qle, <- Zlt_Qlt.
  split; [exact Hlo |]. exact Hhi.
Qed.

(** Every non-zero number lies in exactly one binade. *)
Lemma ilog2_spec (x : Q) :
  ~ x == 0 -> pow2 (ilog2 x) <= Qabs x < pow2 (ilog2 x + 1).
Proof.
  intros Hx. unfold ilog2.
  set (n := Z.abs (Qnum x)). set (d := Z.pos (Qden x)).
  set (k := (Z.log2 n - Z.log2 d)%Z).
  assert (Hn : (0 < n)%Z).
  { unfold n. destruct x as [[| p | p] q]; simpl; try lia.
    exfalso. apply Hx. reflexivity. }
  assert (Hd : (0 < d)%Z) by (unfold d; lia).
  pose proof (log2_bounds n Hn) as [Hn1 Hn2].
  pose proof (log2_bounds d Hd) as [Hd1 Hd2].
  assert (Habs : Qabs x * inject_Z d == inject_Z n).
  { unfold n, d. destruct x as [a q]. simpl.
    unfold Qeq, Qmult, inject_Z. simpl. lia. }
  assert (Hk1 : pow2 (k + 1) * pow2 (Z.log2 d) == pow2 (Z.log2 n + 1)).
  { rewrite <- pow2_plus. unfold k.
    replace (Z.log2 n - Z.log2 d + 1 + Z.log2 d)%Z with (Z.log2 n + 1)%Z by lia.
    reflexivity. }
  assert (Hk2 : pow2 (k - 1) * pow2 (Z.log2 d + 1) == pow2 (Z.log2 n)).
  { rewrite <- pow2_plus. unfold k.
    replace (Z.log2 n - Z.log2 d - 1 + (Z.log2 d + 1))%Z with (Z.log2 n) by lia.
    reflexivity. }
  pose proof (pow2_pos (k + 1)) as P1. pose proof (pow2_pos (k - 1)) as P2.
  pose proof (pow2_pos (Z.log2 d)) as P3.
  pose proof (Qabs_nonneg x) as P4.
  assert (Hhi : Qabs x < pow2 (k + 1)).
  { apply Qnot_le_lt. intros Hle.
    assert (pow2 (k + 1) * pow2 (Z.log2 d) <= Qabs x * inject_Z d) by nra.
    lra. }
  assert (Hlo : pow2 (k - 1) < Qabs x).
  { apply Qnot_le_lt. intros Hle.
    assert (Qabs x * inject_Z d <= pow2 (k - 1) * pow2 (Z.log2 d + 1)) by nra.
    rewrite Habs, Hk2 in H. 
    assert (Qabs x * inject_Z d < pow2 (k - 1) * pow2 (Z.log2 d + 1)).
    { pose proof (pow2_pos (Z.log2 d + 1)).
      destruct (Qlt_le_dec 0 (Qabs x)) as [Hpos | Hzero].
      - nra.
      - assert (inject_Z n <= 0) by nra.
        rewrite Zlt_Qlt in Hn. change (inject_Z 0) with 0 in Hn. lra. }
    lra. }
  destruct (Qle_bool (pow2 k) (Qabs x)) eqn:Htest.
  - apply Qle_bool_iff in Htest. split; assumption.
  - assert (Hlt : Qabs x < pow2 k).
    { apply Qnot_le_lt. intros Hle. apply Qle_bool_iff in Hle. congruence. }
    replace (k - 1 + 1)%Z with k by lia. split; [lra | exact Hlt].
Qed.

Lemma ilog2_unique (x : Q) (k : Z) :
  pow2 k <= Qabs x < pow2 (k + 1) -> ilog2 x = k.
Proof.
  intros [Hlo Hhi].
  assert (Hx : ~ x == 0).
  { intros E. rewrite E in Hlo. pose proof (pow2_pos k).
    change (Qabs 0) with 0 in Hlo. lra. }
  destruct (ilog2_spec x Hx) as [Slo Shi].
  assert (ilog2 x < k + 1)%Z by (apply pow2_lt_inv; lra).
  assert (k < ilog2 x + 1)%Z by (apply pow2_lt_inv; lra).
  lia.
Qed.

Lemma ilog2_le (x y : Q) :
  ~ x == 0 -> Qabs x <= Qabs y -> (ilog2 x <= ilog2 y)%Z.
Proof.
  intros Hx Hle.
  assert (Hy : ~ y == 0).
  { intros E. rewrite E in Hle. change (Qabs 0) with 0 in Hle.
    destruct (Qabs_Qle_condition x 0) as [Hc _]. specialize (Hc Hle).
    apply Hx. lra. }
  destruct (ilog2_spec x Hx) as [Xlo Xhi].
  destruct (ilog2_spec y Hy) as [Ylo Yhi].
  assert (ilog2 x < ilog2 y + 1)%Z by (apply pow2_lt_inv; lra).
  lia.
Qed.


Lemma ilog2_comp (x y : Q) : ~ x == 0 -> x == y -> ilog2 x = ilog2 y.
Proof.
  intros Hx E. symmetry. apply ilog2_unique. rewrite <- E.
  now apply ilog2_spec.
Qed.

Lemma ilog2_opp (x : Q) : ~ x == 0 -> ilog2 (- x) = ilog2 x.
Proof.
  intros Hx. apply ilog2_unique. rewrite Qabs_opp. now apply ilog2_spec.
Qed.

(** Rounding to the nearest integer, a tie going to the even one. *)
Lemma roundHalfEven_spec (x : Q) :
  inject_Z (roundHalfEven x) - (1 # 2) <= x <= inject_Z (roundHalfEven x) + (1 # 2).
Proof.
  unfold roundHalfEven.
  pose proof (Qfloor_le x) as Hlo. pose proof (Qlt_floor x) as Hhi.
  rewrite inject_Z_plus in Hhi. change (inject_Z 1) with 1 in Hhi.
  destruct (x - inject_Z (Qfloor x) ?= 1 # 2) eqn:Hc.
  - apply Qeq_alt in Hc. destruct (Z.even (Qfloor x)).
    + lra.
    + rewrite inject_Z_plus. change (inject_Z 1) with 1. lra.
  - apply Qlt_alt in Hc. lra.
  - apply Qgt_alt in Hc. rewrite inject_Z_plus. change (inject_Z 1) with 1. lra.
Qed.

Lemma roundHalfEven_comp (x y : Q) : x == y -> roundHalfEven x = roundHalfEven y.
Proof.
  intros E. unfold roundHalfEven.
  assert (Hf : Qfloor x = Qfloor y) by now apply Qfloor_comp.
  rewrite Hf.
  assert (Hc : (x - inject_Z (Qfloor y) ?= 1 # 2) = (y - inject_Z (Qfloor y) ?= 1 # 2)).
  { apply Qcompare_comp; [now rewrite E | reflexivity]. }
  now rewrite Hc.
Qed.

Lemma roundHalfEven_inject (n : Z) : roundHalfEven (inject_Z n) = n.
Proof.
  unfold roundHalfEven. rewrite Qfloor_Z.
  assert (Hc : (inject_Z n - inject_Z n ?= 1 # 2) = Lt).
  { apply (proj1 (Qlt_alt _ _)). lra. }
  now rewrite Hc.
Qed.

Lemma roundHalfEven_le (x y : Q) : x <= y -> (roundHalfEven x <= roundHalfEven y)%Z.
Proof.
  intros Hle. destruct (Qeq_dec x y) as [E | N].
  - rewrite (roundHalfEven_comp x y E). lia.
  - pose proof (roundHalfEven_spec x) as [Hx _].
    pose proof (roundHalfEven_spec y) as [_ Hy].
    assert (Hlt : x < y).
    { apply Qnot_le_lt. intros H. apply N. lra. }
    assert (H1 : inject_Z (roundHalfEven x) < inject_Z (roundHalfEven y + 1)).
    { rewrite inject_Z_plus. change (inject_Z 1) with 1. lra. }
    rewrite <- Zlt_Qlt in H1. lia.
Qed.

Lemma Qfloor_unique (x : Q) (n : Z) :
  inject_Z n <= x < inject_Z n + 1 -> Qfloor x = n.
Proof.
  intros [Hlo Hhi].
  pose proof (Qfloor_le x) as Flo. pose proof (Qlt_floor x) as Fhi.
  rewrite inject_Z_plus in Fhi. change (inject_Z 1) with 1 in Fhi.
  assert (H1 : inject_Z n < inject_Z (Qfloor x + 1)).
  { rewrite inject_Z_plus. change (inject_Z 1) with 1. lra. }
  assert (H2 : inject_Z (Qfloor x) < inject_Z (n + 1)).
  { rewrite inject_Z_plus. change (inject_Z 1) with 1. lra. }
  rewrite <- Zlt_Qlt in H1, H2. lia.
Qed.

Lemma roundHalfEven_opp (x : Q) : roundHalfEven (- x) = (- roundHalfEven x)%Z.
Proof.
  pose proof (Qfloor_le x) as Flo. pose proof (Qlt_floor x) as Fhi.
  rewrite inject_Z_plus in Fhi. change (inject_Z 1) with 1 in Fhi.
  destruct (Qeq_dec x (inject_Z (Qfloor x))) as [E | N].
  - rewrite (roundHalfEven_comp x _ E).
    assert (E' : - x == inject_Z (- Qfloor x)) by (rewrite inject_Z_opp; lra).
    rewrite (roundHalfEven_comp (- x) _ E').
    now rewrite !roundHalfEven_inject.
  - assert (Hf : Qfloor (- x) = (- Qfloor x - 1)%Z).
    { apply Qfloor_unique. unfold Z.sub.
      rewrite inject_Z_plus, inject_Z_opp. change (inject_Z (- (1))) with (-1).
      split; [lra |].
      assert (inject_Z (Qfloor x) < x); [| lra].
      apply Qnot_le_lt. intros H. apply N. lra. }
    unfold roundHalfEven. rewrite Hf.
    unfold Z.sub. rewrite inject_Z_plus, inject_Z_opp.
    change (inject_Z (- (1))) with (-1).
    destruct (x - inject_Z (Qfloor x) ?= 1 # 2) eqn:Hc.
    + apply Qeq_alt in Hc.
      assert (Hc' : (- x - (- inject_Z (Qfloor x) + -1) ?= 1 # 2) = Eq).
      { apply (proj1 (Qeq_alt _ _)). lra. }
      rewrite Hc'.
      replace (- Qfloor x + - (1))%Z with (- (Qfloor x + 1))%Z by lia.
      rewrite Z.even_opp, Z.even_add. simpl.
      destruct (Z.even (Qfloor x)); simpl; lia.
    + apply Qlt_alt in Hc.
      assert (Hc' : (- x - (- inject_Z (Qfloor x) + -1) ?= 1 # 2) = Gt).
      { apply (proj1 (Qgt_alt _ _)). lra. }
      rewrite Hc'. lia.
    + apply Qgt_alt in Hc.
      assert (Hc' : (- x - (- inject_Z (Qfloor x) + -1) ?= 1 # 2) = Lt).
      { apply (proj1 (Qlt_alt _ _)). lra. }
      rewrite Hc'. lia.
Qed.

Lemma ulpExponent_opp (x : Q) : ~ x == 0 -> ulpExponent (- x) = ulpExponent x.
Proof. intros Hx. unfold ulpExponent. now rewrite ilog2_opp. Qed.

Lemma fl_0 (x : Q) : x == 0 -> fl x = 0.
Proof.
  intros E. unfold fl. apply Qeq_bool_iff in E. now rewrite E.
Qed.

Lemma fl_nonzero (x : Q) :
  ~ x == 0 ->
  fl x = inject_Z (roundHalfEven (x / pow2 (ulpExponent x))) * pow2 (ulpExponent x).
Proof.
  intros N. unfold fl. destruct (Qeq_bool x 0) eqn:E; [| reflexivity].
  apply Qeq_bool_iff in E. contradiction.
Qed.

(** [fl] depends on the value of a number, not on the fraction that denotes it. *)
Lemma fl_comp (x y : Q) : x == y -> fl x == fl y.
Proof.
  intros E. destruct (Qeq_dec x 0) as [Z0 | N].
  - rewrite (fl_0 x Z0), (fl_0 y); [reflexivity | now rewrite <- E].
  - assert (N' : ~ y == 0) by now rewrite <- E.
    rewrite (fl_nonzero x N), (fl_nonzero y N').
    unfold ulpExponent. rewrite <- (ilog2_comp x y N E).
    set (e := Z.max (ilog2 x - 52) (-1074)).
    assert (Hr : roundHalfEven (x / pow2 e) = roundHalfEven (y / pow2 e)).
    { apply roundHalfEven_comp. now rewrite E. }
    now rewrite Hr.
Qed.

#[global] Instance fl_Proper : Proper (Qeq ==> Qeq) fl.
Proof. intros x y E. now apply fl_comp. Qed.

Lemma fl_opp (x : Q) : fl (- x) == - fl x.
Proof.
  destruct (Qeq_dec x 0) as [Z0 | N].
  - rewrite (fl_0 x Z0), (fl_0 (- x)); [reflexivity | lra].
  - assert (N' : ~ - x == 0) by (intros H; apply N; lra).
    rewrite (fl_nonzero x N), (fl_nonzero (- x) N').
    rewrite (ulpExponent_opp x N).
    set (p := pow2 (ulpExponent x)).
    assert (Hr : roundHalfEven (- x / p) = (- roundHalfEven (x / p))%Z).
    { rewrite <- roundHalfEven_opp. apply roundHalfEven_comp.
      unfold Qdiv. ring. }
    rewrite Hr, inject_Z_opp. ring.
Qed.

(** The error of one rounding is at most half a unit in the last place. *)
Lemma fl_error_ulp (x : Q) :
  ~ x == 0 -> Qabs (fl x - x) <= pow2 (ulpExponent x) / 2.
Proof.
  intros N. rewrite (fl_nonzero x N).
  set (p := pow2 (ulpExponent x)).
  assert (Hp : 0 < p) by apply pow2_pos.
  pose proof (roundHalfEven_spec (x / p)) as [Hlo Hhi].
  set (r := inject_Z (roundHalfEven (x / p))) in *.
  assert (Hx : x == (x / p) * p) by (field; lra).
  set (q := x / p) in *.
  apply Qabs_Qle_condition. split.
  - setoid_replace (r * p - x) with ((r - q) * p) using relation Qeq by (rewrite Hx at 1; ring).
    assert (- (1 # 2) <= r - q) by lra.
    setoid_replace (- (p / 2)) with (- (1 # 2) * p) using relation Qeq by (field).
    nra.
  - setoid_replace (r * p - x) with ((r - q) * p) using relation Qeq by (rewrite Hx at 1; ring).
    assert (r - q <= 1 # 2) by lra.
    setoid_replace (p / 2) with ((1 # 2) * p) using relation Qeq by (field).
    nra.
Qed.

(** A number of magnitude at least 2^-1022 is rounded with a relative error
    of at most 2^-53. *)
Lemma fl_error (x : Q) :
  pow2 (-1022) <= Qabs x -> Qabs (fl x - x) <= Qabs x * pow2 (-53).
Proof.
  intros Hn.
  assert (N : ~ x == 0).
  { intros E. rewrite E in Hn. change (Qabs 0) with 0 in Hn.
    pose proof (pow2_pos (-1022)). lra. }
  pose proof (fl_error_ulp x N) as He.
  destruct (ilog2_spec x N) as [Hlo Hhi].
  assert (Hk : (-1022 <= ilog2 x)%Z).
  { assert (-1022 < ilog2 x + 1)%Z by (apply pow2_lt_inv; lra). lia. }
  unfold ulpExponent in He. rewrite Z.max_l in He by lia.
  assert (Hp : pow2 (ilog2 x - 52) / 2 == pow2 (ilog2 x) * pow2 (-53)).
  { replace (ilog2 x - 52)%Z with (ilog2 x + -53 + 1)%Z by lia.
    rewrite pow2_succ, pow2_plus. field. }
  rewrite Hp in He. pose proof (pow2_pos (-53)). 
  assert (pow2 (ilog2 x) * pow2 (-53) <= Qabs x * pow2 (-53)) by nra.
  lra.
Qed.


Lemma Qdiv_le_l (x p c : Q) : 0 < p -> x <= c * p -> x / p <= c.
Proof.
  intros Hp H. apply Qle_shift_div_r; assumption.
Qed.

Lemma Qdiv_le_r (x p c : Q) : 0 < p -> c * p <= x -> c <= x / p.
Proof.
  intros Hp H. apply Qle_shift_div_l; assumption.
Qed.

(** Rounding does not cross a multiple of the unit in the last place. *)
Lemma fl_grid_le (x : Q) (n : Z) :
  ~ x == 0 -> x <= inject_Z n * pow2 (ulpExponent x) ->
  fl x <= inject_Z n * pow2 (ulpExponent x).
Proof.
  intros N H. rewrite (fl_nonzero x N).
  set (p := pow2 (ulpExponent x)) in *.
  assert (Hp : 0 < p) by apply pow2_pos.
  assert (Hr : (roundHalfEven (x / p) <= n)%Z).
  { rewrite <- (roundHalfEven_inject n). apply roundHalfEven_le.
    now apply Qdiv_le_l. }
  rewrite Zle_Qle in Hr. nra.
Qed.

Lemma fl_grid_ge (x : Q) (n : Z) :
  ~ x == 0 -> inject_Z n * pow2 (ulpExponent x) <= x ->
  inject_Z n * pow2 (ulpExponent x) <= fl x.
Proof.
  intros N H. rewrite (fl_nonzero x N).
  set (p := pow2 (ulpExponent x)) in *.
  assert (Hp : 0 < p) by apply pow2_pos.
  assert (Hr : (n <= roundHalfEven (x / p))%Z).
  { rewrite <- (roundHalfEven_inject n) at 1. apply roundHalfEven_le.
    now apply Qdiv_le_r. }
  rewrite Zle_Qle in Hr. nra.
Qed.

Lemma fl_nonneg (x : Q) : 0 <= x -> 0 <= fl x.
Proof.
  intros H. destruct (Qeq_dec x 0) as [E | N].
  - rewrite (fl_0 x E). lra.
  - pose proof (fl_grid_ge x 0 N) as G. change (inject_Z 0) with 0 in G.
    lra.
Qed.

Lemma fl_pos_le (x y : Q) : 0 < x -> x <= y -> fl x <= fl y.
Proof.
  intros Hx Hle.
  assert (Nx : ~ x == 0) by lra. assert (Ny : ~ y == 0) by lra.
  assert (Ax : Qabs x == x) by (apply Qabs_pos; lra).
  assert (Ay : Qabs y == y) by (apply Qabs_pos; lra).
  assert (Hk : (ilog2 x <= ilog2 y)%Z) by (apply ilog2_le; [assumption | lra]).
  destruct (ilog2_spec x Nx) as [Xlo Xhi]. destruct (ilog2_spec y Ny) as [Ylo Yhi].
  rewrite Ax in Xlo, Xhi. rewrite Ay in Ylo, Yhi.
  destruct (Z.eq_dec (ulpExponent x) (ulpExponent y)) as [E | NE].
  - rewrite (fl_nonzero x Nx), (fl_nonzero y Ny), E.
    set (p := pow2 (ulpExponent y)).
    assert (Hp : 0 < p) by apply pow2_pos.
    assert (Hr : (roundHalfEven (x / p) <= roundHalfEven (y / p))%Z).
    { apply roundHalfEven_le. apply Qdiv_le_l; [assumption |].
      setoid_replace (y / p * p) with y using relation Qeq by (field; lra). exact Hle. }
    rewrite Zle_Qle in Hr. nra.
  - assert (Hlt : (ulpExponent x < ulpExponent y)%Z)
      by (unfold ulpExponent in *; lia).
    assert (Ey : ulpExponent y = (ilog2 y - 52)%Z)
      by (unfold ulpExponent in *; lia).
    assert (Ex : (ilog2 x + 1 <= ulpExponent x + 53)%Z)
      by (unfold ulpExponent; lia).
    (* x is below 2^53 units, y is at least 2^52 units *)
    pose proof (fl_grid_le x (2 ^ 53) Nx) as Gx.
    pose proof (fl_grid_ge y (2 ^ 52) Ny) as Gy.
    rewrite pow2_inject in Gx, Gy by lia.
    rewrite <- pow2_plus in Gx, Gy.
    assert (H1 : pow2 (ilog2 x + 1) <= pow2 (53 + ulpExponent x))
      by (apply pow2_le; lia).
    assert (H2 : pow2 (53 + ulpExponent x) <= pow2 (52 + ulpExponent y))
      by (apply pow2_le; lia).
    assert (H3 : pow2 (52 + ulpExponent y) == pow2 (ilog2 y)).
    { rewrite Ey. replace (52 + (ilog2 y - 52))%Z with (ilog2 y) by lia.
      reflexivity. }
    assert (fl x <= pow2 (53 + ulpExponent x)) by (apply Gx; lra).
    assert (pow2 (52 + ulpExponent y) <= fl y) by (apply Gy; lra).
    lra.
Qed.

(** Rounding is monotone. *)
Lemma fl_le (x y : Q) : x <= y -> fl x <= fl y.
Proof.
  intros Hle. destruct (Qlt_le_dec 0 x) as [Hx | Hx].
  - now apply fl_pos_le.
  - destruct (Qlt_le_dec y 0) as [Hy | Hy].
    + assert (H : fl (- y) <= fl (- x)) by (apply fl_pos_le; lra).
      rewrite !fl_opp in H. lra.
    + assert (H1 : 0 <= fl y) by now apply fl_nonneg.
      assert (H2 : 0 <= fl (- x)) by (apply fl_nonneg; lra).
      rewrite fl_opp in H2. lra.
Qed.

(** One rounding of a number of magnitude at most [B] is off by at most
    [B * 2^-53 + 2^-1075]. *)
Lemma fl_error_abs (x B : Q) :
  Qabs x <= B -> Qabs (fl x - x) <= B * pow2 (-53) + pow2 (-1075).
Proof.
  intros HB. pose proof (pow2_pos (-53)) as P53. pose proof (pow2_pos (-1075)) as P.
  pose proof (Qabs_nonneg x) as Hx.
  destruct (Qeq_dec x 0) as [E | N].
  - rewrite (fl_0 x E). setoid_replace (0 - x) with 0 using relation Qeq by lra.
    change (Qabs 0) with 0. nra.
  - pose proof (fl_error_ulp x N) as He.
    destruct (ilog2_spec x N) as [Hlo _].
    unfold ulpExponent in He.
    destruct (Z.max_spec (ilog2 x - 52) (-1074)) as [[_ E] | [_ E]];
      rewrite E in He.
    + assert (Hp : pow2 (-1074) / 2 == pow2 (-1075)).
      { replace (-1074)%Z with (-1075 + 1)%Z by lia. rewrite pow2_succ. field. }
      rewrite Hp in He. nra.
    + assert (Hp : pow2 (ilog2 x - 52) / 2 == pow2 (ilog2 x) * pow2 (-53)).
      { replace (ilog2 x - 52)%Z with (ilog2 x + -53 + 1)%Z by lia.
        rewrite pow2_succ, pow2_plus. field. }
      rewrite Hp in He. nra.
Qed.

(** The literals of [calculateSM2] and the values rounding leaves alone. *)
Lemma fl_literals :
  fl 0 == 0 /\ fl 1 == 1 /\
  1.3 <= fl 1.3 /\ fl 1.3 <= 1.3 + pow2 (-52) /\
  fl (fl 0.02) == fl 0.02 /\ fl (fl 0.08) == fl 0.08 /\
  fl (fl 0.1) == fl 0.1 /\ fl (fl 0.08 + fl 0.02) == fl 0.1 /\
  0 < fl 0.02 /\ 0 < fl 0.08 /\ 0.09 <= fl 0.1.
Proof.
  repeat (split; [apply Qle_bool_iff || apply Qeq_bool_iff || reflexivity;
                  vm_compute; reflexivity |]).
  apply Qle_bool_iff. vm_compute. reflexivity.
Qed.

End Binary64Facts.

(** ** The scheduler in double precision *)

Section SchedulerBinary64Facts.
Import JS Binary64 SpacedRepetition.
Local Open Scope Q_scope.

Variables (now : Z) (quality : Q) (reps : Z) (ef : Q) (iv : Z).

Let result := SpacedRepetitionBinary64.calculateSM2 now quality reps ef iv.
Let delta :=
  sub (fl 0.1) (mul (sub 5 quality) (add (fl 0.08) (mul (sub 5 quality) (fl 0.02)))).

Lemma binary64_easeFactor :
  easeFactor result = Math_max (fl 1.3) (Math_min 2.5 (add ef delta)).
Proof.
  unfold result, delta, SpacedRepetitionBinary64.calculateSM2.
  destruct (lt quality 3); [reflexivity |].
  destruct (reps + 1 =? 1)%Z; [reflexivity |].
  destruct (reps + 1 =? 2)%Z; reflexivity.
Qed.

Lemma binary64_easeFactor_range : fl 1.3 <= easeFactor result <= 2.5.
Proof.
  rewrite binary64_easeFactor. unfold Math_max, Math_min.
  pose proof fl_literals as (_ & _ & _ & H13 & _).
  assert (Hp : pow2 (-52) <= 1) by (apply Qle_bool_iff; vm_compute; reflexivity).
  split; [apply Q.le_max_l |].
  apply Q.max_lub; [lra | apply Q.le_min_l].
Qed.

Lemma binary64_correct :
  lt quality 3 = false ->
  repetitions result = (reps + 1)%Z /\
  interval result =
    (if reps + 1 =? 1 then 1
     else if reps + 1 =? 2 then 6
     else Math_round (mul (inject_Z iv) (easeFactor result)))%Z.
Proof.
  intros Hq. rewrite binary64_easeFactor.
  unfold result, delta, SpacedRepetitionBinary64.calculateSM2. rewrite Hq.
  destruct (reps + 1 =? 1)%Z; [split; reflexivity |].
  destruct (reps + 1 =? 2)%Z; split; reflexivity.
Qed.

(** The change of the ease factor is never positive for a rating of at most
    4 and never negative for a rating between 4 and 5. *)
Lemma binary64_delta_sign :
  (quality <= 4 -> delta <= 0) /\ (4 <= quality <= 5 -> 0 <= delta).
Proof.
  pose proof fl_literals
    as (F0 & F1 & _ & _ & F02 & F08 & F01 & Fsum & P02 & P08 & P01).
  unfold delta, sub, mul, add.
  set (t := fl (5 - quality)).
  set (m1 := fl (t * fl 0.02)).
  set (u := fl (fl 0.08 + m1)).
  set (m2 := fl (t * u)).
  split.
  - intros Hq.
    assert (Ht : 1 <= t) by (rewrite <- F1; apply fl_le; lra).
    assert (Hm1 : fl 0.02 <= m1) by (rewrite <- F02; apply fl_le; nra).
    assert (Hu : fl 0.1 <= u) by (rewrite <- Fsum; apply fl_le; lra).
    assert (Hm2 : fl 0.1 <= m2) by (rewrite <- F01; apply fl_le; nra).
    rewrite <- F0. apply fl_le. lra.
  - intros [Hlo Hhi].
    assert (Ht0 : 0 <= t) by (rewrite <- F0; apply fl_le; lra).
    assert (Ht1 : t <= 1) by (rewrite <- F1; apply fl_le; lra).
    assert (Hm0 : 0 <= m1) by (rewrite <- F0; apply fl_le; nra).
    assert (Hm1 : m1 <= fl 0.02) by (rewrite <- F02; apply fl_le; nra).
    assert (Hu0 : fl 0.08 <= u) by (rewrite <- F08; apply fl_le; lra).
    assert (Hu1 : u <= fl 0.1) by (rewrite <- Fsum; apply fl_le; lra).
    assert (Hm2 : m2 <= fl 0.1) by (rewrite <- F01; apply fl_le; nra).
    rewrite <- F0. apply fl_le. lra.
Qed.

(** The change of the ease factor grows with the rating, up to the rating 5. *)
Lemma binary64_delta_le (q1 q2 : Q) :
  q1 <= q2 -> q2 <= 5 ->
  sub (fl 0.1) (mul (sub 5 q1) (add (fl 0.08) (mul (sub 5 q1) (fl 0.02))))
  <= sub (fl 0.1) (mul (sub 5 q2) (add (fl 0.08) (mul (sub 5 q2) (fl 0.02)))).
Proof.
  intros H12 H2.
  pose proof fl_literals
    as (F0 & F1 & _ & _ & F02 & F08 & F01 & Fsum & P02 & P08 & P01).
  unfold sub, mul, add.
  set (t1 := fl (5 - q1)). set (t2 := fl (5 - q2)).
  assert (Ht2 : 0 <= t2) by (rewrite <- F0; apply fl_le; lra).
  assert (Ht : t2 <= t1) by (apply fl_le; lra).
  set (a1 := fl (t1 * fl 0.02)). set (a2 := fl (t2 * fl 0.02)).
  assert (Ha2 : 0 <= a2) by (rewrite <- F0; apply fl_le; nra).
  assert (Ha : a2 <= a1) by (apply fl_le; nra).
  set (u1 := fl (fl 0.08 + a1)). set (u2 := fl (fl 0.08 + a2)).
  assert (Hu2 : 0 <= u2) by (rewrite <- F0; apply fl_le; lra).
  assert (Hu : u2 <= u1) by (apply fl_le; lra).
  assert (Hm : fl (t2 * u2) <= fl (t1 * u1)) by (apply fl_le; nra).
  apply fl_le. lra.
Qed.

End SchedulerBinary64Facts.

Section SchedulerBinary64Claims.
Import JS Binary64 SpacedRepetition.
Local Open Scope Q_scope.

(** C3 (amended).  For every prior state and every quality of at least 3
    the scheduler returns [repetitions = prior.repetitions + 1]; the new
    interval is 1 when that count is 1, 6 when it is 2, and otherwise the
    double-precision product [prior.interval * newEase], rounded to the
    nearest integer, a tie going up.  That product is the double nearest to
    the real product, within the relative distance 2^-53 of it, and it is
    the one that is rounded: from an interval of 5 days and the double
    nearest to 2.3 the code gets 11.5 and 12 days, where the real product
    rounds to 11.  No lower bound is enforced on the rounded value: it is at
    least 1 whenever the prior interval is at least 1, and it is 0 when the
    prior interval is 0. *)
Theorem C3_correct_answer_interval (now : Z) (quality : Q) (reps : Z) (ef : Q) (iv : Z) :
  3 <= quality ->
  let result := SpacedRepetitionBinary64.calculateSM2 now quality reps ef iv in
  let product := inject_Z iv * easeFactor result in
  repetitions result = (reps + 1)%Z /\
  (repetitions result = 1%Z -> interval result = 1%Z) /\
  (repetitions result = 2%Z -> interval result = 6%Z) /\
  (repetitions result <> 1%Z -> repetitions result <> 2%Z ->
     interval result = Math_round (fl product) /\
     inject_Z (interval result) - 0.5 <= fl product < inject_Z (interval result) + 0.5 /\
     Qabs (fl product - product) <= Qabs product * pow2 (-53) /\
     ((1 <= iv)%Z -> (1 <= interval result)%Z) /\
     (iv = 0%Z -> interval result = 0%Z)) /\
  (let sample := SpacedRepetitionBinary64.calculateSM2 now 4 2 (fl 2.3) 5 in
   easeFactor sample == fl 2.3 /\
   fl (5 * easeFactor sample) == 11.5 /\
   interval sample = 12%Z /\
   Math_round (5 * easeFactor sample) = 11%Z).
Proof.
  intros Hq result product.
  destruct (binary64_correct now quality reps ef iv) as [Hr Hi];
    [now apply lt_false |].
  pose proof (binary64_easeFactor_range now quality reps ef iv) as [Hlo Hhi].
  pose proof fl_literals as (F0 & F1 & H13 & _).
  fold result in Hr, Hi, Hlo, Hhi. rewrite Hr.
  split; [reflexivity |]. split; [| split; [| split]].
  - intros H1. rewrite Hi. apply Z.eqb_eq in H1. now rewrite H1.
  - intros H2. rewrite Hi. destruct (reps + 1 =? 1)%Z eqn:E1; [lia |].
    apply Z.eqb_eq in H2. now rewrite H2.
  - intros N1 N2. apply Z.eqb_neq in N1, N2. rewrite N1, N2 in Hi.
    unfold mul in Hi. fold product in Hi.
    pose proof (Math_round_spec (fl product)) as Hround. rewrite <- Hi in Hround.
    split; [exact Hi |]. split; [exact Hround |]. split; [| split].
    + destruct (Z.eq_dec iv 0%Z) as [-> | Hnz].
      * assert (E : product == 0) by (unfold product; change (inject_Z 0) with 0; lra).
        rewrite (fl_0 product E), E. change (Qabs 0) with 0.
        setoid_replace (0 - 0) with 0 using relation Qeq by lra. change (Qabs 0) with 0. lra.
      * apply fl_error. unfold product. rewrite Qabs_Qmult.
        assert (Hiv : 1 <= Qabs (inject_Z iv)).
        { apply Qabs_case; intros Hs.
          - assert (H : inject_Z 1 <= inject_Z iv); [| exact H].
            rewrite <- Zle_Qle. change (inject_Z 0) with 0 in Hs.
            assert (H0 : inject_Z 0 <= inject_Z iv) by exact Hs.
            rewrite <- Zle_Qle in H0. lia.
          - assert (H : inject_Z 1 <= inject_Z (- iv));
              [| rewrite inject_Z_opp in H; exact H].
            rewrite <- Zle_Qle.
            assert (H0 : inject_Z iv <= inject_Z 0) by exact Hs.
            rewrite <- Zle_Qle in H0. lia. }
        assert (He : Qabs (easeFactor result) == easeFactor result)
          by (apply Qabs_pos; lra).
        rewrite He.
        assert (Hp : pow2 (-1022) <= 1)
          by (apply (pow2_le (-1022) 0); lia).
        nra.
    + intros Hiv. rewrite Zle_Qle in Hiv. change (inject_Z 1) with 1 in Hiv.
      assert (Hp : 1 <= product) by (unfold product; nra).
      assert (Hf : 1 <= fl product) by (rewrite <- F1; now apply fl_le).
      assert (H0 : inject_Z 0 < inject_Z (interval result)).
      { change (inject_Z 0) with 0. lra. }
      rewrite <- Zlt_Qlt in H0. lia.
    + intros ->. rewrite Hi.
      assert (E : product == 0) by (unfold product; change (inject_Z 0) with 0; lra).
      rewrite (fl_0 product E). reflexivity.
  - cbv zeta. split; [vm_compute; reflexivity |].
    split; [vm_compute; reflexivity |].
    split; vm_compute; reflexivity.
Qed.

Lemma C3_correct_answer_interval_witness :
  let result := SpacedRepetitionBinary64.calculateSM2 0 5 2 2.5 6 in
  3 <= 5 /\ repetitions result = 3%Z /\ interval result = 15%Z /\
  (1 <= interval result)%Z.
Proof.
  assert (Hq : 3 <= 5) by discriminate.
  destruct (C3_correct_answer_interval 0 5 2 2.5 6 Hq) as (Hr & _ & _ & Hi & _).
  cbv zeta. split; [exact Hq |]. split; [exact Hr |].
  destruct Hi as (Hround & _ & _ & Hpos & _);
    [vm_compute; discriminate | vm_compute; discriminate |].
  split; [rewrite Hround; vm_compute; reflexivity |].
  apply Hpos. vm_compute; discriminate.
Defined.

End SchedulerBinary64Claims.


(** ** The review transaction *)

Ltac run_M :=
  unfold mbind, Prisma.M_bind, mret, Prisma.M_ret, Prisma.call, Prisma.get,
    Prisma.put, Prisma.throw; simpl.

Section TransactionFacts.
Import JS Schema Prisma SpacedRepetition Reviews ReviewEffects.

Lemma updateStudyStreak_run (userId today : Z) (faults : Faults) (db : DB) :
  faults StudyStreakFindUnique = false ->
  faults (streakWriteOp userId db) = false ->
  updateStudyStreak userId today faults db =
    (inr tt,
     set_studyStreaks
       (insert userId (streakAfter userId today (studyStreaks db !! userId))) db).
Proof.
  unfold updateStudyStreak, studyStreak_findUnique, studyStreak_create,
    studyStreak_update, streakWriteOp, streakAfter.
  intros Hfind Hwrite. run_M. rewrite Hfind.
  destruct (studyStreaks db !! userId) as [row |] eqn:Hrow; run_M;
    rewrite Hwrite, Hrow; reflexivity.
Qed.

Lemma updateStudyStreak_fault (userId today : Z) (faults : Faults) (db : DB) :
  faults StudyStreakFindUnique = true \/ faults (streakWriteOp userId db) = true ->
  exists e, updateStudyStreak userId today faults db = (inl e, db).
Proof.
  unfold updateStudyStreak, studyStreak_findUnique, studyStreak_create,
    studyStreak_update, streakWriteOp.
  intros Hfault. run_M.
  destruct (faults StudyStreakFindUnique) eqn:Hfind; [eauto |].
  destruct Hfault as [Hfault | Hfault]; [discriminate |].
  destruct (studyStreaks db !! userId) as [row |] eqn:Hrow; run_M;
    rewrite Hfault; eauto.
Qed.

Lemma reviewWrites_commit (now userId : Z) (b : Body) (row : ReviewSchedule)
    (faults : Faults) (db : DB) :
  reviewSchedules db !! flashcardId b = Some row ->
  existsb faults (transactionOps userId db) = false ->
  transaction
    (reviewWrites now userId b row
       (calculateSM2 now (quality b) (rs_repetitions row) (rs_easeFactor row)
                     (rs_interval row))) faults db =
    (inr (scheduleAfter now (quality b) row), committed now userId b row db).
Proof.
  intros Hrow Hops. simpl in Hops.
  repeat (apply orb_false_elim in Hops; destruct Hops as [? Hops]).
  unfold transaction, reviewWrites, reviewSchedule_update,
    reviewHistory_create, updateDailyStats, dailyStat_upsert.
  run_M.
  rewrite H; simpl. rewrite Hrow; simpl. rewrite H0; simpl. rewrite H1; simpl.
  destruct (dailyStats db !! (userId, setHours0 now)) as [stat |] eqn:Hstat;
    simpl; rewrite updateStudyStreak_run by assumption; simpl;
    unfold committed; rewrite Hstat; reflexivity.
Qed.

(** A transaction that throws leaves the database as it found it. *)
Lemma transaction_rollback {A} (body : M A) (faults : Faults) (db : DB) (e : Error) :
  fst (transaction body faults db) = inl e ->
  transaction body faults db = (inl e, db).
Proof.
  unfold transaction. destruct (body faults db) as [[e' | a] db']; simpl;
    intros H; congruence.
Qed.

Lemma reviewWrites_fault (now userId : Z) (b : Body) (row : ReviewSchedule)
    (newSchedule : SM2Result) (faults : Faults) (db : DB) :
  existsb faults (transactionOps userId db) = true ->
  exists e, transaction (reviewWrites now userId b row newSchedule) faults db
            = (inl e, db).
Proof.
  intros Hops.
  enough (exists e, fst (transaction (reviewWrites now userId b row newSchedule)
                            faults db) = inl e) as [e He]
    by (exists e; now apply transaction_rollback).
  unfold transaction, reviewWrites, reviewSchedule_update,
    reviewHistory_create, updateDailyStats, dailyStat_upsert.
  run_M.
  destruct (faults ReviewScheduleUpdate) eqn:F1; simpl; [eauto |].
  destruct (reviewSchedules db !! flashcardId b) as [found |]; simpl; [| eauto].
  destruct (faults ReviewHistoryCreate) eqn:F2; simpl; [eauto |].
  destruct (faults DailyStatUpsert) eqn:F3; simpl; [eauto |].
  simpl in Hops. rewrite F1, F2, F3 in Hops. simpl in Hops.
  rewrite orb_false_r in Hops. apply orb_true_iff in Hops.
  destruct (dailyStats db !! (userId, setHours0 now)) as [stat |]; simpl;
    match goal with
    | |- context [updateStudyStreak ?u ?t ?f ?d] =>
        destruct (updateStudyStreak_fault u t f d Hops) as [e He];
        rewrite He; simpl; eauto
    end.
Qed.

(** The handler, by cases. *)
Lemma POST_unauthorized (now : Z) (request : Request) (faults : Faults) (db : DB) :
  currentUser request = None ->
  POST now request faults db = (Unauthorized401, db).
Proof. unfold POST. intros ->. reflexivity. Qed.

Lemma POST_invalid_quality (now : Z) (request : Request) (faults : Faults)
    (db : DB) (userId : Z) :
  currentUser request = Some userId ->
  lt (quality (body request)) 0 || gt (quality (body request)) 5 = true ->
  POST now request faults db = (BadRequest400, db).
Proof. unfold POST. intros -> ->. reflexivity. Qed.

Lemma POST_valid_quality (now : Z) (request : Request) (faults : Faults)
    (db : DB) (userId : Z) :
  currentUser request = Some userId ->
  lt (quality (body request)) 0 || gt (quality (body request)) 5 = false ->
  POST now request faults db =
    match submitReview now userId (body request) faults db with
    | (inr response, db') => (response, db')
    | (inl _, db') => (InternalServerError500, db')
    end.
Proof. unfold POST. intros -> ->. reflexivity. Qed.

Lemma submitReview_find_fault (now userId : Z) (b : Body) (faults : Faults) (db : DB) :
  faults ReviewScheduleFindUnique = true ->
  submitReview now userId b faults db
    = (inl (StorageFailure ReviewScheduleFindUnique), db).
Proof.
  unfold submitReview, reviewSchedule_findUnique. intros Hf. run_M.
  rewrite Hf. reflexivity.
Qed.

Lemma submitReview_not_found (now userId : Z) (b : Body) (faults : Faults) (db : DB) :
  faults ReviewScheduleFindUnique = false ->
  reviewSchedules db !! flashcardId b = None ->
  submitReview now userId b faults db = (inr NotFound404, db).
Proof.
  unfold submitReview, reviewSchedule_findUnique. intros Hf Hrow. run_M.
  rewrite Hf, Hrow. reflexivity.
Qed.

Lemma submitReview_commit (now userId : Z) (b : Body) (faults : Faults) (db : DB)
    (row : ReviewSchedule) :
  faults ReviewScheduleFindUnique = false ->
  reviewSchedules db !! flashcardId b = Some row ->
  existsb faults (transactionOps userId db) = false ->
  submitReview now userId b faults db =
    (inr (Ok200 (scheduleAfter now (quality b) row)),
     committed now userId b row db).
Proof.
  intros Hf Hrow Hops.
  unfold submitReview, reviewSchedule_findUnique. run_M.
  rewrite Hf, Hrow; simpl.
  rewrite reviewWrites_commit by assumption. reflexivity.
Qed.

Lemma submitReview_rollback (now userId : Z) (b : Body) (faults : Faults) (db : DB)
    (row : ReviewSchedule) :
  faults ReviewScheduleFindUnique = false ->
  reviewSchedules db !! flashcardId b = Some row ->
  existsb faults (transactionOps userId db) = true ->
  exists e, submitReview now userId b faults db = (inl e, db).
Proof.
  intros Hf Hrow Hops.
  unfold submitReview, reviewSchedule_findUnique. run_M.
  rewrite Hf, Hrow; simpl.
  destruct (reviewWrites_fault now userId b row
              (calculateSM2 now (quality b) (rs_repetitions row)
                 (rs_easeFactor row) (rs_interval row)) faults db Hops)
    as [e He].
  rewrite He. eauto.
Qed.

Lemma POST_outcome (now : Z) (request : Request) (faults : Faults) (db : DB) :
  Outcome now request faults db (POST now request faults db).
Proof.
  destruct (currentUser request) as [userId |] eqn:Huser.
  2: { rewrite POST_unauthorized by assumption. now constructor. }
  destruct (lt (quality (body request)) 0 || gt (quality (body request)) 5)
    eqn:Hq.
  { rewrite (POST_invalid_quality _ _ _ _ userId) by assumption.
    now apply (OutBadRequest _ _ _ _ userId). }
  rewrite (POST_valid_quality _ _ _ _ userId) by assumption.
  destruct (faults ReviewScheduleFindUnique) eqn:Hf.
  { rewrite submitReview_find_fault by assumption.
    apply (OutError _ _ _ _ userId); auto. }
  destruct (reviewSchedules db !! flashcardId (body request)) as [row |] eqn:Hrow.
  2: { rewrite submitReview_not_found by assumption.
       now apply (OutNotFound _ _ _ _ userId). }
  destruct (existsb faults (transactionOps userId db)) eqn:Hops.
  - destruct (submitReview_rollback now userId (body request) faults db row
                Hf Hrow Hops) as [e ->].
    apply (OutError _ _ _ _ userId); auto.
  - rewrite (submitReview_commit now userId (body request) faults db row)
      by assumption.
    now apply (OutCommitted _ _ _ _ userId row).
Qed.

Lemma newCurrentStreak_same_day (row : StudyStreak) (today : Z) :
  ss_lastStudyDate row = Some today ->
  newCurrentStreak row today (addDays today (-1)) = ss_currentStreak row.
Proof.
  intros Hlast. unfold newCurrentStreak, addDays, setHours0. rewrite Hlast. simpl.
  pose proof (Z.mod_pos_bound today msPerDay eq_refl) as Hmod.
  destruct (Z.eqb_spec (today - today mod msPerDay) (today + -1 * msPerDay));
    [lia |].
  destruct (Z.ltb_spec (today - today mod msPerDay) (today + -1 * msPerDay));
    [lia | reflexivity].
Qed.

Lemma streakAfter_idempotent (userId today : Z) (found : option StudyStreak) :
  streakAfter userId today (Some (streakAfter userId today found))
  = streakAfter userId today found.
Proof.
  unfold streakAfter at 1.
  rewrite newCurrentStreak_same_day by (destruct found; reflexivity).
  destruct found as [row |]; simpl; f_equal; lia.
Qed.

End TransactionFacts.

(** Case analysis on the way a run of the handler ends. *)
Ltac outcome_cases now request faults db :=
  let Hout := fresh "Hout" in
  pose proof (POST_outcome now request faults db) as Hout;
  inversion Hout as [Hu Heq | u Hu Hq Heq | u Hu Hq Hf Hrow Heq
                     | u Hu Hq Herr Heq | u row Hu Hq Hf Hrow Hno Heq].

Section TransactionClaims.
Import JS Schema Prisma SpacedRepetition Reviews ReviewEffects.

(** C4.  The four writes of a review (the overwrite of the schedule, the
    appended history entry, the upsert of the daily statistics and the upsert
    of the study streak) are applied as one unit.  When any call made inside
    the transaction fails, the request fails and the database, hence each of
    the four entities, is left exactly as before; and whatever happens, the
    database after the request is either the one before it or the one in
    which all four writes are applied. *)
Theorem C4_review_writes_atomic
    (now : Z) (request : Request) (faults : Faults) (db : DB) :
  let outcome := POST now request faults db in
  let b := body request in
  let today := setHours0 now in
  (forall userId op,
     currentUser request = Some userId ->
     In op (transactionOps userId db) -> faults op = true ->
     snd outcome = db /\ forall s, fst outcome <> Ok200 s) /\
  (snd outcome = db \/
   exists userId row,
     currentUser request = Some userId /\
     reviewSchedules db !! flashcardId b = Some row /\
     fst outcome = Ok200 (scheduleAfter now (quality b) row) /\
     flashcards (snd outcome) = flashcards db /\
     reviewSchedules (snd outcome)
       = <[flashcardId b := scheduleAfter now (quality b) row]> (reviewSchedules db) /\
     reviewHistory (snd outcome)
       = reviewHistory db ++ [historyEntry now userId b row] /\
     dailyStats (snd outcome)
       = <[(userId, today) :=
             dailyStatAfter userId today b (dailyStats db !! (userId, today))]>
           (dailyStats db) /\
     studyStreaks (snd outcome)
       = <[userId := streakAfter userId today (studyStreaks db !! userId)]>
           (studyStreaks db)).
Proof.
  cbv zeta. split.
  - intros userId op Huser Hin Hfault.
    assert (Hops : existsb faults (transactionOps userId db) = true).
    { apply existsb_exists. exists op. split; assumption. }
    outcome_cases now request faults db; simpl;
      try (split; [reflexivity | discriminate]).
    rewrite Huser in Hu. injection Hu as <-. congruence.
  - outcome_cases now request faults db; simpl; try (left; reflexivity).
    right. exists u, row. repeat split; assumption.
Qed.

Lemma C4_review_writes_atomic_witness :
  In DailyStatUpsert (transactionOps 1 Sample.db) /\
  snd (POST 1000 (Sample.review 1 4) Sample.dailyStatFails Sample.db) = Sample.db /\
  reviewHistory (snd (POST 1000 (Sample.review 1 4) noFaults Sample.db))
    = [historyEntry 1000 1 (body (Sample.review 1 4))
         (mkReviewSchedule 2.5 6 2 500 None 1 10)].
Proof.
  assert (Hin : In DailyStatUpsert (transactionOps 1 Sample.db))
    by (simpl; auto).
  split; [exact Hin |]. split.
  - apply (C4_review_writes_atomic 1000 (Sample.review 1 4)
             Sample.dailyStatFails Sample.db) with (userId := 1)
             (op := DailyStatUpsert); [reflexivity | exact Hin | reflexivity].
  - destruct (C4_review_writes_atomic 1000 (Sample.review 1 4) noFaults Sample.db)
      as [_ [Hsame | (userId & row & Hu & Hrow & _ & _ & _ & Hh & _)]].
    + vm_compute in Hsame. discriminate Hsame.
    + injection Hu as <-. vm_compute in Hrow. injection Hrow as <-. exact Hh.
Defined.

(** A review of a card that has no schedule is answered with 404 and changes
    nothing (the handler has validated the rating before it looks the
    schedule up). *)
Lemma POST_missing_schedule
    (now : Z) (request : Request) (faults : Faults) (db : DB) (userId : Z) :
  currentUser request = Some userId ->
  lt (quality (body request)) 0 || gt (quality (body request)) 5 = false ->
  faults ReviewScheduleFindUnique = false ->
  reviewSchedules db !! flashcardId (body request) = None ->
  POST now request faults db = (NotFound404, db).
Proof.
  intros Hu Hq Hf Hrow. rewrite (POST_valid_quality _ _ _ _ userId) by assumption.
  rewrite submitReview_not_found by assumption. reflexivity.
Qed.

(** The schedule is looked up by [flashcardId] alone: whoever the session's
    user is, the review of an existing schedule is committed. *)
Lemma POST_any_user
    (now : Z) (userId : Z) (b : Body) (db : DB) (row : ReviewSchedule) :
  lt (quality b) 0 || gt (quality b) 5 = false ->
  reviewSchedules db !! flashcardId b = Some row ->
  POST now (mkRequest (Some userId) b) noFaults db =
    (Ok200 (scheduleAfter now (quality b) row), committed now userId b row db).
Proof.
  intros Hq Hrow.
  rewrite (POST_valid_quality now (mkRequest (Some userId) b) noFaults db userId
             eq_refl Hq).
  simpl. rewrite (submitReview_commit now userId b noFaults db row);
    [reflexivity | reflexivity | assumption | reflexivity].
Qed.

(** C5 (the code at the failing input).  Card 10 and its schedule belong to
    user 1.  A review of card 10 submitted by user 2 is not answered with 404:
    it is accepted, it overwrites user 1's schedule, and it records history,
    daily statistics and a streak for user 2. *)
Lemma C5_review_of_foreign_card_accepted :
  let outcome := POST 1000 (Sample.review 2 4) noFaults Sample.db in
  let before := mkReviewSchedule 2.5 6 2 500 None 1 10 in
  let after :=
    mkReviewSchedule 2.5 15 3 (1000 + 15 * msPerDay) (Some 1000) 1 10 in
  reviewSchedules Sample.db !! 10 = Some before /\
  fst outcome <> NotFound404 /\
  fst outcome = Ok200 after /\
  reviewSchedules (snd outcome) !! 10 = Some after /\
  map rh_userId (reviewHistory (snd outcome)) = [2] /\
  is_Some (studyStreaks (snd outcome) !! 2).
Proof.
  cbv zeta.
  assert (Hrow : reviewSchedules Sample.db !! 10
                 = Some (mkReviewSchedule 2.5 6 2 500 None 1 10))
    by (vm_compute; reflexivity).
  unfold Sample.review.
  rewrite (POST_any_user 1000 2 (mkBody 10 4 (Some 8%Q)) Sample.db _ eq_refl Hrow).
  split; [exact Hrow |]. split; [discriminate |].
  split; [vm_compute; reflexivity |].
  split; [vm_compute; reflexivity |].
  split; [vm_compute; reflexivity |].
  vm_compute. eauto.
Qed.

(** A rating inside [0,5] passes the validation. *)
Lemma POST_quality_in_range
    (now : Z) (request : Request) (faults : Faults) (db : DB) :
  (0 <= quality (body request) <= 5)%Q ->
  fst (POST now request faults db) <> BadRequest400.
Proof.
  intros [Hlo Hhi].
  assert (Hvalid : lt (quality (body request)) 0 || gt (quality (body request)) 5
                   = false).
  { apply orb_false_iff. unfold gt. split; now apply lt_false. }
  outcome_cases now request faults db; simpl; try discriminate.
  congruence.
Qed.

(** C6.  For a signed-in user, a rating below 0 or above 5 is answered with
    400 and the database is left as it was; a rating inside [0,5] is never
    answered with 400. *)
Theorem C6_quality_outside_range_rejected
    (now : Z) (request : Request) (faults : Faults) (db : DB) (userId : Z) :
  currentUser request = Some userId ->
  let q := quality (body request) in
  ((q < 0 \/ 5 < q)%Q -> POST now request faults db = (BadRequest400, db)) /\
  ((0 <= q <= 5)%Q -> fst (POST now request faults db) <> BadRequest400).
Proof.
  intros Huser q. split.
  - intros Hq. apply (POST_invalid_quality now request faults db userId Huser).
    fold q. unfold gt. apply orb_true_iff.
    destruct Hq as [Hq | Hq]; [left | right]; now apply lt_true.
  - apply POST_quality_in_range.
Qed.

Lemma C6_quality_outside_range_rejected_witness :
  POST 1000 (Sample.review 1 7) noFaults Sample.db = (BadRequest400, Sample.db) /\
  fst (POST 1000 (Sample.review 1 5) noFaults Sample.db) <> BadRequest400.
Proof.
  destruct (C6_quality_outside_range_rejected 1000 (Sample.review 1 7)
              noFaults Sample.db 1 eq_refl) as [Hout _].
  destruct (C6_quality_outside_range_rejected 1000 (Sample.review 1 5)
              noFaults Sample.db 1 eq_refl) as [_ Hin].
  split.
  - apply Hout. right. reflexivity.
  - apply Hin. split; discriminate.
Defined.

(** C8.  The streak update is idempotent within a day.  Whatever streak row
    (or none) it finds, a first application for [today] succeeds and stores a
    row dated [today]; a second application for the same [today], run on the
    database the first one produced, succeeds and changes nothing, so
    [currentStreak] and [longestStreak] keep the values of the first
    application. *)
Theorem C8_streak_update_idempotent (userId today : Z) (db : DB) :
  exists db1 row1,
    updateStudyStreak userId today noFaults db = (inr tt, db1) /\
    studyStreaks db1 !! userId = Some row1 /\
    ss_lastStudyDate row1 = Some today /\
    updateStudyStreak userId today noFaults db1 = (inr tt, db1) /\
    newCurrentStreak row1 today (addDays today (-1)) = ss_currentStreak row1 /\
    Z.max (ss_longestStreak row1) (ss_currentStreak row1) = ss_longestStreak row1.
Proof.
  set (row1 := streakAfter userId today (studyStreaks db !! userId)).
  exists (set_studyStreaks (insert userId row1) db), row1.
  assert (Hlast : ss_lastStudyDate row1 = Some today).
  { unfold row1, streakAfter. destruct (studyStreaks db !! userId); reflexivity. }
  assert (Hlook : studyStreaks (set_studyStreaks (insert userId row1) db) !! userId
                  = Some row1) by (simpl; apply lookup_insert_eq).
  split; [apply updateStudyStreak_run; reflexivity |].
  split; [exact Hlook |]. split; [exact Hlast |]. split.
  - rewrite updateStudyStreak_run by reflexivity.
    rewrite Hlook. unfold row1. rewrite streakAfter_idempotent.
    f_equal. unfold set_studyStreaks. simpl. f_equal. apply insert_insert_eq.
  - split; [now apply newCurrentStreak_same_day |].
    unfold row1, streakAfter. destruct (studyStreaks db !! userId); simpl; lia.
Qed.

(** C9.  The rating 2.5 lies strictly between 0 and 5 and is not an integer,
    yet no request carrying it is answered with 400: the validation compares
    the rating with 0 and with 5 only.  The rating reaches [calculateSM2],
    where it moves the unclamped ease factor by the fractional amount -0.225,
    and the history entry of the review is flagged incorrect because 2.5 is
    below 3.  What the [INTEGER] column [quality] of that entry holds for
    such a rating is not stated. *)
Theorem C9_fractional_quality_accepted :
  let q := 2.5%Q in
  (0 < q < 5)%Q /\
  (forall n : Z, ~ (q == inject_Z n)%Q) /\
  (forall now userId card seconds faults db,
     fst (POST now (mkRequest (Some userId) (mkBody card q seconds)) faults db)
       <> BadRequest400) /\
  (forall now reps ef iv,
     easeFactor (calculateSM2 now q reps ef iv)
       = Math_max 1.3 (Math_min 2.5 (ef + (0.1 - (5 - q) * (0.08 + (5 - q) * 0.02)))) /\
     (0.1 - (5 - q) * (0.08 + (5 - q) * 0.02) == - 0.225)%Q /\
     repetitions (calculateSM2 now q reps ef iv) = 0) /\
  (forall now userId card seconds db row,
     reviewSchedules db !! card = Some row ->
     exists db',
       POST now (mkRequest (Some userId) (mkBody card q seconds)) noFaults db
         = (Ok200 (scheduleAfter now q row), db') /\
       exists entry,
         reviewHistory db' = reviewHistory db ++ [entry] /\
         rh_wasCorrect entry = ge q 3 /\
         rh_wasCorrect entry = false /\
         rh_easeFactorAfter entry
           = easeFactor (calculateSM2 now q (rs_repetitions row)
                           (rs_easeFactor row) (rs_interval row))).
Proof.
  cbv zeta. split; [split; reflexivity |]. split; [| split; [| split]].
  - intros n H. unfold Qeq in H. simpl in H. lia.
  - intros now userId card seconds faults db.
    apply POST_quality_in_range. split; discriminate.
  - intros now reps ef iv. split; [apply calculateSM2_easeFactor |].
    split; [reflexivity |].
    apply (calculateSM2_incorrect now 2.5 reps ef iv). reflexivity.
  - intros now userId card seconds db row Hrow.
    eexists. split.
    + apply (POST_any_user now userId (mkBody card 2.5 seconds) db row eq_refl Hrow).
    + eexists. split; [reflexivity |]. repeat split.
Qed.

Lemma C9_fractional_quality_accepted_witness :
  exists db' entry,
    POST 1000 (mkRequest (Some 1) (mkBody 10 2.5 None)) noFaults Sample.db
      = (Ok200 (scheduleAfter 1000 2.5 (mkReviewSchedule 2.5 6 2 500 None 1 10)), db') /\
    reviewHistory db' = [entry] /\ rh_wasCorrect entry = false.
Proof.
  destruct C9_fractional_quality_accepted as (_ & _ & _ & _ & Hrun).
  destruct (Hrun 1000 1 10 None Sample.db (mkReviewSchedule 2.5 6 2 500 None 1 10))
    as (db' & Hpost & entry & Hhist & _ & Hwrong & _).
  - vm_compute. reflexivity.
  - exists db', entry. split; [exact Hpost |]. split; [exact Hhist | exact Hwrong].
Defined.

(** C10.  The review request never changes [cardsLearned].  A row of the
    daily statistics that existed before the request has the same
    [cardsLearned] after it, and a row that exists only after it has
    [cardsLearned = 0]; when the review is committed, the row of the user
    and the day is created with 1 reviewed card, 1 answer and
    [cardsLearned = 0], or has [cardsReviewed], [correctAnswers],
    [totalAnswers] and [studyTimeMinutes] incremented and [cardsLearned]
    kept. *)
Theorem C10_cardsLearned_unchanged
    (now : Z) (request : Request) (faults : Faults) (db : DB) :
  let outcome := POST now request faults db in
  let b := body request in
  let today := setHours0 now in
  let minutes := Math_ceil (orZero (responseTimeSeconds b) / 60) in
  (forall key,
     match dailyStats db !! key with
     | Some row =>
         exists row', dailyStats (snd outcome) !! key = Some row' /\
                      ds_cardsLearned row' = ds_cardsLearned row
     | None =>
         forall row', dailyStats (snd outcome) !! key = Some row' ->
                      ds_cardsLearned row' = 0
     end) /\
  (forall userId s,
     currentUser request = Some userId -> fst outcome = Ok200 s ->
     dailyStats (snd outcome) !! (userId, today) =
       Some match dailyStats db !! (userId, today) with
            | None =>
                {| ds_userId := userId; ds_date := today;
                   ds_cardsReviewed := 1;
                   ds_cardsLearned := 0;
                   ds_correctAnswers := correctIncrement (quality b);
                   ds_totalAnswers := 1;
                   ds_studyTimeMinutes := minutes |}
            | Some row =>
                {| ds_userId := ds_userId row; ds_date := ds_date row;
                   ds_cardsReviewed := ds_cardsReviewed row + 1;
                   ds_cardsLearned := ds_cardsLearned row;
                   ds_correctAnswers := ds_correctAnswers row + correctIncrement (quality b);
                   ds_totalAnswers := ds_totalAnswers row + 1;
                   ds_studyTimeMinutes := ds_studyTimeMinutes row + minutes |}
            end).
Proof.
  cbv zeta. split.
  - intros key.
    outcome_cases now request faults db; simpl;
      try (destruct (dailyStats db !! key) as [stat |];
           [exists stat; split; reflexivity | intros row' Hrow'; discriminate Hrow']).
    destruct (decide ((u, setHours0 now) = key)) as [<- | Hne].
    + rewrite lookup_insert_eq.
      destruct (dailyStats db !! (u, setHours0 now)) as [stat |]; simpl.
      * eexists. split; reflexivity.
      * intros row' [= <-]. reflexivity.
    + rewrite lookup_insert_ne by assumption.
      destruct (dailyStats db !! key) as [stat |];
        [exists stat; split; reflexivity | intros row' Hrow'; discriminate Hrow'].
  - intros userId s Huser Hok.
    outcome_cases now request faults db;
      rewrite <- Heq in Hok; simpl in Hok; try discriminate Hok.
    rewrite Huser in Hu. injection Hu as <-. simpl.
    rewrite lookup_insert_eq. unfold dailyStatAfter.
    destruct (dailyStats db !! (userId, setHours0 now)); reflexivity.
Qed.

Lemma C10_cardsLearned_unchanged_witness :
  exists row,
    dailyStats (snd (POST 1000 (Sample.review 1 4) noFaults Sample.db)) !! (1, 0)
      = Some row /\
    ds_cardsLearned row = 0 /\ ds_cardsReviewed row = 1 /\
    ds_studyTimeMinutes row = 1.
Proof.
  destruct (C10_cardsLearned_unchanged 1000 (Sample.review 1 4) noFaults Sample.db)
    as [_ Hrow].
  eexists. split.
  - apply (Hrow 1 (mkReviewSchedule 2.5 15 3 (1000 + 15 * msPerDay) (Some 1000) 1 10)).
    + reflexivity.
    + vm_compute. reflexivity.
  - vm_compute. repeat split.
Defined.

End TransactionClaims.

(** ** The due-card query *)

Section DueCardFacts.
Import JS Schema Prisma DueCards.

#[local] Instance byNextReviewDate_transitive : Transitive byNextReviewDate.
Proof. unfold byNextReviewDate. intros a b c Hab Hbc. lia. Qed.

#[local] Instance byNextReviewDate_total : Total byNextReviewDate.
Proof. unfold byNextReviewDate. intros a b. lia. Qed.

Lemma insertByDate_Permutation (row : Flashcard * ReviewSchedule) rows :
  insertByDate row rows ≡ₚ row :: rows.
Proof.
  induction rows as [| row' rest IH]; simpl; [reflexivity |].
  destruct (decide (byNextReviewDate row row')); [reflexivity |].
  rewrite IH. apply Permutation_swap.
Qed.

Lemma sortByDate_Permutation rows : sortByDate rows ≡ₚ rows.
Proof.
  induction rows as [| row rest IH]; simpl; [reflexivity |].
  rewrite insertByDate_Permutation. now rewrite IH.
Qed.

Lemma insertByDate_Sorted (row : Flashcard * ReviewSchedule) rows :
  Sorted byNextReviewDate rows -> Sorted byNextReviewDate (insertByDate row rows).
Proof.
  induction rows as [| row' rest IH]; simpl; intros Hs.
  - repeat constructor.
  - destruct (decide (byNextReviewDate row row')) as [Hle | Hgt].
    + constructor; [assumption | now constructor].
    + inversion Hs as [| ? ? Hrest Hhd]; subst.
      constructor; [now apply IH |].
      assert (Hle : byNextReviewDate row' row)
        by (destruct (total byNextReviewDate row row'); [contradiction | assumption]).
      destruct rest as [| row'' rest']; simpl; [now constructor |].
      destruct (decide (byNextReviewDate row row'')); constructor;
        [assumption | now inversion Hhd].
Qed.

Lemma sortByDate_StronglySorted rows :
  StronglySorted byNextReviewDate (sortByDate rows).
Proof.
  apply Sorted_StronglySorted; [apply _ |].
  induction rows as [| row rest IH]; simpl; [constructor |].
  now apply insertByDate_Sorted.
Qed.

Lemma dueRow_Some (db : DB) (userId now : Z) (card card' : Flashcard)
    (schedule : ReviewSchedule) :
  dueRow db userId now card = Some (card', schedule) <->
  card' = card /\ fc_userId card = userId /\
  reviewSchedules db !! fc_id card = Some schedule /\
  rs_nextReviewDate schedule <= now.
Proof.
  unfold dueRow.
  destruct (Z.eqb_spec (fc_userId card) userId) as [Hu | Hu].
  2: { split; [discriminate | intros (_ & H & _); contradiction]. }
  destruct (reviewSchedules db !! fc_id card) as [found |].
  2: { split; [discriminate | intros (_ & _ & H & _); discriminate]. }
  destruct (Z.leb_spec (rs_nextReviewDate found) now) as [Hd | Hd].
  - split.
    + intros [= <- <-]. auto.
    + intros (-> & _ & [= ->] & _). reflexivity.
  - split; [discriminate |]. intros (_ & _ & [= ->] & H). lia.
Qed.

Lemma flashcard_findMany_due_run (userId now : Z) (faults : Faults) (db : DB) :
  faults FlashcardFindMany = false ->
  flashcard_findMany_due userId now faults db =
    (inr (sortByDate (omap (dueRow db userId now) (flashcards db))), db).
Proof.
  intros Hf. unfold flashcard_findMany_due. run_M. rewrite Hf. reflexivity.
Qed.

(** C7 (as stated, refuted).  Cards 11 and 12 of user 1 fall due at the same
    instant.  With card 12 stored before card 11 the query lists card 12
    first, so the rows are not in the order "date, then card identifier";
    with the two cards stored the other way round the same query lists card
    11 first: the identifier plays no part in the order. *)
Lemma C7_tie_order_counterexample :
  (fmap (map (fun r => fc_id (fst r))) (fst (dueCards 1000 1 noFaults Sample.db))
     = Some [10; 12; 11]) /\
  (fmap (map (fun r => rs_nextReviewDate (snd r)))
        (fst (dueCards 1000 1 noFaults Sample.db))
     = Some [500; 700; 700]) /\
  (fmap (map (fun r => fc_id (fst r)))
        (fst (dueCards 1000 1 noFaults Sample.dbReordered))
     = Some [10; 11; 12]) /\
  ~ (exists rows, fst (dueCards 1000 1 noFaults Sample.db) = Some rows /\
                  Sorted byNextReviewDateThenId rows).
Proof.
  split; [vm_compute; reflexivity |].
  split; [vm_compute; reflexivity |].
  split; [vm_compute; reflexivity |].
  intros (rows & Hrows & Hsorted).
  vm_compute in Hrows. injection Hrows as <-.
  inversion Hsorted as [| ? ? Htail _]; subst.
  inversion Htail as [| ? ? _ Hhd]; subst.
  inversion Hhd as [| ? ? Hrel]; subst.
  unfold byNextReviewDateThenId in Hrel. simpl in Hrel. lia.
Qed.

(** C7 (amended).  For every user and instant, the due-card query returns
    exactly the cards owned by the user whose schedule has
    [nextReviewDate] at most the instant, each with its schedule, sorted by
    [nextReviewDate] ascending; the order of cards with equal
    [nextReviewDate] is not determined by the query; the query changes
    nothing in the database. *)
Theorem C7_due_cards_query (now userId : Z) (faults : Faults) (db : DB) :
  faults FlashcardFindMany = false ->
  exists rows,
    dueCards now userId faults db = (Some rows, db) /\
    (forall card schedule,
       (card, schedule) ∈ rows <->
       card ∈ flashcards db /\ fc_userId card = userId /\
       reviewSchedules db !! fc_id card = Some schedule /\
       rs_nextReviewDate schedule <= now) /\
    rows ≡ₚ omap (dueRow db userId now) (flashcards db) /\
    StronglySorted
      (fun a b => rs_nextReviewDate (snd a) <= rs_nextReviewDate (snd b)) rows.
Proof.
  intros Hf. eexists. split; [| split; [| split]].
  - unfold dueCards. rewrite flashcard_findMany_due_run by assumption.
    reflexivity.
  - intros card schedule. rewrite sortByDate_Permutation, list_elem_of_omap.
    split.
    + intros (card' & Hin & Hrow). apply dueRow_Some in Hrow.
      destruct Hrow as (-> & Hrow). auto.
    + intros (Hin & Hrow). exists card. split; [assumption |].
      apply dueRow_Some. auto.
  - apply sortByDate_Permutation.
  - apply sortByDate_StronglySorted.
Qed.

Lemma C7_due_cards_query_witness :
  exists rows,
    dueCards 1000 1 noFaults Sample.db = (Some rows, Sample.db) /\
    length rows = 3%nat.
Proof.
  destruct (C7_due_cards_query 1000 1 noFaults Sample.db eq_refl)
    as (rows & Hrun & _ & Hperm & _).
  exists rows. split; [exact Hrun |].
  rewrite (Permutation_length Hperm). vm_compute. reflexivity.
Defined.

End DueCardFacts.

(** * Further properties of the modelled code *)

(** ** The scheduler in double precision: which way a rating moves the ease factor *)

Section SchedulerBinary64More.
Import JS Binary64 SpacedRepetition.
Local Open Scope Q_scope.

Lemma clamp_between (lo hi x : Q) :
  lo <= hi ->
  let c := Math_max lo (Math_min hi x) in
  (x <= lo /\ c == lo) \/ (lo <= x <= hi /\ c == x) \/ (hi <= x /\ c == hi).
Proof.
  intros Hle. unfold Math_max, Math_min. cbv zeta.
  destruct (Q.min_spec hi x) as [[H1 E1] | [H1 E1]];
    destruct (Q.max_spec lo (Qmin hi x)) as [[H2 E2] | [H2 E2]];
    rewrite E1 in H2; rewrite E2, ?E1;
    first [ left; split; lra
          | right; left; split; lra
          | right; right; split; lra ].
Qed.

(** One rounding of a number of magnitude at most 3 moves it by less than
    0.01. *)
Lemma fl_near (x : Q) : Qabs x <= 3 -> x - 0.01 <= fl x <= x + 0.01.
Proof.
  intros Hx. pose proof (fl_error_abs x 3 Hx) as He.
  assert (Hc : 3 * pow2 (-53) + pow2 (-1075) <= 0.01)
    by (apply Qle_bool_iff; vm_compute; reflexivity).
  assert (Hb : Qabs (fl x - x) <= 0.01) by lra.
  apply Qabs_Qle_condition in Hb. lra.
Qed.

(** X1.  In double precision, for a stored ease factor (a double between
    1.3 and 2.5) and a rating in [0,5]: a rating of at most 4 never raises
    the ease factor, and a rating of at most 3 lowers it unless it is at the
    floor, the double nearest to 1.3, already; the rating 4 leaves it as it
    is; a rating of at least 4 never lowers it, and the rating 5 raises it
    unless it is 2.5 already.  A rating between 3 and 5 other than 4 need
    not move it: the rating 4 + 2^-50 leaves the ease factor 2. *)
Theorem X1_rating_four_is_neutral
    (now : Z) (quality : Q) (reps : Z) (ef : Q) (iv : Z) :
  fl ef == ef -> 1.3 <= ef <= 2.5 -> 0 <= quality <= 5 ->
  let newEase :=
    easeFactor (SpacedRepetitionBinary64.calculateSM2 now quality reps ef iv) in
  (quality <= 4 -> newEase <= ef) /\
  (quality <= 3 -> fl 1.3 < ef -> newEase < ef) /\
  (quality == 4 -> newEase == ef) /\
  (4 <= quality -> ef <= newEase) /\
  (quality == 5 -> ef < 2.5 -> ef < newEase) /\
  (let above := 4 + pow2 (-50) in
   fl above == above /\
   easeFactor (SpacedRepetitionBinary64.calculateSM2 now above reps 2 iv) == 2).
Proof.
  intros Hdouble [Hlo Hhi] [Hq0 Hq5] newEase.
  unfold newEase. rewrite binary64_easeFactor.
  destruct (binary64_delta_sign quality) as [Hneg Hpos].
  pose proof (binary64_delta_le quality 3) as Hle3.
  pose proof (binary64_delta_le 5 quality) as Hge5.
  set (delta := sub (fl 0.1) (mul (sub 5 quality)
                 (add (fl 0.08) (mul (sub 5 quality) (fl 0.02))))) in *.
  pose proof fl_literals as (_ & _ & L13 & U13 & _).
  assert (Hp : pow2 (-52) <= 1) by (apply Qle_bool_iff; vm_compute; reflexivity).
  assert (Hfloor : fl 1.3 <= ef) by (rewrite <- Hdouble; apply fl_le; lra).
  pose proof (clamp_between (fl 1.3) 2.5 (add ef delta)) as Hc.
  cbv zeta in Hc. specialize (Hc ltac:(lra)).
  change (add ef delta) with (fl (ef + delta)) in *.
  assert (Hdown : quality <= 4 -> fl (ef + delta) <= ef).
  { intros H. specialize (Hneg H). rewrite <- Hdouble at 2. apply fl_le. lra. }
  assert (Hup : 4 <= quality -> ef <= fl (ef + delta)).
  { intros H. specialize (Hpos (conj H Hq5)). rewrite <- Hdouble at 1.
    apply fl_le. lra. }
  split; [| split; [| split; [| split; [| split]]]].
  - intros H. specialize (Hdown H). lra.
  - intros H Hstrict. specialize (Hle3 H ltac:(lra)).
    assert (Hd3 : sub (fl 0.1) (mul (sub 5 3) (add (fl 0.08) (mul (sub 5 3) (fl 0.02))))
                  <= - 0.13) by (apply Qle_bool_iff; vm_compute; reflexivity).
    assert (Hs : fl (ef + delta) <= fl (ef - 0.13)) by (apply fl_le; lra).
    assert (Ha : Qabs (ef - 0.13) <= 3) by (apply Qabs_Qle_condition; lra).
    pose proof (fl_near (ef - 0.13) Ha) as [_ Hn]. lra.
  - intros H. assert (H1 : quality <= 4) by lra. assert (H2 : 4 <= quality) by lra.
    specialize (Hdown H1). specialize (Hup H2). lra.
  - intros H. specialize (Hup H). lra.
  - intros H Hstrict. specialize (Hge5 ltac:(lra) ltac:(lra)).
    assert (Hd5 : 0.09 <= sub (fl 0.1) (mul (sub 5 5) (add (fl 0.08) (mul (sub 5 5) (fl 0.02)))))
      by (apply Qle_bool_iff; vm_compute; reflexivity).
    assert (Hs : fl (ef + 0.09) <= fl (ef + delta)) by (apply fl_le; lra).
    assert (Ha : Qabs (ef + 0.09) <= 3) by (apply Qabs_Qle_condition; lra).
    pose proof (fl_near (ef + 0.09) Ha) as [Hn _]. lra.
  - cbv zeta. split; [vm_compute; reflexivity |].
    rewrite binary64_easeFactor. vm_compute. reflexivity.
Qed.

Lemma X1_rating_four_is_neutral_witness :
  easeFactor (SpacedRepetitionBinary64.calculateSM2 0 4 3 2 16) == 2 /\
  easeFactor (SpacedRepetitionBinary64.calculateSM2 0 3 3 2 16) < 2 /\
  2 < easeFactor (SpacedRepetitionBinary64.calculateSM2 0 5 3 2 16).
Proof.
  assert (Hd : fl 2 == 2) by (vm_compute; reflexivity).
  assert (Hef : 1.3 <= 2 <= 2.5) by (split; discriminate).
  assert (H4 : 0 <= 4 <= 5) by (split; discriminate).
  assert (H3 : 0 <= 3 <= 5) by (split; discriminate).
  assert (H5 : 0 <= 5 <= 5) by (split; discriminate).
  split; [| split].
  - pose proof (X1_rating_four_is_neutral 0 4 3 2 16 Hd Hef H4) as (_ & _ & H & _).
    apply H. reflexivity.
  - pose proof (X1_rating_four_is_neutral 0 3 3 2 16 Hd Hef H3) as (_ & H & _).
    apply H; [discriminate | vm_compute; reflexivity].
  - pose proof (X1_rating_four_is_neutral 0 5 3 2 16 Hd Hef H5)
      as (_ & _ & _ & _ & H & _).
    apply H; reflexivity.
Defined.

End SchedulerBinary64More.

(** ** The scheduler in double precision and in exact arithmetic *)

Section SchedulerBinary64Accuracy.
Import JS Binary64 SpacedRepetition.
Local Open Scope Q_scope.

Lemma fl_within (x B d : Q) :
  Qabs x <= B -> B * pow2 (-53) + pow2 (-1075) <= d -> x - d <= fl x <= x + d.
Proof.
  intros HB Hd. pose proof (fl_error_abs x B HB) as He.
  assert (Hb : Qabs (fl x - x) <= d) by lra.
  apply Qabs_Qle_condition in Hb. lra.
Qed.

Lemma fl_literal_values :
  fl 0.02 == 5764607523034235 # 288230376151711744 /\
  fl 0.08 == 5764607523034235 # 72057594037927936 /\
  fl 0.1 == 3602879701896397 # 36028797018963968 /\
  fl 5 == 5.
Proof. repeat split; vm_compute; reflexivity. Qed.

Lemma product_close (a b a' b' A B da db : Q) :
  0 <= a' <= A -> 0 <= b <= B ->
  - da <= a' - a <= da -> - db <= b' - b <= db ->
  - (A * db + B * da) <= a' * b' - a * b <= A * db + B * da.
Proof.
  intros Ha Hb Hda Hdb.
  assert (E : a' * b' - a * b == a' * (b' - b) + b * (a' - a)) by ring.
  rewrite E. clear E.
  assert (- (A * db) <= a' * (b' - b) <= A * db) by nra.
  assert (- (B * da) <= b * (a' - a) <= B * da) by nra.
  lra.
Qed.

(** The ease factor before the clamp, in double precision, is within
    [2 * 10^-15] of the exact one. *)
Lemma binary64_sum_close (quality ef : Q) :
  0 <= quality <= 5 -> 1.3 <= ef <= 2.5 ->
  let exact := ef + (0.1 - (5 - quality) * (0.08 + (5 - quality) * 0.02)) in
  let double :=
    add ef (sub (fl 0.1) (mul (sub 5 quality)
                            (add (fl 0.08) (mul (sub 5 quality) (fl 0.02))))) in
  - (2 # 1000000000000000) <= double - exact <= 2 # 1000000000000000.
Proof.
  intros [Hq0 Hq5] [Hlo Hhi]. cbv zeta.
  pose proof fl_literal_values as (V02 & V08 & V01 & V5).
  pose proof fl_literals as (F0 & _).
  unfold add, sub, mul. rewrite V02, V08, V01.
  set (T := 5 - quality).
  set (t := fl T).
  assert (Ht0 : 0 <= t) by (rewrite <- F0; apply fl_le; unfold T; lra).
  assert (Ht5 : t <= 5) by (rewrite <- V5; apply fl_le; unfold T; lra).
  assert (Ht : T - (6 # 10000000000000000) <= t <= T + (6 # 10000000000000000)).
  { apply (fl_within T 5); [apply Qabs_Qle_condition; unfold T; lra |].
    apply Qle_bool_iff. vm_compute. reflexivity. }
  set (c02 := 5764607523034235 # 288230376151711744).
  set (c08 := 5764607523034235 # 72057594037927936).
  set (c01 := 3602879701896397 # 36028797018963968).
  set (m1 := fl (t * c02)).
  assert (Hm1 : t * c02 - (2 # 100000000000000000) <= m1
                <= t * c02 + (2 # 100000000000000000)).
  { apply (fl_within (t * c02) 0.11); [apply Qabs_Qle_condition; unfold c02; lra |].
    apply Qle_bool_iff. vm_compute. reflexivity. }
  set (u := fl (c08 + m1)).
  assert (Hu : c08 + m1 - (3 # 100000000000000000) <= u
               <= c08 + m1 + (3 # 100000000000000000)).
  { apply (fl_within (c08 + m1) (2 # 10));
      [apply Qabs_Qle_condition; unfold c08, c02 in *; lra |].
    apply Qle_bool_iff. vm_compute. reflexivity. }
  set (U := 0.08 + T * 0.02).
  assert (HU : 0 <= U <= 0.18) by (unfold U, T; lra).
  assert (Hu' : - (7 # 100000000000000000) <= u - U <= 7 # 100000000000000000)
    by (unfold U, c08, c02 in *; lra).
  pose proof (product_close T U t u 5 0.18
                (6 # 10000000000000000) (7 # 100000000000000000)
                (conj Ht0 Ht5) HU ltac:(lra) Hu') as Hx2.
  set (m2 := fl (t * u)) in *.
  assert (Hm2 : t * u - (2 # 10000000000000000) <= m2
                <= t * u + (2 # 10000000000000000)).
  { apply (fl_within (t * u) 1); [apply Qabs_Qle_condition; nra |].
    apply Qle_bool_iff. vm_compute. reflexivity. }
  assert (HTU : 0 <= T * U <= 0.9) by (unfold U, T; nra).
  set (d := fl (c01 - m2)).
  assert (Hd : c01 - m2 - (2 # 10000000000000000) <= d
               <= c01 - m2 + (2 # 10000000000000000)).
  { apply (fl_within (c01 - m2) 1); [apply Qabs_Qle_condition; unfold c01; lra |].
    apply Qle_bool_iff. vm_compute. reflexivity. }
  assert (Hs : ef + d - (4 # 10000000000000000) <= fl (ef + d)
               <= ef + d + (4 # 10000000000000000)).
  { apply (fl_within (ef + d) 3.5); [apply Qabs_Qle_condition; unfold c01 in *; lra |].
    apply Qle_bool_iff. vm_compute. reflexivity. }
  fold U. unfold c01 in *. lra.
Qed.

(** X28.  Double precision stays close to the formula.  For a rating in
    [0,5] and an ease factor between 1.3 and 2.5, [calculateSM2] computed in
    double precision and [calculateSM2] computed exactly give the same
    repetition count and ease factors that differ by at most [2 * 10^-15];
    after a failing answer or a first or second passing answer they give the
    same interval and the same next review date; after a later passing
    answer, from an interval of at most 2^31 days, their intervals differ by
    at most one day. *)
Theorem X28_double_precision_close
    (now : Z) (quality : Q) (reps : Z) (ef : Q) (iv : Z) :
  0 <= quality <= 5 -> 1.3 <= ef <= 2.5 ->
  let exact := calculateSM2 now quality reps ef iv in
  let double := SpacedRepetitionBinary64.calculateSM2 now quality reps ef iv in
  repetitions double = repetitions exact /\
  Qabs (easeFactor double - easeFactor exact) <= 2 # 1000000000000000 /\
  (quality < 3 \/ (reps + 1 = 1)%Z \/ (reps + 1 = 2)%Z ->
     interval double = interval exact /\
     nextReviewDate double = nextReviewDate exact) /\
  ((Z.abs iv <= 2 ^ 31)%Z -> (Z.abs (interval double - interval exact) <= 1)%Z).
Proof.
  intros Hq Hef exact double.
  assert (Hease : Qabs (easeFactor double - easeFactor exact) <= 2 # 1000000000000000).
  { unfold double, exact. rewrite binary64_easeFactor, calculateSM2_easeFactor.
    pose proof (binary64_sum_close quality ef Hq Hef) as Hsum. cbv zeta in Hsum.
    pose proof fl_literals as (_ & _ & L13 & U13 & _).
    assert (Hp : pow2 (-52) <= 1 # 1000000000000000)
      by (apply Qle_bool_iff; vm_compute; reflexivity).
    set (s64 := add ef _) in *. set (s := ef + _) in *.
    pose proof (clamp_between (fl 1.3) 2.5 s64 ltac:(lra)) as H64.
    pose proof (clamp_cases s) as Hex. cbv zeta in H64, Hex.
    apply Qabs_Qle_condition. lra. }
  pose proof (calculateSM2_easeFactor now quality reps ef iv) as Eex.
  pose proof (binary64_easeFactor_range now quality reps ef iv) as R64.
  fold double in R64.
  assert (Rex : 1.3 <= easeFactor exact <= 2.5).
  { unfold exact. rewrite Eex.
    pose proof (clamp_cases
                  (ef + (0.1 - (5 - quality) * (0.08 + (5 - quality) * 0.02)))) as Hc.
    cbv zeta in Hc. lra. }
  destruct (lt quality 3) eqn:Hlt.
  - destruct (calculateSM2_incorrect now quality reps ef iv Hlt) as [Hi Hr].
    assert (H64 : interval double = 1%Z /\ repetitions double = 0%Z
                  /\ nextReviewDate double = addDays now 1).
    { unfold double, SpacedRepetitionBinary64.calculateSM2. rewrite Hlt.
      repeat split. }
    destruct H64 as (Hi64 & Hr64 & Hn64).
    fold exact in Hi, Hr.
    pose proof (calculateSM2_nextReviewDate now quality reps ef iv) as Hn.
    fold exact in Hn. rewrite Hi in Hn.
    split; [congruence |]. split; [exact Hease |]. split.
    + intros _. split; congruence.
    + intros _. rewrite Hi, Hi64. lia.
  - destruct (calculateSM2_correct now quality reps ef iv Hlt) as [Hr Hi].
    destruct (binary64_correct now quality reps ef iv Hlt) as [Hr64 Hi64].
    fold exact in Hr, Hi. fold double in Hr64, Hi64.
    pose proof (calculateSM2_nextReviewDate now quality reps ef iv) as Hn.
    fold exact in Hn.
    assert (Hn64 : nextReviewDate double = addDays now (interval double)).
    { unfold double, SpacedRepetitionBinary64.calculateSM2. rewrite Hlt.
      destruct (reps + 1 =? 1)%Z; [reflexivity |].
      destruct (reps + 1 =? 2)%Z; reflexivity. }
    split; [congruence |]. split; [exact Hease |]. split.
    + intros [Hfail | [H1 | H2]].
      * apply lt_false in Hlt. lra.
      * rewrite H1 in Hi, Hi64. simpl in Hi, Hi64. split; congruence.
      * rewrite H2 in Hi, Hi64. simpl in Hi, Hi64. split; congruence.
    + intros Hiv.
      destruct (reps + 1 =? 1)%Z; [rewrite Hi, Hi64; lia |].
      destruct (reps + 1 =? 2)%Z; [rewrite Hi, Hi64; lia |].
      unfold mul in Hi64.
      set (y := inject_Z iv * easeFactor exact) in *.
      set (y64 := inject_Z iv * easeFactor double) in *.
      pose proof (Math_round_spec y) as Sy. rewrite <- Hi in Sy.
      pose proof (Math_round_spec (fl y64)) as Sy64. rewrite <- Hi64 in Sy64.
      apply Qabs_Qle_condition in Hease.
      assert (Hz : - 2147483648 <= inject_Z iv <= 2147483648).
      { assert (H : (- 2147483648 <= iv <= 2147483648)%Z) by lia.
        destruct H as [H1 H2]. rewrite Zle_Qle in H1, H2. split; assumption. }
      assert (Hy : - (1 # 100000) <= y64 - y <= 1 # 100000).
      { unfold y, y64.
        assert (E : inject_Z iv * easeFactor double - inject_Z iv * easeFactor exact
                    == inject_Z iv * (easeFactor double - easeFactor exact)) by ring.
        rewrite E. nra. }
      assert (Hf : y64 - (1 # 100000) <= fl y64 <= y64 + (1 # 100000)).
      { apply (fl_within y64 5368709120);
          [apply Qabs_Qle_condition; unfold y64; nra |].
        apply Qle_bool_iff. vm_compute. reflexivity. }
      assert (H1 : inject_Z (interval double) < inject_Z (interval exact + 2)).
      { rewrite inject_Z_plus. change (inject_Z 2) with 2. lra. }
      assert (H2 : inject_Z (interval exact) < inject_Z (interval double + 2)).
      { rewrite inject_Z_plus. change (inject_Z 2) with 2. lra. }
      rewrite <- Zlt_Qlt in H1, H2. lia.
Qed.

Lemma X28_double_precision_close_witness :
  let exact := calculateSM2 0 4 2 2.3 25 in
  let double := SpacedRepetitionBinary64.calculateSM2 0 4 2 2.3 25 in
  repetitions double = repetitions exact /\
  interval exact = 58%Z /\ interval double = 57%Z /\
  (Z.abs (interval double - interval exact) <= 1)%Z.
Proof.
  assert (Hq : 0 <= 4 <= 5) by (split; discriminate).
  assert (Hef : 1.3 <= 2.3 <= 2.5) by (split; discriminate).
  destruct (X28_double_precision_close 0 4 2 2.3 25 Hq Hef) as (Hr & _ & _ & Hi).
  cbv zeta. split; [exact Hr |].
  split; [vm_compute; reflexivity |]. split; [vm_compute; reflexivity |].
  apply Hi. vm_compute. discriminate.
Defined.

End SchedulerBinary64Accuracy.

(** ** The scheduler: how ratings move the ease factor and the interval *)

Section SchedulerMore.
Import JS SpacedRepetition.
Local Open Scope Q_scope.

(** X2.  The new ease factor is monotone in the rating: from the same prior
    state, a rating that is at least as good (both ratings at most 5) never
    gives a lower ease factor. *)
Theorem X2_ease_monotone_in_quality
    (now : Z) (q1 q2 : Q) (reps : Z) (ef : Q) (iv : Z) :
  q1 <= q2 -> q2 <= 5 ->
  easeFactor (calculateSM2 now q1 reps ef iv)
    <= easeFactor (calculateSM2 now q2 reps ef iv).
Proof.
  intros H12 H2. rewrite !calculateSM2_easeFactor.
  set (d1 := 0.1 - (5 - q1) * (0.08 + (5 - q1) * 0.02)).
  set (d2 := 0.1 - (5 - q2) * (0.08 + (5 - q2) * 0.02)).
  assert (Hd : d1 <= d2) by (unfold d1, d2; nra).
  pose proof (clamp_cases (ef + d1)) as H1.
  pose proof (clamp_cases (ef + d2)) as H2'. cbv zeta in H1, H2'. lra.
Qed.

Lemma X2_ease_monotone_in_quality_witness :
  easeFactor (calculateSM2 0 1 3 2.0 16) <= easeFactor (calculateSM2 0 5 3 2.0 16).
Proof.
  apply (X2_ease_monotone_in_quality 0 1 5 3 2.0 16); discriminate.
Defined.

(** X3.  On a passing answer from the third repetition on, a prior interval
    of at least one day never shrinks, grows by at least one day when it is
    two days or more, and at most by the factor 2.5 (up to rounding). *)
Theorem X3_interval_grows_on_pass
    (now : Z) (quality : Q) (reps : Z) (ef : Q) (iv : Z) :
  3 <= quality -> (2 <= reps)%Z -> (1 <= iv)%Z ->
  let newInterval := interval (calculateSM2 now quality reps ef iv) in
  (iv <= newInterval)%Z /\
  ((2 <= iv)%Z -> (iv < newInterval)%Z) /\
  inject_Z newInterval <= 2.5 * inject_Z iv + 0.5.
Proof.
  intros Hq Hreps Hiv newInterval.
  destruct (calculateSM2_correct now quality reps ef iv) as [_ Hi];
    [now apply lt_false |].
  destruct (Z.eqb_spec (reps + 1) 1) as [E1 | _]; [lia |].
  destruct (Z.eqb_spec (reps + 1) 2) as [E2 | _]; [lia |].
  fold newInterval in Hi.
  pose proof (Math_round_spec
                (inject_Z iv * easeFactor (calculateSM2 now quality reps ef iv)))
    as Hround.
  rewrite <- Hi in Hround.
  pose proof (clamp_cases
                (ef + (0.1 - (5 - quality) * (0.08 + (5 - quality) * 0.02))))
    as Hc.
  cbv zeta in Hc. rewrite <- calculateSM2_easeFactor with (now := now)
    (reps := reps) (iv := iv) in Hc.
  set (e := easeFactor (calculateSM2 now quality reps ef iv)) in *.
  assert (He : 1.3 <= e <= 2.5) by lra.
  assert (Hiv1 : 1 <= inject_Z iv).
  { change 1 with (inject_Z 1). now rewrite <- Zle_Qle. }
  split; [| split].
  - assert (H : inject_Z iv < inject_Z (newInterval + 1)).
    { rewrite inject_Z_plus. change (inject_Z 1) with 1. nra. }
    rewrite <- Zlt_Qlt in H. lia.
  - intros Hiv2.
    assert (Hiv2' : 2 <= inject_Z iv).
    { change 2 with (inject_Z 2). now rewrite <- Zle_Qle. }
    assert (H : inject_Z iv < inject_Z newInterval) by nra.
    now rewrite <- Zlt_Qlt in H.
  - nra.
Qed.

Lemma X3_interval_grows_on_pass_witness :
  (6 < interval (calculateSM2 0 4 2 2.5 6))%Z.
Proof.
  pose proof (X3_interval_grows_on_pass 0 4 2 2.5 6) as H.
  cbv zeta in H. apply H; [discriminate | lia | lia | lia].
Defined.

(** X4.  After a failing answer, whatever the state before it, the next two
    passing answers are scheduled 1 day and then 6 days ahead: the card
    restarts at repetition 0 and only the lowered ease factor carries over.
    The same holds for a new card, which starts at repetition 0. *)
Theorem X4_restart_after_lapse
    (now0 now1 now2 : Z) (q0 q1 q2 : Q) (reps : Z) (ef : Q) (iv : Z) :
  q0 < 3 -> 3 <= q1 -> 3 <= q2 ->
  let r0 := calculateSM2 now0 q0 reps ef iv in
  let r1 := calculateSM2 now1 q1 (repetitions r0) (easeFactor r0) (interval r0) in
  let r2 := calculateSM2 now2 q2 (repetitions r1) (easeFactor r1) (interval r1) in
  (repetitions r0, interval r0) = (0, 1)%Z /\
  (repetitions r1, interval r1) = (1, 1)%Z /\
  (repetitions r2, interval r2) = (2, 6)%Z /\
  nextReviewDate r2 = (now2 + 6 * msPerDay)%Z /\
  forall n1 n2 e i,
    let s1 := calculateSM2 n1 q1 0 e i in
    let s2 := calculateSM2 n2 q2 (repetitions s1) (easeFactor s1) (interval s1) in
    (repetitions s1, interval s1) = (1, 1)%Z /\
    (repetitions s2, interval s2) = (2, 6)%Z.
Proof.
  intros H0 H1 H2. cbv zeta.
  apply lt_true in H0. apply lt_false in H1, H2.
  assert (Hnew : forall n1 n2 e i,
            let s1 := calculateSM2 n1 q1 0 e i in
            let s2 := calculateSM2 n2 q2 (repetitions s1) (easeFactor s1)
                        (interval s1) in
            (repetitions s1, interval s1) = (1, 1)%Z /\
            (repetitions s2, interval s2) = (2, 6)%Z /\
            nextReviewDate s2 = (n2 + 6 * msPerDay)%Z).
  { intros n1 n2 e i. cbv zeta.
    destruct (calculateSM2_correct n1 q1 0 e i H1) as [Hr1 Hi1].
    change (0 + 1)%Z with 1%Z in Hr1. simpl in Hi1. rewrite Hr1, Hi1.
    destruct (calculateSM2_correct n2 q2 1
                (easeFactor (calculateSM2 n1 q1 0 e i)) 1 H2) as [Hr2 Hi2].
    change (1 + 1)%Z with 2%Z in Hr2. simpl in Hi2.
    rewrite calculateSM2_nextReviewDate, Hr2, Hi2. auto. }
  destruct (calculateSM2_incorrect now0 q0 reps ef iv H0) as [Hi0 Hr0].
  rewrite Hr0, Hi0.
  destruct (Hnew now1 now2 (easeFactor (calculateSM2 now0 q0 reps ef iv)) 1%Z)
    as (Ha & Hb & Hc).
  split; [reflexivity |]. split; [exact Ha |]. split; [exact Hb |].
  split; [exact Hc |].
  intros n1 n2 e i. destruct (Hnew n1 n2 e i) as (Hx & Hy & _). auto.
Qed.

Lemma X4_restart_after_lapse_witness :
  let r0 := calculateSM2 0 2 7 2.5 120 in
  let r1 := calculateSM2 0 4 (repetitions r0) (easeFactor r0) (interval r0) in
  let r2 := calculateSM2 0 5 (repetitions r1) (easeFactor r1) (interval r1) in
  interval r2 = 6%Z.
Proof.
  assert (H0 : 2 < 3) by reflexivity.
  assert (H1 : 3 <= 4) by discriminate.
  assert (H2 : 3 <= 5) by discriminate.
  pose proof (X4_restart_after_lapse 0 0 0 2 4 5 7 2.5 120 H0 H1 H2) as H.
  cbv zeta in H. destruct H as (_ & _ & H & _).
  cbv zeta. exact (f_equal snd H).
Defined.

End SchedulerMore.

(** ** The review request: invariants, frame and error behaviour *)

Section ReviewMore.
Import JS Schema Prisma SpacedRepetition Reviews ReviewEffects Invariants.

Lemma POST_ok_inv (now : Z) (request : Request) (faults : Faults) (db : DB)
    (s : ReviewSchedule) :
  fst (POST now request faults db) = Ok200 s ->
  exists userId row,
    currentUser request = Some userId /\
    reviewSchedules db !! flashcardId (body request) = Some row /\
    s = scheduleAfter now (quality (body request)) row /\
    snd (POST now request faults db) = committed now userId (body request) row db.
Proof.
  intros Hok. outcome_cases now request faults db;
    rewrite <- Heq in Hok; simpl in Hok; try discriminate Hok.
  injection Hok as <-. exists u, row. auto.
Qed.

Lemma calculateSM2_interval_ge_1 (now : Z) (quality : Q) (reps : Z) (ef : Q) (iv : Z) :
  1 <= iv -> 1 <= interval (calculateSM2 now quality reps ef iv).
Proof.
  intros Hiv. destruct (lt quality 3) eqn:Hq.
  - destruct (calculateSM2_incorrect now quality reps ef iv Hq) as [-> _]. lia.
  - destruct (calculateSM2_correct now quality reps ef iv Hq) as [_ ->].
    destruct (reps + 1 =? 1); [lia |]. destruct (reps + 1 =? 2); [lia |].
    rewrite calculateSM2_easeFactor.
    pose proof (clamp_cases
                  (ef + (0.1 - (5 - quality) * (0.08 + (5 - quality) * 0.02))))
      as Hc. cbv zeta in Hc.
    set (e := Math_max 1.3 (Math_min 2.5 _)) in *.
    pose proof (Math_round_spec (inject_Z iv * e)) as Hround.
    assert (Hiv1 : (1 <= inject_Z iv)%Q).
    { change 1%Q with (inject_Z 1). now rewrite <- Zle_Qle. }
    assert (H : (inject_Z 0 < inject_Z (Math_round (inject_Z iv * e)))%Q).
    { change (inject_Z 0) with 0%Q. nra. }
    rewrite <- Zlt_Qlt in H. lia.
Qed.

Lemma calculateSM2_repetitions_ge_0 (now : Z) (quality : Q) (reps : Z) (ef : Q) (iv : Z) :
  0 <= reps -> 0 <= repetitions (calculateSM2 now quality reps ef iv).
Proof.
  intros Hreps. destruct (lt quality 3) eqn:Hq.
  - destruct (calculateSM2_incorrect now quality reps ef iv Hq) as [_ ->]. lia.
  - destruct (calculateSM2_correct now quality reps ef iv Hq) as [-> _]. lia.
Qed.

Lemma scheduleAfter_ok (now : Z) (quality : Q) (row : ReviewSchedule) :
  scheduleOk row -> scheduleOk (scheduleAfter now quality row).
Proof.
  intros (_ & Hiv & Hreps). unfold scheduleOk, scheduleAfter. simpl.
  split; [| split].
  - rewrite calculateSM2_easeFactor.
    pose proof (clamp_cases
                  (rs_easeFactor row
                   + (0.1 - (5 - quality) * (0.08 + (5 - quality) * 0.02)))%Q)
      as Hc. cbv zeta in Hc. lra.
  - now apply calculateSM2_interval_ge_1.
  - now apply calculateSM2_repetitions_ge_0.
Qed.

(** X5.  The review request keeps every schedule well formed: if every
    stored schedule has its ease factor in [1.3, 2.5], an interval of at
    least one day and a non-negative repetition count, the same holds after
    the request, whatever its rating, its user and its outcome. *)
Theorem X5_schedules_stay_well_formed
    (now : Z) (request : Request) (faults : Faults) (db : DB) :
  map_Forall (fun _ row => scheduleOk row) (reviewSchedules db) ->
  map_Forall (fun _ row => scheduleOk row)
    (reviewSchedules (snd (POST now request faults db))).
Proof.
  intros Hall. outcome_cases now request faults db; simpl; try assumption.
  apply map_Forall_insert_2; [| assumption].
  apply scheduleAfter_ok. exact (Hall _ _ Hrow).
Qed.

Lemma X5_schedules_stay_well_formed_witness :
  map_Forall (fun _ row => scheduleOk row)
    (reviewSchedules (snd (POST 1000 (Sample.review 1 5) noFaults Sample.db))).
Proof.
  apply X5_schedules_stay_well_formed.
  unfold Sample.db; simpl.
  repeat (apply map_Forall_insert_2;
          [unfold scheduleOk; simpl; repeat split; (discriminate || lia) |]).
  apply map_Forall_empty.
Defined.

(** X6.  What a review request leaves alone: the card table, the schedule
    of every other card, every history entry already recorded (at most one
    entry is appended), the daily statistics of every other user or day, and
    the streak of every other user. *)
Theorem X6_review_frame
    (now : Z) (request : Request) (faults : Faults) (db : DB) :
  let db' := snd (POST now request faults db) in
  flashcards db' = flashcards db /\
  (forall card, card <> flashcardId (body request) ->
     reviewSchedules db' !! card = reviewSchedules db !! card) /\
  (exists added, reviewHistory db' = reviewHistory db ++ added /\
                 (length added <= 1)%nat) /\
  (forall userId day,
     currentUser request <> Some userId \/ day <> setHours0 now ->
     dailyStats db' !! (userId, day) = dailyStats db !! (userId, day)) /\
  (forall userId, currentUser request <> Some userId ->
     studyStreaks db' !! userId = studyStreaks db !! userId).
Proof.
  cbv zeta.
  assert (Hnil : exists added : list ReviewHistory,
             reviewHistory db = reviewHistory db ++ added /\ (length added <= 1)%nat)
    by (exists []; split; [now rewrite app_nil_r | simpl; lia]).
  outcome_cases now request faults db; simpl; try (repeat split; auto; fail).
  split; [reflexivity |]. split; [| split; [| split]].
  - intros card Hne. now rewrite lookup_insert_ne.
  - eexists. split; [reflexivity | simpl; lia].
  - intros userId day Hother. apply lookup_insert_ne.
    intros Hkey. injection Hkey as Hk1 Hk2.
    destruct Hother as [H | H]; apply H; congruence.
  - intros userId Hother. apply lookup_insert_ne. intros Hk. apply Hother.
    congruence.
Qed.

Lemma X6_review_frame_witness :
  reviewSchedules (snd (POST 1000 (Sample.review 1 4) noFaults Sample.db)) !! 11
    = reviewSchedules Sample.db !! 11.
Proof.
  pose proof (X6_review_frame 1000 (Sample.review 1 4) noFaults Sample.db)
    as (_ & H & _).
  apply H. discriminate.
Defined.

Lemma streakAfter_ok (userId today : Z) (found : option StudyStreak) :
  streakOk (streakAfter userId today found) /\
  ss_lastStudyDate (streakAfter userId today found) = Some today /\
  forall row, found = Some row ->
    ss_longestStreak row <= ss_longestStreak (streakAfter userId today found).
Proof.
  unfold streakOk, streakAfter. destruct found as [row |]; simpl.
  - split; [lia |]. split; [reflexivity |]. intros ? [= <-]. lia.
  - split; [lia |]. split; [reflexivity |]. discriminate.
Qed.

(** X7.  The streak rows under a review request: a stored longest streak
    never decreases and a row with [currentStreak <= longestStreak] keeps
    that; when the review is committed, the row of the reviewing user exists,
    satisfies [currentStreak <= longestStreak] even if it did not before, and
    is dated today. *)
Theorem X7_longest_streak_never_decreases
    (now : Z) (request : Request) (faults : Faults) (db : DB) :
  let db' := snd (POST now request faults db) in
  (forall userId row,
     studyStreaks db !! userId = Some row ->
     exists row',
       studyStreaks db' !! userId = Some row' /\
       ss_longestStreak row <= ss_longestStreak row' /\
       (streakOk row -> streakOk row')) /\
  (forall userId s,
     currentUser request = Some userId ->
     fst (POST now request faults db) = Ok200 s ->
     exists row',
       studyStreaks db' !! userId = Some row' /\
       streakOk row' /\
       ss_lastStudyDate row' = Some (setHours0 now)).
Proof.
  cbv zeta. split.
  - intros userId old Hlook.
    outcome_cases now request faults db; simpl;
      try (exists old; split; [assumption | split; [lia | auto]]; fail).
    destruct (decide (u = userId)) as [-> | Hne].
    + rewrite lookup_insert_eq, Hlook. eexists. split; [reflexivity |].
      destruct (streakAfter_ok userId (setHours0 now) (Some old))
        as (Hok & _ & Hmono).
      split; [now apply Hmono | intros _; exact Hok].
    + rewrite lookup_insert_ne by assumption.
      exists old. split; [assumption | split; [lia | auto]].
  - intros userId s Huser Hok.
    destruct (POST_ok_inv now request faults db s Hok)
      as (u & row & Hu & Hrow & _ & ->).
    rewrite Huser in Hu. injection Hu as <-. simpl.
    rewrite lookup_insert_eq. eexists. split; [reflexivity |].
    destruct (streakAfter_ok userId (setHours0 now) (studyStreaks db !! userId))
      as (Hok' & Hdate & _).
    split; assumption.
Qed.

Lemma X7_longest_streak_never_decreases_witness :
  exists row',
    studyStreaks (snd (POST 1000 (Sample.review 1 4) noFaults Sample.db)) !! 1
      = Some row' /\
    streakOk row' /\ ss_lastStudyDate row' = Some 0.
Proof.
  pose proof (X7_longest_streak_never_decreases 1000 (Sample.review 1 4)
                noFaults Sample.db) as [_ H].
  apply (H 1 (mkReviewSchedule 2.5 15 3 (1000 + 15 * msPerDay) (Some 1000) 1 10)).
  - reflexivity.
  - vm_compute. reflexivity.
Defined.

(** X8.  How the streak moves, by the instant of the last study day.  With
    [today] the midnight that starts the current day: a last study instant
    within the previous calendar day extends the streak by one; an earlier
    one resets it to 1; one of today or later leaves it as it is.  A row
    without a last study date counts as last studied at the epoch, so from
    the third day of the epoch on it is reset to 1. *)
Theorem X8_streak_by_last_study_instant (row : StudyStreak) (now : Z) :
  let today := setHours0 now in
  let next := newCurrentStreak row today (addDays today (-1)) in
  (forall last, ss_lastStudyDate row = Some last ->
     (today - msPerDay <= last < today -> next = ss_currentStreak row + 1) /\
     (last < today - msPerDay -> next = 1) /\
     (today <= last -> next = ss_currentStreak row)) /\
  (ss_lastStudyDate row = None -> msPerDay < today -> next = 1).
Proof.
  cbv zeta. unfold newCurrentStreak, addDays, setHours0.
  pose proof (Z.mod_pos_bound now msPerDay eq_refl) as Hnow.
  pose proof (Z.div_mod now msPerDay ltac:(discriminate)) as Hdm.
  set (today := now - now mod msPerDay).
  assert (Htoday : today = msPerDay * (now / msPerDay)) by (unfold today; lia).
  split.
  - intros last ->. change (default 0 (Some last)) with last.
    pose proof (Z.mod_pos_bound last msPerDay eq_refl) as Hlast.
    pose proof (Z.div_mod last msPerDay ltac:(discriminate)) as Hldm.
    set (lastDay := last - last mod msPerDay).
    assert (HlastDay : lastDay = msPerDay * (last / msPerDay))
      by (unfold lastDay; lia).
    destruct (Z.eqb_spec lastDay (today + -1 * msPerDay));
      destruct (Z.ltb_spec lastDay (today + -1 * msPerDay));
      unfold msPerDay in *;
      repeat split; intros; try reflexivity; lia.
  - intros -> Hlate. change (default 0 (@None Z)) with 0.
    change (0 - 0 mod msPerDay) with 0.
    destruct (Z.eqb_spec 0 (today + -1 * msPerDay));
      [unfold msPerDay in *; lia |].
    destruct (Z.ltb_spec 0 (today + -1 * msPerDay));
      [reflexivity | unfold msPerDay in *; lia].
Qed.

Lemma X8_streak_by_last_study_instant_witness :
  newCurrentStreak (mkStudyStreak 1 5 12 (Some (3 * msPerDay + 7200000)))
    (4 * msPerDay) (addDays (4 * msPerDay) (-1)) = 6 /\
  newCurrentStreak (mkStudyStreak 1 5 12 (Some (2 * msPerDay - 1)))
    (4 * msPerDay) (addDays (4 * msPerDay) (-1)) = 1.
Proof.
  pose proof (X8_streak_by_last_study_instant
                (mkStudyStreak 1 5 12 (Some (3 * msPerDay + 7200000)))
                (4 * msPerDay + 1000)) as [H1 _].
  pose proof (X8_streak_by_last_study_instant
                (mkStudyStreak 1 5 12 (Some (2 * msPerDay - 1)))
                (4 * msPerDay + 1000)) as [H2 _].
  split.
  - apply (H1 _ eq_refl). vm_compute. split; [discriminate | reflexivity].
  - apply (H2 _ eq_refl). vm_compute. reflexivity.
Defined.

Lemma correctIncrement_range (quality : Q) : 0 <= correctIncrement quality <= 1.
Proof. unfold correctIncrement. destruct (ge quality 3); lia. Qed.

Lemma dailyStatAfter_ok (userId today : Z) (b : Body) (found : option DailyStat) :
  (forall row, found = Some row -> dailyStatOk row) ->
  dailyStatOk (dailyStatAfter userId today b found).
Proof.
  pose proof (correctIncrement_range (quality b)) as Hinc.
  unfold dailyStatOk, dailyStatAfter. destruct found as [row |]; simpl.
  - intros Hok. specialize (Hok row eq_refl). lia.
  - intros _. lia.
Qed.

(** X9.  The daily statistics stay consistent under review requests: if in
    every stored row the number of reviewed cards equals the number of
    answers and the correct answers are between 0 and that number, the same
    holds after the request; a row created by the request satisfies it. *)
Theorem X9_daily_stats_stay_consistent
    (now : Z) (request : Request) (faults : Faults) (db : DB) :
  map_Forall (fun _ row => dailyStatOk row) (dailyStats db) ->
  map_Forall (fun _ row => dailyStatOk row)
    (dailyStats (snd (POST now request faults db))).
Proof.
  intros Hall. outcome_cases now request faults db; simpl; try assumption.
  apply map_Forall_insert_2; [| assumption].
  apply dailyStatAfter_ok. intros found Hfound. exact (Hall _ _ Hfound).
Qed.

Lemma X9_daily_stats_stay_consistent_witness :
  map_Forall (fun _ row => dailyStatOk row)
    (dailyStats (snd (POST 1000 (Sample.review 1 2) noFaults Sample.db))).
Proof.
  apply X9_daily_stats_stay_consistent. apply map_Forall_empty.
Defined.

Lemma Math_ceil_spec (x : Q) :
  (inject_Z (Math_ceil x) - 1 < x <= inject_Z (Math_ceil x))%Q.
Proof.
  unfold Math_ceil, Qceiling.
  pose proof (Qfloor_le (- x)) as Hlo. pose proof (Qlt_floor (- x)) as Hhi.
  rewrite inject_Z_plus in Hhi. change (inject_Z 1) with 1%Q in Hhi.
  rewrite inject_Z_opp. split; lra.
Qed.

(** X10.  The study time a committed review adds to the day is the response
    time rounded up to whole minutes: with [m] minutes added for [s] seconds,
    [60 (m - 1) < s <= 60 m].  A review without a response time adds
    nothing, one of up to a minute adds a full minute, and a negative
    response time is not rejected: it lowers the day's study time. *)
Theorem X10_study_time_rounded_up
    (now : Z) (request : Request) (faults : Faults) (db : DB)
    (userId : Z) (s : ReviewSchedule) :
  currentUser request = Some userId ->
  fst (POST now request faults db) = Ok200 s ->
  let seconds := orZero (responseTimeSeconds (body request)) in
  let before :=
    match dailyStats db !! (userId, setHours0 now) with
    | Some row => ds_studyTimeMinutes row
    | None => 0
    end in
  exists row' minutes,
    dailyStats (snd (POST now request faults db)) !! (userId, setHours0 now)
      = Some row' /\
    ds_studyTimeMinutes row' = before + minutes /\
    (60 * (inject_Z minutes - 1) < seconds <= 60 * inject_Z minutes)%Q /\
    (responseTimeSeconds (body request) = None -> minutes = 0) /\
    ((0 < seconds <= 60)%Q -> minutes = 1) /\
    ((seconds <= -60)%Q -> minutes < 0).
Proof.
  intros Huser Hok seconds before.
  destruct (POST_ok_inv now request faults db s Hok)
    as (u & row & Hu & Hrow & _ & ->).
  rewrite Huser in Hu. injection Hu as <-. simpl.
  rewrite lookup_insert_eq.
  pose proof (Math_ceil_spec (seconds / 60)) as Hceil.
  set (minutes := Math_ceil (seconds / 60)) in *.
  assert (Hbounds : (60 * (inject_Z minutes - 1) < seconds <= 60 * inject_Z minutes)%Q).
  { assert (Hdiv : (seconds == 60 * (seconds / 60))%Q) by (field; discriminate).
    destruct Hceil as [Hlo Hhi]. split; lra. }
  exists (dailyStatAfter userId (setHours0 now) (body request)
            (dailyStats db !! (userId, setHours0 now))), minutes.
  split; [reflexivity |]. split.
  { unfold dailyStatAfter, before. fold seconds. fold minutes.
    destruct (dailyStats db !! (userId, setHours0 now)); simpl; lia. }
  split; [exact Hbounds |].
  assert (Hz : forall a b : Z, (inject_Z a < inject_Z b)%Q -> a < b)
    by (intros a b; now rewrite <- Zlt_Qlt).
  split; [| split].
  - intros Hnone. unfold minutes, seconds. rewrite Hnone. reflexivity.
  - intros [Hpos Hmin].
    assert (H1 : 0 < minutes) by (apply Hz; change (inject_Z 0) with 0%Q; lra).
    assert (H2 : minutes < 2) by (apply Hz; change (inject_Z 2) with 2%Q; lra).
    lia.
  - intros Hneg. apply Hz. change (inject_Z 0) with 0%Q. lra.
Qed.

Lemma X10_study_time_rounded_up_witness :
  exists row',
    dailyStats (snd (POST 1000 (Sample.review 1 4) noFaults Sample.db)) !! (1, 0)
      = Some row' /\
    ds_studyTimeMinutes row' = 1.
Proof.
  destruct (X10_study_time_rounded_up 1000 (Sample.review 1 4) noFaults Sample.db 1
              (mkReviewSchedule 2.5 15 3 (1000 + 15 * msPerDay) (Some 1000) 1 10)
              eq_refl)
    as (row' & minutes & Hlook & Hsum & _ & _ & Hone & _).
  - vm_compute. reflexivity.
  - exists row'. split; [exact Hlook |]. rewrite Hsum.
    rewrite Hone; [reflexivity |]. split; [reflexivity | discriminate].
Defined.

(** X11.  Requests that are refused before anything is written.  Without a
    session the answer is 401, also when the rating is out of range or the
    card unknown.  For a signed-in user and a rating in range, a card without
    a schedule is answered with 404, whichever later calls would fail; a
    failing lookup of the schedule is answered with 500.  In each case the
    database is unchanged. *)
Theorem X11_refusals_change_nothing
    (now : Z) (request : Request) (faults : Faults) (db : DB) :
  (currentUser request = None ->
     POST now request faults db = (Unauthorized401, db)) /\
  (forall userId,
     currentUser request = Some userId ->
     (0 <= quality (body request) <= 5)%Q ->
     (faults ReviewScheduleFindUnique = true ->
        POST now request faults db = (InternalServerError500, db)) /\
     (faults ReviewScheduleFindUnique = false ->
      reviewSchedules db !! flashcardId (body request) = None ->
        POST now request faults db = (NotFound404, db))).
Proof.
  split; [apply POST_unauthorized |].
  intros userId Huser [Hlo Hhi].
  assert (Hvalid : lt (quality (body request)) 0 || gt (quality (body request)) 5
                   = false).
  { apply orb_false_iff. unfold gt. split; now apply lt_false. }
  rewrite (POST_valid_quality now request faults db userId Huser Hvalid).
  split.
  - intros Hf. now rewrite submitReview_find_fault.
  - intros Hf Hnone. now rewrite submitReview_not_found.
Qed.

Lemma X11_refusals_change_nothing_witness :
  POST 1000 (mkRequest None (mkBody 99 7 None)) noFaults Sample.db
    = (Unauthorized401, Sample.db) /\
  POST 1000 (mkRequest (Some 1) (mkBody 99 4 None)) Sample.dailyStatFails Sample.db
    = (NotFound404, Sample.db).
Proof.
  split.
  - apply (X11_refusals_change_nothing 1000 (mkRequest None (mkBody 99 7 None))
             noFaults Sample.db). reflexivity.
  - apply (X11_refusals_change_nothing 1000
             (mkRequest (Some 1) (mkBody 99 4 None)) Sample.dailyStatFails
             Sample.db) with (userId := 1).
    + reflexivity.
    + split; discriminate.
    + reflexivity.
    + vm_compute. reflexivity.
Defined.

(** X12.  The history of two consecutive committed reviews of one card
    chains: both entries are appended in order, the second entry's
    ease factor and interval "before" are the first entry's "after", and the
    last entry's "after" values are those of the stored schedule. *)
Theorem X12_history_chains
    (now1 now2 : Z) (request1 request2 : Request) (faults1 faults2 : Faults)
    (db : DB) (s1 s2 : ReviewSchedule) :
  flashcardId (body request1) = flashcardId (body request2) ->
  let out1 := POST now1 request1 faults1 db in
  let out2 := POST now2 request2 faults2 (snd out1) in
  fst out1 = Ok200 s1 -> fst out2 = Ok200 s2 ->
  exists e1 e2,
    reviewHistory (snd out2) = reviewHistory db ++ [e1; e2] /\
    rh_easeFactorBefore e2 = rh_easeFactorAfter e1 /\
    rh_intervalBefore e2 = rh_intervalAfter e1 /\
    rh_easeFactorAfter e1 = rs_easeFactor s1 /\
    rh_easeFactorAfter e2 = rs_easeFactor s2 /\
    rh_intervalAfter e2 = rs_interval s2 /\
    reviewSchedules (snd out2) !! flashcardId (body request2) = Some s2.
Proof.
  intros Hcard out1 out2 Hok1 Hok2. unfold out2 in *. unfold out1 in *.
  destruct (POST_ok_inv now1 request1 faults1 db s1 Hok1)
    as (u1 & row1 & Hu1 & Hrow1 & Hs1 & Hdb1).
  destruct (POST_ok_inv now2 request2 faults2 _ s2 Hok2)
    as (u2 & row2 & Hu2 & Hrow2 & Hs2 & Hdb2).
  rewrite Hdb2. rewrite Hdb1 in Hrow2 |- *. simpl in Hrow2.
  rewrite <- Hcard, lookup_insert_eq in Hrow2. injection Hrow2 as <-.
  exists (historyEntry now1 u1 (body request1) row1),
         (historyEntry now2 u2 (body request2)
            (scheduleAfter now1 (quality (body request1)) row1)).
  simpl. rewrite <- app_assoc. simpl.
  rewrite lookup_insert_eq, Hs1, Hs2. repeat split; reflexivity.
Qed.

Lemma X12_history_chains_witness :
  exists e1 e2,
    reviewHistory
      (snd (POST 2000 (Sample.review 1 5) noFaults
              (snd (POST 1000 (Sample.review 1 4) noFaults Sample.db))))
      = [e1; e2] /\
    rh_intervalBefore e2 = rh_intervalAfter e1.
Proof.
  destruct (X12_history_chains 1000 2000 (Sample.review 1 4) (Sample.review 1 5)
              noFaults noFaults Sample.db
              (mkReviewSchedule 2.5 15 3 (1000 + 15 * msPerDay) (Some 1000) 1 10)
              (mkReviewSchedule 2.5 38 4 (2000 + 38 * msPerDay) (Some 2000) 1 10)
              eq_refl)
    as (e1 & e2 & Hh & _ & Hi & _).
  - vm_compute. reflexivity.
  - vm_compute. reflexivity.
  - exists e1, e2. split; [exact Hh | exact Hi].
Defined.

End ReviewMore.

(** ** The due-card query over time and after a review *)

Section DueCardMore.
Import JS Schema Prisma SpacedRepetition Reviews ReviewEffects DueCards.

Lemma dueCards_run (now userId : Z) (db : DB) :
  dueCards now userId noFaults db
  = (Some (sortByDate (omap (dueRow db userId now) (flashcards db))), db).
Proof.
  unfold dueCards. now rewrite flashcard_findMany_due_run.
Qed.

Lemma elem_of_due (now userId : Z) (db : DB) (card : Flashcard)
    (schedule : ReviewSchedule) :
  (card, schedule) ∈ sortByDate (omap (dueRow db userId now) (flashcards db)) <->
  card ∈ flashcards db /\ fc_userId card = userId /\
  reviewSchedules db !! fc_id card = Some schedule /\
  rs_nextReviewDate schedule <= now.
Proof.
  rewrite sortByDate_Permutation, list_elem_of_omap. split.
  - intros (card' & Hin & Hrow). apply dueRow_Some in Hrow.
    destruct Hrow as (-> & Hrow). auto.
  - intros (Hin & Hrow). exists card. split; [assumption |].
    apply dueRow_Some. auto.
Qed.

Lemma due_length_mono (db : DB) (userId now later : Z) (cards : list Flashcard) :
  now <= later ->
  (length (omap (dueRow db userId now) cards)
   <= length (omap (dueRow db userId later) cards))%nat.
Proof.
  intros Hle. induction cards as [| card cards IH]; simpl; [lia |].
  destruct (dueRow db userId now card) as [[c s] |] eqn:Hrow.
  - apply dueRow_Some in Hrow. destruct Hrow as (-> & Hu & Hs & Hd).
    assert (Hrow' : dueRow db userId later card = Some (card, s))
      by (apply dueRow_Some; repeat split; try assumption; lia).
    rewrite Hrow'. simpl. apply le_n_S, IH.
  - destruct (dueRow db userId later card); simpl; [apply le_S, IH | apply IH].
Qed.

(** X13.  The due list only grows with time: on an unchanged database,
    every card listed as due at an instant is listed, with the same
    schedule, at every later instant. *)
Theorem X13_due_list_grows_with_time (now later userId : Z) (db : DB) :
  now <= later ->
  exists rows rows',
    dueCards now userId noFaults db = (Some rows, db) /\
    dueCards later userId noFaults db = (Some rows', db) /\
    rows ⊆ rows' /\
    (length rows <= length rows')%nat.
Proof.
  intros Hle. do 2 eexists.
  split; [apply dueCards_run |]. split; [apply dueCards_run |].
  assert (Hsub : forall row,
            row ∈ omap (dueRow db userId now) (flashcards db) ->
            row ∈ omap (dueRow db userId later) (flashcards db)).
  { intros [card schedule]. rewrite !list_elem_of_omap.
    intros (card' & Hin & Hrow). exists card'. split; [assumption |].
    apply dueRow_Some in Hrow. apply dueRow_Some.
    destruct Hrow as (? & ? & ? & ?). repeat split; try assumption. lia. }
  split.
  - intros row. rewrite !sortByDate_Permutation. apply Hsub.
  - rewrite !sortByDate_Permutation. now apply due_length_mono.
Qed.

Lemma X13_due_list_grows_with_time_witness :
  exists rows rows',
    dueCards 600 1 noFaults Sample.db = (Some rows, Sample.db) /\
    dueCards 700 1 noFaults Sample.db = (Some rows', Sample.db) /\
    rows ⊆ rows'.
Proof.
  destruct (X13_due_list_grows_with_time 600 700 1 Sample.db)
    as (rows & rows' & H1 & H2 & Hsub & _); [lia |].
  exists rows, rows'. auto.
Defined.

(** X14.  A reviewed card leaves the due list until its new date.  After a
    committed review at [now], the due list of any user at any instant shows
    the card only with its new schedule and only from
    [now + interval days] on, and from then on it does show it to the card's
    owner; if the schedule had an interval of at least one day before the
    review, the card is on no due list earlier than one day after the
    review. *)
Theorem X14_reviewed_card_leaves_due_list
    (now : Z) (request : Request) (faults : Faults) (db : DB)
    (s : ReviewSchedule) (asOf userId : Z) :
  fst (POST now request faults db) = Ok200 s ->
  let db' := snd (POST now request faults db) in
  let reviewed := flashcardId (body request) in
  let dueFrom := now + rs_interval s * msPerDay in
  exists rows,
    dueCards asOf userId noFaults db' = (Some rows, db') /\
    (forall card schedule,
       (card, schedule) ∈ rows -> fc_id card = reviewed ->
       schedule = s /\ dueFrom <= asOf) /\
    (forall card,
       card ∈ flashcards db -> fc_id card = reviewed ->
       fc_userId card = userId -> dueFrom <= asOf ->
       (card, s) ∈ rows) /\
    (forall prior,
       reviewSchedules db !! reviewed = Some prior -> 1 <= rs_interval prior ->
       asOf < now + msPerDay ->
       forall card schedule, (card, schedule) ∈ rows -> fc_id card <> reviewed).
Proof.
  intros Hok db' reviewed dueFrom.
  destruct (POST_ok_inv now request faults db s Hok)
    as (u & row & Hu & Hrow & Hs & Hdb).
  assert (Hlook : reviewSchedules db' !! reviewed = Some s).
  { unfold db'. rewrite Hdb. simpl. rewrite lookup_insert_eq. now rewrite Hs. }
  assert (Hcards : flashcards db' = flashcards db)
    by (unfold db'; now rewrite Hdb).
  assert (Hdate : rs_nextReviewDate s = dueFrom).
  { unfold dueFrom. rewrite Hs. unfold scheduleAfter. simpl.
    now rewrite calculateSM2_nextReviewDate. }
  eexists. split; [apply dueCards_run |]. split; [| split].
  - intros card schedule Hin Hid. apply elem_of_due in Hin.
    destruct Hin as (_ & _ & Hsch & Hdue).
    rewrite Hid, Hlook in Hsch.
    assert (Heq : schedule = s) by congruence. subst schedule.
    split; [reflexivity | lia].
  - intros card Hin Hid Howner Hdue. apply elem_of_due.
    rewrite Hcards, Hid, Hlook. repeat split; try assumption. lia.
  - intros prior Hprior Hiv Hearly card schedule Hin Hid.
    apply elem_of_due in Hin. destruct Hin as (_ & _ & Hsch & Hdue).
    rewrite Hid, Hlook in Hsch.
    assert (Heq : schedule = s) by congruence. subst schedule.
    assert (Heq : prior = row) by (unfold reviewed in *; congruence).
    subst prior.
    assert (Hge : 1 <= rs_interval s).
    { rewrite Hs. unfold scheduleAfter. simpl.
      now apply calculateSM2_interval_ge_1. }
    unfold dueFrom, msPerDay in *. nia.
Qed.

Lemma X14_reviewed_card_leaves_due_list_witness :
  exists rows,
    dueCards 2000 1 noFaults
      (snd (POST 1000 (Sample.review 1 4) noFaults Sample.db))
    = (Some rows, snd (POST 1000 (Sample.review 1 4) noFaults Sample.db)) /\
    forall card schedule, (card, schedule) ∈ rows -> fc_id card <> 10.
Proof.
  destruct (X14_reviewed_card_leaves_due_list 1000 (Sample.review 1 4) noFaults
              Sample.db
              (mkReviewSchedule 2.5 15 3 (1000 + 15 * msPerDay) (Some 1000) 1 10)
              2000 1)
    as (rows & Hrun & _ & _ & Hnot).
  - vm_compute. reflexivity.
  - exists rows. split; [exact Hrun |].
    apply (Hnot (mkReviewSchedule 2.5 6 2 500 None 1 10)).
    + vm_compute. reflexivity.
    + simpl. lia.
    + vm_compute. reflexivity.
Defined.

End DueCardMore.

(** ** The schema of a new card *)

Section SchemaFacts.
Import Json FlashcardSchema Invariants.

Lemma zString_Some (minLen maxLen : nat) (v : Value) (s : string) :
  zString minLen maxLen v = Some s <->
  v = JString s /\ (minLen <= String.length s <= maxLen)%nat.
Proof.
  unfold zString. destruct v as [| b | q | s' | items | members];
    try (split; [discriminate | intros [Hv _]; discriminate Hv]).
  destruct (Nat.leb_spec minLen (String.length s'));
    destruct (Nat.leb_spec (String.length s') maxLen); simpl; split.
  all: try (intros Heq; injection Heq as ->; split; [reflexivity | lia]).
  all: try discriminate.
  all: intros [Hv Hlen]; injection Hv as ->; first [reflexivity | lia].
Qed.

Lemma mapM_zText (items : list string) : mapM zText (JString <$> items) = Some items.
Proof.
  apply mapM_Some.
  induction items as [| item items IH]; constructor; [reflexivity | exact IH].
Qed.

Lemma zDifficulty_name (d : Difficulty) :
  zDifficulty (JString (difficultyName d)) = Some d.
Proof. destruct d; reflexivity. Qed.

Lemma member_other (key name : string) (v : Value) members :
  name <> key -> member key ((name, v) :: members) = member key members.
Proof.
  intros Hne. simpl. destruct (member key members); [reflexivity |].
  destruct (String.eqb_spec name key); [contradiction | reflexivity].
Qed.

(** X15.  What [flashcardSchema] lets through.  Every accepted body yields
    an input within the bounds (question of 1 to 500 characters, answer of 1
    to 1000, hint of at most 300 when present); conversely every input within
    the bounds, sent as the object of its fields, is accepted and parsed back
    unchanged. *)
Theorem X15_schema_round_trip :
  (forall body input, safeParse body = Some input -> inputOk input) /\
  (forall input, inputOk input -> safeParse (toJson input) = Some input).
Proof.
  split.
  - intros body input. unfold safeParse.
    destruct body as [| | | | | members]; try discriminate.
    destruct (member "question" members) as [vq |]; [| discriminate]. simpl.
    destruct (zString 1 500 vq) as [q |] eqn:Hq; [| discriminate]. simpl.
    destruct (member "answer" members) as [va |]; [| discriminate]. simpl.
    destruct (zString 1 1000 va) as [a |] eqn:Ha; [| discriminate]. simpl.
    apply zString_Some in Hq, Ha.
    assert (Hhint : forall oh, optional (zString 0 300) (member "hint" members)
                               = Some oh ->
                     forall h, oh = Some h -> (String.length h <= 300)%nat).
    { intros oh. unfold optional.
      destruct (member "hint" members) as [vh |].
      - destruct (zString 0 300 vh) as [h' |] eqn:Hh; [| discriminate].
        simpl. intros [= <-] h [= <-]. apply zString_Some in Hh. lia.
      - intros [= <-]. discriminate. }
    destruct (optional (zString 0 300) (member "hint" members)) as [oh |];
      [| discriminate]. simpl.
    destruct (optional zNumber (member "categoryId" members)); [| discriminate].
    simpl.
    destruct (withDefault medium zDifficulty (member "difficulty" members));
      [| discriminate]. simpl.
    destruct (withDefault [] zStringArray (member "tags" members));
      [| discriminate]. simpl.
    intros [= <-]. unfold inputOk. simpl.
    split; [lia |]. split; [lia |]. now apply Hhint.
  - intros [q a h c d t] (Hq & Ha & Hh). simpl in Hq, Ha, Hh.
    set (input := mkFlashcardInput q a h c d t).
    assert (Hmq : member "question" (toMembers input) = Some (JString q))
      by (destruct h, c; reflexivity).
    assert (Hma : member "answer" (toMembers input) = Some (JString a))
      by (destruct h, c; reflexivity).
    assert (Hmh : member "hint" (toMembers input) = JString <$> h)
      by (destruct h, c; reflexivity).
    assert (Hmc : member "categoryId" (toMembers input) = JNumber <$> c)
      by (destruct h, c; reflexivity).
    assert (Hmd : member "difficulty" (toMembers input)
                  = Some (JString (difficultyName d)))
      by (destruct h, c; reflexivity).
    assert (Hmt : member "tags" (toMembers input) = Some (JArray (JString <$> t)))
      by (destruct h, c; reflexivity).
    assert (Hzq : zString 1 500 (JString q) = Some q)
      by (apply zString_Some; auto).
    assert (Hza : zString 1 1000 (JString a) = Some a)
      by (apply zString_Some; auto).
    assert (Hzh : optional (zString 0 300) (JString <$> h) = Some h).
    { destruct h as [h |]; [| reflexivity].
      assert (Hz : zString 0 300 (JString h) = Some h).
      { apply zString_Some. split; [reflexivity |].
        specialize (Hh h eq_refl). lia. }
      change (Some <$> zString 0 300 (JString h) = Some (Some h)).
      now rewrite Hz. }
    assert (Hzc : optional zNumber (JNumber <$> c) = Some c)
      by (destruct c; reflexivity).
    unfold toJson, safeParse.
    rewrite Hmq, Hma, Hmh, Hmc, Hmd, Hmt.
    unfold required, withDefault, zStringArray.
    rewrite Hzq, Hza, Hzh, Hzc, zDifficulty_name, mapM_zText. reflexivity.
Qed.

Lemma X15_schema_round_trip_witness :
  safeParse (toJson (mkFlashcardInput "What is React?" "A library" None
                       (Some 1%Q) easy ["js"]))
  = Some (mkFlashcardInput "What is React?" "A library" None (Some 1%Q) easy ["js"]).
Proof.
  apply X15_schema_round_trip. unfold inputOk. simpl.
  split; [lia |]. split; [lia |]. discriminate.
Defined.

Lemma member_insert_other (key name : string) (v : Value) before after :
  name <> key ->
  member key (before ++ (name, v) :: after) = member key (before ++ after).
Proof.
  intros Hne. induction before as [| [k w] before IH]; simpl.
  - destruct (member key after); [reflexivity |].
    destruct (String.eqb_spec name key); [contradiction | reflexivity].
  - now rewrite IH.
Qed.

(** X16.  Members that the schema does not name are ignored: a body with an
    additional member, wherever it stands and whatever its value, is accepted
    or rejected exactly like the body without it, with the same parsed
    input. *)
Theorem X16_unknown_members_ignored
    (name : string) (v : Value) (before after : list (string * Value)) :
  name ∉ schemaKeys ->
  safeParse (JObject (before ++ (name, v) :: after))
  = safeParse (JObject (before ++ after)).
Proof.
  intros Hname. unfold safeParse.
  assert (Hkey : forall key, key ∈ schemaKeys ->
            member key (before ++ (name, v) :: after) = member key (before ++ after)).
  { intros key Hin. apply member_insert_other. intros ->. contradiction. }
  rewrite !Hkey by (unfold schemaKeys; set_solver). reflexivity.
Qed.

Lemma X16_unknown_members_ignored_witness :
  safeParse (JObject [("question", JString "q"); ("userId", JNumber 7);
                      ("answer", JString "a")])
  = safeParse (JObject [("question", JString "q"); ("answer", JString "a")]).
Proof.
  apply (X16_unknown_members_ignored "userId" (JNumber 7)
           [("question", JString "q")] [("answer", JString "a")]).
  unfold schemaKeys. intros Hin.
  repeat (apply elem_of_cons in Hin; destruct Hin as [Hin | Hin];
          [discriminate Hin |]).
  now apply elem_of_nil in Hin.
Defined.

End SchemaFacts.

(** ** Creating a card *)

Section CardFacts.
Import JS Schema Prisma FlashcardSchema Cards Invariants.

Lemma existsb_id (id : Z) (cards : list Flashcard) :
  existsb (fun c => fc_id c =? id) cards = true <-> id ∈ (fc_id <$> cards).
Proof.
  rewrite existsb_exists, list_elem_of_fmap. split.
  - intros (c & Hin & Heq). apply Z.eqb_eq in Heq. exists c. split; [auto |].
    now apply list_elem_of_In.
  - intros (c & -> & Hin). exists c. split; [now apply list_elem_of_In |].
    apply Z.eqb_refl.
Qed.

Lemma flashcard_create_Some (env : Insertion) (now userId : Z)
    (data : FlashcardInput) (st : Store) card content schedule st' :
  flashcard_create env now userId data st = Some (card, content, schedule, st') <->
  accepted env = true /\ freshId (newId env) (tables st) /\
  card = mkFlashcard (newId env) userId /\
  content = mkCardContent (question data) (answer data) (hint data)
              (categoryId data) (difficulty data) (tags data) now /\
  schedule = mkReviewSchedule 2.5 1 0 (now + msPerDay) None userId (newId env) /\
  st' = mkStore
          (mkDB (flashcards (tables st) ++ [card])
                (<[newId env := schedule]> (reviewSchedules (tables st)))
                (reviewHistory (tables st)) (dailyStats (tables st))
                (studyStreaks (tables st)))
          (<[newId env := content]> (contents st)).
Proof.
  unfold flashcard_create, freshId.
  destruct (accepted env); simpl.
  2: { split; [discriminate | intros (H & _); discriminate H]. }
  destruct (existsb (fun c => fc_id c =? newId env) (flashcards (tables st)))
    eqn:Hcard.
  { apply existsb_id in Hcard.
    split; [discriminate | intros (_ & (H & _) & _); contradiction]. }
  assert (Hnot : newId env ∉ (fc_id <$> flashcards (tables st))).
  { intros Hin. apply existsb_id in Hin. congruence. }
  destruct (reviewSchedules (tables st) !! newId env) as [found |] eqn:Hsched.
  { rewrite bool_decide_eq_true_2 by eauto.
    split; [discriminate | intros (_ & (_ & H) & _); discriminate H]. }
  rewrite bool_decide_eq_false_2 by (intros [? H]; discriminate H).
  split.
  - intros [= <- <- <- <-]. repeat split; auto.
  - intros (_ & _ & -> & -> & -> & ->). reflexivity.
Qed.

Lemma flashcard_create_None (env : Insertion) (now userId : Z)
    (data : FlashcardInput) (st : Store) :
  flashcard_create env now userId data st = None <->
  accepted env = false \/ newId env ∈ (fc_id <$> flashcards (tables st)) \/
  is_Some (reviewSchedules (tables st) !! newId env).
Proof.
  unfold flashcard_create.
  destruct (accepted env); simpl; [| split; auto].
  destruct (existsb (fun c => fc_id c =? newId env) (flashcards (tables st)))
    eqn:Hcard.
  { apply existsb_id in Hcard. split; auto. }
  assert (Hnot : newId env ∉ (fc_id <$> flashcards (tables st))).
  { intros Hin. apply existsb_id in Hin. congruence. }
  destruct (reviewSchedules (tables st) !! newId env) as [found |] eqn:Hsched.
  { rewrite bool_decide_eq_true_2 by eauto. split; eauto. }
  rewrite bool_decide_eq_false_2 by (intros [? H]; discriminate H).
  split; [discriminate |].
  intros [H | [H | [? H]]]; [discriminate | contradiction | discriminate].
Qed.

(** X17.  A created card and its first schedule.  For a signed-in user, a
    body that passes the schema, an accepting storage engine and an unused
    identifier, the answer is 201; the card belongs to the user; its schedule
    has ease factor 2.5, interval 1, 0 repetitions, is due 24 hours later and
    has never been reviewed; its content is the parsed input, created now.  Afterwards
    the card is the last row of the card table and its schedule and content
    are found under its identifier; every other schedule and content, the
    history, the daily statistics and the streaks are as before. *)
Theorem X17_created_card_and_schedule
    (now : Z) (env : Insertion) (request : Request) (st : Store)
    (userId : Z) (json : Json.Value) (data : FlashcardInput) :
  currentUser request = Some userId ->
  body request = Some json ->
  safeParse json = Some data ->
  accepted env = true ->
  freshId (newId env) (tables st) ->
  let card := mkFlashcard (newId env) userId in
  let schedule := mkReviewSchedule 2.5 1 0 (now + msPerDay) None userId (newId env) in
  let content := mkCardContent (question data) (answer data) (hint data)
                   (categoryId data) (difficulty data) (tags data) now in
  exists st',
    POST now env request st = (Created201 card content schedule, st') /\
    flashcards (tables st') = flashcards (tables st) ++ [card] /\
    reviewSchedules (tables st') !! newId env = Some schedule /\
    contents st' !! newId env = Some content /\
    (forall id, id <> newId env ->
       reviewSchedules (tables st') !! id = reviewSchedules (tables st) !! id /\
       contents st' !! id = contents st !! id) /\
    reviewHistory (tables st') = reviewHistory (tables st) /\
    dailyStats (tables st') = dailyStats (tables st) /\
    studyStreaks (tables st') = studyStreaks (tables st).
Proof.
  intros Huser Hbody Hparse Hacc Hfresh card schedule content.
  eexists. split.
  - unfold POST. rewrite Huser, Hbody, Hparse.
    erewrite (proj2 (flashcard_create_Some env now userId data st _ _ _ _));
      [reflexivity |].
    repeat split; try reflexivity; try assumption; apply Hfresh.
  - simpl. rewrite !lookup_insert_eq. repeat split; try reflexivity.
    + now rewrite lookup_insert_ne.
    + now rewrite lookup_insert_ne.
Qed.

Lemma X17_created_card_and_schedule_witness :
  exists st',
    POST 5000 (mkInsertion true 1)
      (mkRequest (Some 7)
         (Some (Json.JObject [("question", Json.JString "q");
                              ("answer", Json.JString "a")])))
      emptyStore
    = (Created201 (mkFlashcard 1 7) (mkCardContent "q" "a" None None medium [] 5000)
         (mkReviewSchedule 2.5 1 0 (5000 + msPerDay) None 7 1), st').
Proof.
  destruct (X17_created_card_and_schedule 5000 (mkInsertion true 1)
              (mkRequest (Some 7)
                 (Some (Json.JObject [("question", Json.JString "q");
                                      ("answer", Json.JString "a")])))
              emptyStore 7 _ (mkFlashcardInput "q" "a" None None medium [])
              eq_refl eq_refl eq_refl eq_refl)
    as (st' & Hrun & _).
  - split; [| reflexivity]. simpl. apply not_elem_of_nil.
  - exists st'. exact Hrun.
Defined.

(** X18.  When no card is created.  The answer is 201 only for a signed-in
    user whose body passes the schema, with an accepting storage engine and
    an unused identifier.  Without a session the answer is 401; a malformed
    body is answered with 500, a body that fails the schema with 400, a
    refusal of the storage engine or an identifier in use with 500.  In all
    these cases nothing is stored. *)
Theorem X18_rejected_creation_stores_nothing
    (now : Z) (env : Insertion) (request : Request) (st : Store) :
  let out := POST now env request st in
  ((exists card content schedule, fst out = Created201 card content schedule) <->
   exists userId json data,
     currentUser request = Some userId /\ body request = Some json /\
     safeParse json = Some data /\ accepted env = true /\
     freshId (newId env) (tables st)) /\
  ((forall card content schedule, fst out <> Created201 card content schedule) ->
   snd out = st) /\
  (currentUser request = None -> fst out = Unauthorized401) /\
  (forall userId, currentUser request = Some userId ->
     (body request = None -> fst out = InternalServerError500) /\
     (forall json, body request = Some json ->
        (safeParse json = None -> fst out = BadRequest400) /\
        (forall data, safeParse json = Some data ->
           accepted env = false \/ ~ freshId (newId env) (tables st) ->
           fst out = InternalServerError500))).
Proof.
  cbv zeta. unfold POST.
  destruct (currentUser request) as [userId |] eqn:Huser; simpl.
  2: { split; [split; [intros (? & ? & ? & H); discriminate H
                      | intros (? & ? & ? & H & _); discriminate H] |].
       split; [reflexivity |]. split; [reflexivity |]. discriminate. }
  destruct (body request) as [json |] eqn:Hbody; simpl.
  2: { split; [split; [intros (? & ? & ? & H); discriminate H
                      | intros (? & ? & ? & _ & H & _); discriminate H] |].
       split; [reflexivity |]. split; [discriminate |].
       intros u _. split; [reflexivity | discriminate]. }
  destruct (safeParse json) as [data |] eqn:Hparse; simpl.
  2: { split; [split; [intros (? & ? & ? & H); discriminate H
                      | intros (? & j & ? & _ & [= <-] & H & _); congruence] |].
       split; [reflexivity |]. split; [discriminate |].
       intros u _. split; [discriminate |]. intros j [= <-].
       split; [reflexivity | congruence]. }
  destruct (flashcard_create env now userId data st)
    as [[[[card content] schedule] st'] |] eqn:Hcreate; simpl.
  - apply flashcard_create_Some in Hcreate.
    destruct Hcreate as (Hacc & Hfresh & _).
    split; [split; [intros _; exists userId, json, data; auto | eauto] |].
    split; [intros H; exfalso; eapply H; reflexivity |].
    split; [discriminate |].
    intros u _. split; [discriminate |]. intros j [= <-].
    split; [congruence |]. intros d _ [H | H]; [congruence | contradiction].
  - apply flashcard_create_None in Hcreate.
    split.
    { split; [intros (? & ? & ? & H); discriminate H |].
      intros (u & j & d & [= <-] & [= <-] & Hd & Hacc & Hnot & Hnone).
      destruct Hcreate as [H | [H | [? H]]]; [congruence | contradiction | congruence]. }
    split; [reflexivity |]. split; [discriminate |].
    intros u _. split; [discriminate |]. intros j [= <-].
    split; [congruence | reflexivity].
Qed.

Lemma X18_rejected_creation_stores_nothing_witness :
  POST 5000 (mkInsertion true 1)
    (mkRequest (Some 7) (Some (Json.JObject [("question", Json.JString "")])))
    emptyStore
  = (BadRequest400, emptyStore).
Proof.
  pose proof (X18_rejected_creation_stores_nothing 5000 (mkInsertion true 1)
                (mkRequest (Some 7)
                   (Some (Json.JObject [("question", Json.JString "")])))
                emptyStore) as (_ & Hsame & _ & Hcases).
  cbv zeta in Hsame, Hcases.
  destruct (Hcases 7 eq_refl) as [_ Hjson].
  destruct (Hjson _ eq_refl) as [Hbad _].
  specialize (Hbad eq_refl).
  apply injective_projections; [exact Hbad |].
  apply Hsame. intros card content schedule. rewrite Hbad. discriminate.
Defined.

Lemma POST_created_inv (now : Z) (env : Insertion) (request : Request) (st : Store)
    card content schedule :
  fst (POST now env request st) = Created201 card content schedule ->
  exists userId json data,
    currentUser request = Some userId /\ body request = Some json /\
    safeParse json = Some data /\
    flashcard_create env now userId data st
      = Some (card, content, schedule, snd (POST now env request st)).
Proof.
  unfold POST.
  destruct (currentUser request) as [userId |]; [| discriminate].
  destruct (body request) as [json |]; [| discriminate].
  destruct (safeParse json) as [data |] eqn:Hparse; [| discriminate].
  destruct (flashcard_create env now userId data st)
    as [[[[c k] s] st'] |] eqn:Hcreate; [| discriminate].
  simpl. intros [= <- <- <-]. exists userId, json, data. auto.
Qed.

(** X19.  A new card enters the due list a day after its creation.  After a
    creation answered with 201, the due list of a user at an instant shows
    the new card, with its first schedule, exactly when the user is the
    card's owner and the instant is at least 24 hours after the creation; for
    every other card the due lists before and after the creation agree. *)
Theorem X19_new_card_due_after_a_day
    (now : Z) (env : Insertion) (request : Request) (st : Store)
    card content schedule (asOf userId : Z) :
  fst (POST now env request st) = Created201 card content schedule ->
  let st' := snd (POST now env request st) in
  exists rows before,
    DueCards.dueCards asOf userId noFaults (tables st') = (Some rows, tables st') /\
    DueCards.dueCards asOf userId noFaults (tables st) = (Some before, tables st) /\
    ((card, schedule) ∈ rows <-> fc_userId card = userId /\ now + msPerDay <= asOf) /\
    (forall c s, fc_id c <> fc_id card -> (c, s) ∈ rows <-> (c, s) ∈ before).
Proof.
  intros Hok st'.
  destruct (POST_created_inv now env request st card content schedule Hok)
    as (owner & json & data & _ & _ & _ & Hcreate).
  fold st' in Hcreate. apply flashcard_create_Some in Hcreate.
  destruct Hcreate as (_ & [Hnew _] & Hcard & _ & Hsched & Hst).
  subst card schedule.
  do 2 eexists. split; [apply dueCards_run |]. split; [apply dueCards_run |].
  split.
  - rewrite elem_of_due, Hst. simpl. rewrite lookup_insert_eq.
    rewrite elem_of_app, list_elem_of_singleton.
    split.
    + intros (_ & Hu & _ & Hdue). auto.
    + intros (Hu & Hdue). auto.
  - intros c s Hne. simpl in Hne. rewrite !elem_of_due, Hst. simpl.
    rewrite lookup_insert_ne by congruence.
    rewrite elem_of_app, list_elem_of_singleton.
    split.
    + intros ([Hin | ->] & Hrest); [auto |]. simpl in Hne. contradiction.
    + intros (Hin & Hrest). auto.
Qed.

Lemma X19_new_card_due_after_a_day_witness :
  exists rows,
    DueCards.dueCards 6000 7 noFaults
      (tables (snd (POST 5000 (mkInsertion true 1)
                      (mkRequest (Some 7)
                         (Some (Json.JObject [("question", Json.JString "q");
                                              ("answer", Json.JString "a")])))
                      emptyStore)))
    = (Some rows,
       tables (snd (POST 5000 (mkInsertion true 1)
                      (mkRequest (Some 7)
                         (Some (Json.JObject [("question", Json.JString "q");
                                              ("answer", Json.JString "a")])))
                      emptyStore))) /\
    (mkFlashcard 1 7, mkReviewSchedule 2.5 1 0 (5000 + msPerDay) None 7 1) ∉ rows.
Proof.
  destruct (X19_new_card_due_after_a_day 5000 (mkInsertion true 1)
              (mkRequest (Some 7)
                 (Some (Json.JObject [("question", Json.JString "q");
                                      ("answer", Json.JString "a")])))
              emptyStore (mkFlashcard 1 7)
              (mkCardContent "q" "a" None None medium [] 5000)
              (mkReviewSchedule 2.5 1 0 (5000 + msPerDay) None 7 1) 6000 7 eq_refl)
    as (rows & before & Hrun & _ & Hiff & _).
  exists rows. split; [exact Hrun |].
  intros Hin. apply Hiff in Hin. destruct Hin as [_ Hdue].
  vm_compute in Hdue. apply Hdue. reflexivity.
Defined.

(** X20.  The first review of a new card.  After a creation answered with
    201, a review of the card with a rating in [0,5] is committed (when no
    call fails) and always schedules the card for the next day: the interval
    is 1 whatever the rating, the repetition count is 1 for a rating of at
    least 3 and 0 below, and the ease factor stays between 1.3 and the 2.5 it
    started with.  The schedule still belongs to the card's owner, whoever
    submitted the review. *)
Theorem X20_first_review_of_new_card
    (now : Z) (env : Insertion) (request : Request) (st : Store)
    card content schedule (later reviewer : Z) (rating : Q) (seconds : option Q) :
  fst (POST now env request st) = Created201 card content schedule ->
  (0 <= rating <= 5)%Q ->
  let st' := snd (POST now env request st) in
  exists after db',
    Reviews.POST later
      (Reviews.mkRequest (Some reviewer)
         (Reviews.mkBody (fc_id card) rating seconds))
      noFaults (tables st')
    = (Reviews.Ok200 after, db') /\
    rs_interval after = 1 /\
    rs_nextReviewDate after = later + msPerDay /\
    ((3 <= rating)%Q -> rs_repetitions after = 1) /\
    ((rating < 3)%Q -> rs_repetitions after = 0) /\
    (1.3 <= rs_easeFactor after <= 2.5)%Q /\
    rs_lastReviewedAt after = Some later /\
    rs_userId after = fc_userId card.
Proof.
  intros Hok [Hlo Hhi] st'.
  destruct (POST_created_inv now env request st card content schedule Hok)
    as (owner & json & data & _ & _ & _ & Hcreate).
  fold st' in Hcreate. apply flashcard_create_Some in Hcreate.
  destruct Hcreate as (_ & _ & Hcard & _ & Hsched & Hst).
  assert (Hrow : reviewSchedules (tables st') !! fc_id card = Some schedule).
  { rewrite Hst, Hcard. simpl. apply lookup_insert_eq. }
  assert (Hvalid : lt rating 0 || gt rating 5 = false).
  { apply orb_false_iff. unfold gt. split; now apply lt_false. }
  do 2 eexists. split.
  { apply (POST_any_user later reviewer
             (Reviews.mkBody (fc_id card) rating seconds) (tables st') schedule
             Hvalid Hrow). }
  unfold ReviewEffects.scheduleAfter. simpl. rewrite Hsched. simpl.
  set (result := SpacedRepetition.calculateSM2 later rating 0 2.5 1).
  assert (Hinterval : SpacedRepetition.interval result = 1).
  { unfold result. destruct (lt rating 3) eqn:Hq.
    - now destruct (calculateSM2_incorrect later rating 0 2.5 1 Hq).
    - now destruct (calculateSM2_correct later rating 0 2.5 1 Hq) as [_ ->]. }
  split; [exact Hinterval |]. split.
  { unfold result. rewrite calculateSM2_nextReviewDate. fold result.
    rewrite Hinterval. unfold addDays. lia. }
  split.
  { intros Hq. apply lt_false in Hq. unfold result.
    now destruct (calculateSM2_correct later rating 0 2.5 1 Hq) as [-> _]. }
  split.
  { intros Hq. apply lt_true in Hq. unfold result.
    now destruct (calculateSM2_incorrect later rating 0 2.5 1 Hq) as [_ ->]. }
  split.
  { unfold result. rewrite calculateSM2_easeFactor.
    pose proof (clamp_cases
                  (2.5 + (0.1 - (5 - rating) * (0.08 + (5 - rating) * 0.02)))%Q)
      as Hc. cbv zeta in Hc. lra. }
  split; [reflexivity |]. rewrite Hcard. reflexivity.
Qed.

Lemma X20_first_review_of_new_card_witness :
  exists after db',
    Reviews.POST 9000 (Reviews.mkRequest (Some 7) (Reviews.mkBody 1 5 None))
      noFaults
      (tables (snd (POST 5000 (mkInsertion true 1)
                      (mkRequest (Some 7)
                         (Some (Json.JObject [("question", Json.JString "q");
                                              ("answer", Json.JString "a")])))
                      emptyStore)))
    = (Reviews.Ok200 after, db') /\
    rs_interval after = 1 /\ rs_repetitions after = 1.
Proof.
  destruct (X20_first_review_of_new_card 5000 (mkInsertion true 1)
              (mkRequest (Some 7)
                 (Some (Json.JObject [("question", Json.JString "q");
                                      ("answer", Json.JString "a")])))
              emptyStore (mkFlashcard 1 7)
              (mkCardContent "q" "a" None None medium [] 5000)
              (mkReviewSchedule 2.5 1 0 (5000 + msPerDay) None 7 1)
              9000 7 5 None eq_refl)
    as (after & db' & Hrun & Hi & _ & Hr & _).
  - split; discriminate.
  - exists after, db'. split; [exact Hrun |]. split; [exact Hi |].
    apply Hr. discriminate.
Defined.

End CardFacts.

(** ** Deleting a card *)

Section DeleteFacts.
Import JS Schema Prisma Cards Invariants.

Lemma elem_of_bool_filter {A} (f : A -> bool) (l : list A) (x : A) :
  x ∈ List.filter f l <-> x ∈ l /\ f x = true.
Proof. rewrite !list_elem_of_In. apply filter_In. Qed.

Lemma flashcard_delete_run (id : Z) (st : Store) :
  id ∈ (fc_id <$> flashcards (tables st)) ->
  flashcard_delete true id st =
    inr {| tables :=
             {| flashcards :=
                  List.filter (fun c => negb (fc_id c =? id)) (flashcards (tables st));
                reviewSchedules := delete id (reviewSchedules (tables st));
                reviewHistory :=
                  List.filter (fun h => negb (rh_flashcardId h =? id))
                              (reviewHistory (tables st));
                dailyStats := dailyStats (tables st);
                studyStreaks := studyStreaks (tables st) |};
           contents := delete id (contents st) |}.
Proof.
  intros Hin. apply existsb_id in Hin. unfold flashcard_delete. simpl.
  now rewrite Hin.
Qed.

Lemma negb_eqb_true (a b : Z) : negb (a =? b) = true <-> a <> b.
Proof. rewrite negb_true_iff. apply Z.eqb_neq. Qed.

(** X21.  Deleting a card cascades to what refers to it and to nothing
    else.  When the card exists and the storage engine accepts the call, the
    card, its schedule, its content and every history entry of the card are
    gone; every other card, schedule, content and history entry is kept; the
    daily statistics and the study streaks are untouched.  A refused call and
    the deletion of an unknown card fail. *)
Theorem X21_delete_cascades (id : Z) (st : Store) :
  (id ∈ (fc_id <$> flashcards (tables st)) ->
   exists st',
     flashcard_delete true id st = inr st' /\
     (forall c, c ∈ flashcards (tables st') <->
                c ∈ flashcards (tables st) /\ fc_id c <> id) /\
     (forall k, reviewSchedules (tables st') !! k =
                if decide (k = id) then None else reviewSchedules (tables st) !! k) /\
     (forall k, contents st' !! k =
                if decide (k = id) then None else contents st !! k) /\
     (forall h, h ∈ reviewHistory (tables st') <->
                h ∈ reviewHistory (tables st) /\ rh_flashcardId h <> id) /\
     dailyStats (tables st') = dailyStats (tables st) /\
     studyStreaks (tables st') = studyStreaks (tables st)) /\
  flashcard_delete false id st = inl DeleteRefused /\
  (id ∉ (fc_id <$> flashcards (tables st)) ->
   flashcard_delete true id st = inl DeleteNotFound).
Proof.
  split; [| split].
  - intros Hin. eexists. split; [now apply flashcard_delete_run |]. simpl.
    split; [| split; [| split; [| split]]].
    + intros c. rewrite elem_of_bool_filter, negb_eqb_true. reflexivity.
    + intros k. rewrite lookup_delete. destruct (decide (id = k)) as [-> | Hne].
      * now rewrite decide_True.
      * now rewrite decide_False by congruence.
    + intros k. rewrite lookup_delete. destruct (decide (id = k)) as [-> | Hne].
      * now rewrite decide_True.
      * now rewrite decide_False by congruence.
    + intros h. rewrite elem_of_bool_filter, negb_eqb_true. reflexivity.
    + split; reflexivity.
  - reflexivity.
  - intros Hnot. unfold flashcard_delete. simpl.
    destruct (existsb (fun c => fc_id c =? id) (flashcards (tables st))) eqn:He;
      [| reflexivity].
    apply existsb_id in He. contradiction.
Qed.

Lemma X21_delete_cascades_witness :
  exists st',
    flashcard_delete true 10 (mkStore Sample.db ∅) = inr st' /\
    reviewSchedules (tables st') !! 10 = None /\
    reviewSchedules (tables st') !! 11 = reviewSchedules Sample.db !! 11.
Proof.
  destruct (X21_delete_cascades 10 (mkStore Sample.db ∅)) as [Hdel _].
  destruct Hdel as (st' & Hrun & _ & Hsched & _).
  - simpl. apply elem_of_cons. now left.
  - exists st'. split; [exact Hrun |]. split.
    + rewrite Hsched. reflexivity.
    + rewrite Hsched. reflexivity.
Defined.

(** X22.  A deleted card can no longer be reviewed and is on no due list:
    after a successful deletion, a review of the card by a signed-in user
    with a rating in range is answered with 404 and changes nothing, and the
    due list of no user at no instant contains the card. *)
Theorem X22_deleted_card_is_gone
    (id : Z) (st st' : Store) (now reviewer : Z) (rating : Q) (seconds : option Q)
    (faults : Faults) (asOf userId : Z) :
  flashcard_delete true id st = inr st' ->
  (0 <= rating <= 5)%Q ->
  faults ReviewScheduleFindUnique = false ->
  Reviews.POST now
    (Reviews.mkRequest (Some reviewer) (Reviews.mkBody id rating seconds))
    faults (tables st')
  = (Reviews.NotFound404, tables st') /\
  exists rows,
    DueCards.dueCards asOf userId noFaults (tables st') = (Some rows, tables st') /\
    forall card schedule, (card, schedule) ∈ rows -> fc_id card <> id.
Proof.
  intros Hdel [Hlo Hhi] Hfind.
  assert (Hst : reviewSchedules (tables st') !! id = None /\
                forall c, c ∈ flashcards (tables st') -> fc_id c <> id).
  { unfold flashcard_delete in Hdel. simpl in Hdel.
    destruct (existsb (fun c => fc_id c =? id) (flashcards (tables st)));
      [| discriminate].
    injection Hdel as <-. simpl. split; [apply lookup_delete_eq |].
    intros c Hin. apply elem_of_bool_filter in Hin. now apply negb_eqb_true. }
  destruct Hst as [Hnone Hcards]. split.
  - apply (POST_missing_schedule now _ faults (tables st') reviewer);
      [reflexivity | | assumption | exact Hnone].
    simpl. apply orb_false_iff. unfold gt. split; now apply lt_false.
  - eexists. split; [apply dueCards_run |].
    intros card schedule Hin. apply elem_of_due in Hin.
    destruct Hin as (Hin & _). now apply Hcards.
Qed.

Lemma X22_deleted_card_is_gone_witness :
  exists st',
    flashcard_delete true 10 (mkStore Sample.db ∅) = inr st' /\
    Reviews.POST 1000 (Sample.review 1 4) noFaults (tables st')
    = (Reviews.NotFound404, tables st').
Proof.
  eexists. split; [reflexivity |].
  eapply (X22_deleted_card_is_gone 10 (mkStore Sample.db ∅) _ 1000 1 4
            (Some 8%Q) noFaults 0 1).
  - reflexivity.
  - split; discriminate.
  - reflexivity.
Defined.

End DeleteFacts.

(** ** Consistency of the store over sequences of requests *)

Section TraceFacts.
Import JS Schema Prisma SpacedRepetition ReviewEffects FlashcardSchema Cards
  Invariants Trace.

Lemma storeOk_empty : storeOk emptyStore.
Proof.
  assert (Hnone : forall (A : Type) (id : Z),
            is_Some ((∅ : gmap Z A) !! id) <-> id ∈ (fc_id <$> @nil Flashcard)).
  { intros A id. split.
    - intros [found H]. rewrite lookup_empty in H. discriminate H.
    - intros H. now apply elem_of_nil in H. }
  unfold storeOk, emptyStore. simpl.
  split; [apply map_Forall_empty |]. split; [apply map_Forall_empty |].
  split; [apply map_Forall_empty |]. split; [apply NoDup_nil_2 |].
  split; [apply Hnone |].
  split; [intros card H; now apply elem_of_nil in H |].
  split; [apply Hnone |].
  intros entry H. now apply elem_of_nil in H.
Qed.

Lemma storeOk_create (now : Z) (env : Insertion) (request : Request) (st : Store) :
  storeOk st -> storeOk (snd (POST now env request st)).
Proof.
  intros Hok.
  destruct (fst (POST now env request st)) as [| | card content schedule |] eqn:Hresp.
  1, 2, 4: (unfold POST in *;
    destruct (currentUser request); [| exact Hok];
    destruct (body request) as [json |]; [| exact Hok];
    destruct (safeParse json) as [data |]; [| exact Hok];
    destruct (flashcard_create env now z data st) as [[[[c k] s] st'] |];
      [discriminate Hresp | exact Hok]).
  destruct (POST_created_inv now env request st card content schedule Hresp)
    as (owner & json & data & _ & _ & _ & Hcreate).
  apply flashcard_create_Some in Hcreate.
  destruct Hcreate as (_ & [Hnew Hnone] & Hcard & _ & Hsched & ->).
  destruct Hok as (H1 & H2 & H3 & H4 & H5 & H6 & H7 & H8).
  unfold storeOk. simpl. rewrite fmap_app. simpl.
  assert (Hid : fc_id card = newId env) by (now rewrite Hcard).
  rewrite Hid.
  split; [| split; [| split; [| split; [| split; [| split; [| split]]]]]];
    try assumption.
  - apply map_Forall_insert_2; [| assumption].
    rewrite Hsched. unfold scheduleOk. simpl.
    repeat split; (discriminate || lia).
  - apply NoDup_app. split; [assumption |]. split; [| apply NoDup_singleton].
    intros x Hx Hin. apply list_elem_of_singleton in Hin. congruence.
  - intros id. rewrite elem_of_app, list_elem_of_singleton.
    destruct (decide (id = newId env)) as [-> | Hne].
    + rewrite lookup_insert_eq. split; eauto.
    + rewrite lookup_insert_ne by congruence. rewrite H5. tauto.
  - intros c Hin. apply elem_of_app in Hin. destruct Hin as [Hin | Hin].
    + assert (Hne : fc_id c <> newId env).
      { intros Heq. apply Hnew. rewrite <- Heq.
        apply list_elem_of_fmap. eauto. }
      rewrite lookup_insert_ne by congruence. now apply H6.
    + apply list_elem_of_singleton in Hin. subst c. rewrite Hid.
      rewrite lookup_insert_eq. eexists. split; [reflexivity |].
      rewrite Hsched, Hcard. split; reflexivity.
  - intros id. rewrite elem_of_app, list_elem_of_singleton.
    destruct (decide (id = newId env)) as [-> | Hne].
    + rewrite lookup_insert_eq. split; eauto.
    + rewrite lookup_insert_ne by congruence. rewrite H7. tauto.
  - intros entry Hin. apply elem_of_app. left. now apply H8.
Qed.

Lemma storeOk_review (now : Z) (request : Reviews.Request) (faults : Faults)
    (st : Store) :
  storeOk st ->
  storeOk (mkStore (snd (Reviews.POST now request faults (tables st))) (contents st)).
Proof.
  intros Hok. destruct st as [db cont]. simpl in *.
  outcome_cases now request faults db; simpl; try exact Hok.
  destruct Hok as (H1 & H2 & H3 & H4 & H5 & H6 & H7 & H8). simpl in *.
  unfold storeOk, committed, historyEntry. simpl.
  set (fid := Reviews.flashcardId (Reviews.body request)) in *.
  clearbody fid.
  assert (Hfid : fid ∈ (fc_id <$> flashcards db)) by (apply H5; eauto).
  split; [| split; [| split; [| split; [| split; [| split; [| split]]]]]];
    try assumption.
  - apply map_Forall_insert_2; [| assumption].
    apply scheduleAfter_ok. exact (H1 _ _ Hrow).
  - apply map_Forall_insert_2; [| assumption].
    apply dailyStatAfter_ok. intros found Hfound. exact (H2 _ _ Hfound).
  - apply map_Forall_insert_2; [| assumption]. apply streakAfter_ok.
  - intros id. destruct (decide (id = fid)) as [-> | Hne].
    + rewrite lookup_insert_eq. split; eauto.
    + rewrite lookup_insert_ne by congruence. apply H5.
  - intros c Hin. destruct (H6 c Hin) as (schedule & Hs & Hown & Hcard).
    destruct (decide (fc_id c = fid)) as [Heq' | Hne].
    + rewrite Heq', lookup_insert_eq. eexists. split; [reflexivity |].
      rewrite Heq' in Hs. assert (schedule = row) by congruence. subst schedule.
      simpl. rewrite <- Heq'. auto.
    + rewrite lookup_insert_ne by congruence. eauto.
  - intros entry Hin. apply elem_of_app in Hin. destruct Hin as [Hin | Hin].
    + now apply H8.
    + apply list_elem_of_singleton in Hin. subst entry. exact Hfid.
Qed.

Lemma ids_after_delete (id k : Z) (cards : list Flashcard) :
  k ∈ (fc_id <$> List.filter (fun c => negb (fc_id c =? id)) cards) <->
  k ∈ (fc_id <$> cards) /\ k <> id.
Proof.
  rewrite !list_elem_of_fmap. split.
  - intros (c & -> & Hin). apply elem_of_bool_filter in Hin.
    destruct Hin as [Hin Hne]. apply negb_eqb_true in Hne. eauto.
  - intros ((c & -> & Hin) & Hne). exists c. split; [reflexivity |].
    apply elem_of_bool_filter. split; [assumption | now apply negb_eqb_true].
Qed.

Lemma NoDup_ids_filter (f : Flashcard -> bool) (cards : list Flashcard) :
  NoDup (fc_id <$> cards) -> NoDup (fc_id <$> List.filter f cards).
Proof.
  induction cards as [| c cards IH]; simpl; [auto |].
  intros Hnd. apply NoDup_cons in Hnd. destruct Hnd as [Hnot Hnd].
  destruct (f c); simpl; [| auto].
  apply NoDup_cons. split; [| auto].
  intros Hin. apply Hnot. apply list_elem_of_fmap in Hin.
  destruct Hin as (c' & Heq & Hin). apply elem_of_bool_filter in Hin.
  apply list_elem_of_fmap. exists c'. tauto.
Qed.

Lemma storeOk_delete (accepted : bool) (id : Z) (st st' : Store) :
  storeOk st -> flashcard_delete accepted id st = inr st' -> storeOk st'.
Proof.
  intros Hok Hdel. unfold flashcard_delete in Hdel.
  destruct accepted; [| discriminate]. simpl in Hdel.
  destruct (existsb (fun c => fc_id c =? id) (flashcards (tables st)));
    [| discriminate].
  injection Hdel as <-.
  destruct Hok as (H1 & H2 & H3 & H4 & H5 & H6 & H7 & H8).
  unfold storeOk. simpl.
  split; [| split; [| split; [| split; [| split; [| split; [| split]]]]]];
    try assumption.
  - now apply map_Forall_delete.
  - now apply NoDup_ids_filter.
  - intros k. rewrite ids_after_delete, lookup_delete.
    destruct (decide (id = k)) as [-> | Hne].
    + split; [intros [? H]; discriminate H | tauto].
    + rewrite H5. split; [intros H; split; [assumption | congruence] | tauto].
  - intros c Hin. apply elem_of_bool_filter in Hin. destruct Hin as [Hin Hne].
    apply negb_eqb_true in Hne. rewrite lookup_delete_ne by congruence.
    now apply H6.
  - intros k. rewrite ids_after_delete, lookup_delete.
    destruct (decide (id = k)) as [-> | Hne].
    + split; [intros [? H]; discriminate H | tauto].
    + rewrite H7. split; [intros H; split; [assumption | congruence] | tauto].
  - intros entry Hin. apply elem_of_bool_filter in Hin. destruct Hin as [Hin Hne].
    apply negb_eqb_true in Hne. apply ids_after_delete. split; [now apply H8 | assumption].
Qed.

Lemma storeOk_step (st : Store) (e : Event) : storeOk st -> storeOk (step st e).
Proof.
  intros Hok. destruct e as [now env request | now request faults | accepted id];
    simpl.
  - now apply storeOk_create.
  - now apply storeOk_review.
  - destruct (flashcard_delete accepted id st) as [err | st'] eqn:Hdel;
      [assumption | eapply storeOk_delete; eassumption].
Qed.

(** X23.  The store stays consistent under every sequence of requests.
    Starting from the empty store, after any sequence of card creations,
    review submissions and card deletions (accepted or refused, by any users,
    with any bodies and any failing calls): every schedule has its ease
    factor in [1.3, 2.5], an interval of at least one day and a non-negative
    repetition count; every row of daily statistics has as many reviewed
    cards as answers and no more correct answers than answers; every streak
    has [currentStreak <= longestStreak]; card identifiers are distinct;
    every card has exactly one schedule, owned by the card's owner, and its
    content; and every history entry refers to a stored card. *)
Theorem X23_store_stays_consistent (events : list Event) :
  storeOk (run events).
Proof.
  unfold run. generalize storeOk_empty. generalize emptyStore.
  induction events as [| e events IH]; intros st Hok; simpl; [exact Hok |].
  apply IH. now apply storeOk_step.
Qed.

End TraceFacts.

(** ** Listing a user's cards, page by page *)

Section ListingFacts.
Import JS Schema Cards Listing.

Lemma insertNewest_Permutation (engine : Engine) (row : Row) (sorted : list Row) :
  insertNewest engine row sorted ≡ₚ row :: sorted.
Proof.
  induction sorted as [| row' rest IH]; simpl; [reflexivity |].
  destruct (comesFirst engine row row'); [reflexivity |].
  rewrite IH. apply Permutation_swap.
Qed.

Lemma comesFirst_true (engine : Engine) (row row' : Row) :
  comesFirst engine row row' = true -> notOlder row row'.
Proof.
  unfold comesFirst, notOlder. intros H. apply orb_true_iff in H.
  destruct H as [H | H]; [apply Z.ltb_lt in H; lia |].
  apply andb_true_iff in H. destruct H as [H _]. apply Z.eqb_eq in H. lia.
Qed.

Lemma comesFirst_false (engine : Engine) (row row' : Row) :
  comesFirst engine row row' = false -> notOlder row' row.
Proof.
  unfold comesFirst, notOlder. intros H. apply orb_false_iff in H.
  destruct H as [H _]. apply Z.ltb_ge in H. exact H.
Qed.

Lemma insertNewest_Sorted (engine : Engine) (row : Row) (l : list Row) :
  Sorted notOlder l -> Sorted notOlder (insertNewest engine row l).
Proof.
  induction l as [| row' l IH]; intros Hs; simpl.
  - repeat constructor.
  - destruct (comesFirst engine row row') eqn:Hfirst.
    + constructor; [assumption |]. constructor. now apply comesFirst_true in Hfirst.
    + apply comesFirst_false in Hfirst.
      apply Sorted_inv in Hs. destruct Hs as [Hs Hhd].
      constructor; [now apply IH |].
      destruct l as [| row'' l]; simpl.
      * constructor. exact Hfirst.
      * destruct (comesFirst engine row row''); constructor;
          [exact Hfirst | now apply HdRel_inv in Hhd].
Qed.

Lemma newestFirst_StronglySorted (engine : Engine) (l : list Row) :
  StronglySorted notOlder (newestFirst engine l).
Proof.
  apply Sorted_StronglySorted.
  - intros a b c. unfold notOlder. lia.
  - induction l as [| row l IH]; simpl; [constructor |].
    now apply insertNewest_Sorted.
Qed.

Lemma newestFirst_Permutation (engine : Engine) (l : list Row) :
  newestFirst engine l ≡ₚ l.
Proof.
  induction l as [| row rest IH]; simpl; [reflexivity |].
  rewrite insertNewest_Permutation. now rewrite IH.
Qed.

Lemma GET_plain (engine : Engine) (userId : Z) (query : Query) (st : Store)
    (p l0 : Z) (category : option Z) :
  parseInt (orDefault (pageParam query) "1") = Some p ->
  parseInt (orDefault (limitParam query) "20") = Some l0 ->
  categoryParsed query category ->
  plainArguments p (Z.min l0 100) = true ->
  let found := matching engine userId category (truthy (searchParam query)) st in
  GET engine true (Some userId) query st =
    Ok200 (take (Z.to_nat (Z.min l0 100))
                (drop (Z.to_nat ((p - 1) * Z.min l0 100)) found))
          {| page := p;
             limit := Z.min l0 100;
             total := Z.of_nat (length found);
             totalPages :=
               Math_ceil (inject_Z (Z.of_nat (length found))
                          / inject_Z (Z.min l0 100)) |}.
Proof.
  intros Hp Hl Hcat Hplain found. unfold GET. rewrite Hp, Hl.
  unfold categoryParsed in Hcat. unfold found.
  destruct (truthy (categoryIdParam query)) as [text |]; simpl.
  - destruct Hcat as (c & Hc & Hcategory). subst category.
    rewrite Hc, Hplain. reflexivity.
  - subst category. rewrite Hplain. reflexivity.
Qed.


Lemma plainArguments_true (p l : Z) :
  plainArguments p l = true <-> 1 <= p /\ 1 <= l /\ (p - 1) * l + l < 2 ^ 31.
Proof.
  unfold plainArguments. rewrite !andb_true_iff, !Z.leb_le, Z.ltb_lt. tauto.
Qed.

(** X24.  The page size is capped at 100 and defaulted.  For a signed-in
    user and plain pagination arguments, the listing answers 200 with the
    page number it was asked for and a limit that is the requested limit or
    100, whichever is smaller; it never returns more cards than the limit.
    A missing or empty [limit] parameter means 20 and a missing or empty
    [page] parameter means page 1. *)
Theorem X24_page_size_capped
    (engine : Engine) (userId : Z) (query : Query) (st : Store)
    (p l0 : Z) (category : option Z) :
  parseInt (orDefault (pageParam query) "1") = Some p ->
  parseInt (orDefault (limitParam query) "20") = Some l0 ->
  categoryParsed query category ->
  plainArguments p (Z.min l0 100) = true ->
  exists cards pagination,
    GET engine true (Some userId) query st = Ok200 cards pagination /\
    page pagination = p /\
    limit pagination = Z.min l0 100 /\
    limit pagination <= 100 /\
    Z.of_nat (length cards) <= limit pagination /\
    (truthy (limitParam query) = None -> limit pagination = 20) /\
    (truthy (pageParam query) = None -> page pagination = 1).
Proof.
  intros Hp Hl Hcat Hplain. do 2 eexists.
  split; [now apply (GET_plain engine userId query st p l0 category) |].
  simpl. apply plainArguments_true in Hplain.
  split; [reflexivity |]. split; [reflexivity |]. split; [lia |].
  split; [rewrite length_take; lia |]. split.
  - intros Hnone. unfold truthy, orDefault in *.
    destruct (limitParam query) as [[| c rest] |]; try discriminate Hnone;
      vm_compute in Hl; injection Hl as <-; reflexivity.
  - intros Hnone. unfold truthy, orDefault in *.
    destruct (pageParam query) as [[| c rest] |]; try discriminate Hnone;
      vm_compute in Hp; injection Hp as <-; reflexivity.
Qed.

Lemma X24_page_size_capped_witness :
  exists cards pagination,
    GET SampleListing.engine true (Some 1)
      (mkQuery None None None (Some "500")) SampleListing.store
    = Ok200 cards pagination /\
    limit pagination = 100 /\ page pagination = 1 /\
    Z.of_nat (length cards) <= 100.
Proof.
  destruct (X24_page_size_capped SampleListing.engine 1
              (mkQuery None None None (Some "500")) SampleListing.store
              1 500 None)
    as (cards & pagination & Hrun & Hpage & Hlimit & _ & Hlen & _);
    try reflexivity.
  exists cards, pagination. split; [exact Hrun |].
  split; [exact Hlimit |]. split; [exact Hpage |].
  rewrite Hlimit in Hlen. exact Hlen.
Defined.

Lemma elem_of_rows (st : Store) (card : Flashcard) (content : CardContent)
    (schedule : option ReviewSchedule) :
  (card, content, schedule) ∈ rows st <->
  card ∈ flashcards (tables st) /\
  contents st !! fc_id card = Some content /\
  schedule = reviewSchedules (tables st) !! fc_id card.
Proof.
  unfold rows. rewrite list_elem_of_omap. split.
  - intros (c & Hin & Hrow).
    destruct (contents st !! fc_id c) as [k |] eqn:Hk; [| discriminate Hrow].
    simpl in Hrow. injection Hrow as -> -> <-. auto.
  - intros (Hin & Hk & ->). exists card. split; [assumption |].
    rewrite Hk. reflexivity.
Qed.



(** X26.  The listing shows a user's own cards only.  Every card on a page
    is a stored card of the signed-in user, shown with its stored content and
    schedule; with a category parameter it belongs to that category, and with
    a search text its question or answer contains the text in the sense of
    the database. *)
Theorem X26_listing_shows_own_cards
    (engine : Engine) (userId : Z) (query : Query) (st : Store)
    (p l0 : Z) (category : option Z) :
  parseInt (orDefault (pageParam query) "1") = Some p ->
  parseInt (orDefault (limitParam query) "20") = Some l0 ->
  categoryParsed query category ->
  plainArguments p (Z.min l0 100) = true ->
  exists cards pagination,
    GET engine true (Some userId) query st = Ok200 cards pagination /\
    forall card content schedule,
      (card, content, schedule) ∈ cards ->
      card ∈ flashcards (tables st) /\
      fc_userId card = userId /\
      contents st !! fc_id card = Some content /\
      schedule = reviewSchedules (tables st) !! fc_id card /\
      (forall c, category = Some c ->
         exists c', cc_categoryId content = Some c' /\ (c' == inject_Z c)%Q) /\
      (forall text, truthy (searchParam query) = Some text ->
         containsInsensitive engine text (cc_question content) = true \/
         containsInsensitive engine text (cc_answer content) = true).
Proof.
  intros Hp Hl Hcat Hplain. do 2 eexists.
  split; [now apply (GET_plain engine userId query st p l0 category) |].
  intros card content schedule Hin.
  apply subseteq_take, subseteq_drop in Hin.
  unfold matching in Hin. rewrite newestFirst_Permutation in Hin.
  apply elem_of_bool_filter in Hin. destruct Hin as [Hin Hwhere].
  apply elem_of_rows in Hin. destruct Hin as (Hcard & Hcontent & Hsched).
  unfold matchesWhere in Hwhere. apply andb_true_iff in Hwhere.
  destruct Hwhere as [Hwhere Hsearch]. apply andb_true_iff in Hwhere.
  destruct Hwhere as [Huser Hcategory]. apply Z.eqb_eq in Huser.
  repeat split; try assumption.
  - intros c ->. destruct (cc_categoryId content) as [c' |]; [| discriminate].
    exists c'. split; [reflexivity |]. now apply Qeq_bool_iff.
  - intros text Htext. rewrite Htext in Hsearch. now apply orb_true_iff.
Qed.

Lemma X26_listing_shows_own_cards_witness :
  exists cards pagination,
    GET SampleListing.engine true (Some 1)
      (mkQuery (Some "3") None None None) SampleListing.store
    = Ok200 cards pagination /\
    forall card content schedule,
      (card, content, schedule) ∈ cards ->
      fc_userId card = 1 /\
      exists c', cc_categoryId content = Some c' /\ (c' == 3)%Q.
Proof.
  destruct (X26_listing_shows_own_cards SampleListing.engine 1
              (mkQuery (Some "3") None None None) SampleListing.store
              1 20 (Some 3))
    as (cards & pagination & Hrun & Hown); try reflexivity.
  - simpl. exists 3. split; reflexivity.
  - exists cards, pagination. split; [exact Hrun |].
    intros card content schedule Hin.
    destruct (Hown card content schedule Hin) as (_ & Huser & _ & _ & Hcat & _).
    split; [exact Huser |]. exact (Hcat 3 eq_refl).
Defined.

(** X27.  The listing is newest first, within a page and from page to page.
    For plain pagination arguments no card on a page was created after a card
    that stands before it on the page, nor after any matching card of the
    pages before. *)
Theorem X27_listing_newest_first
    (engine : Engine) (userId : Z) (query : Query) (st : Store)
    (p l0 : Z) (category : option Z) :
  parseInt (orDefault (pageParam query) "1") = Some p ->
  parseInt (orDefault (limitParam query) "20") = Some l0 ->
  categoryParsed query category ->
  plainArguments p (Z.min l0 100) = true ->
  let all := matching engine userId category (truthy (searchParam query)) st in
  let before := take (Z.to_nat ((p - 1) * Z.min l0 100)) all in
  exists cards pagination,
    GET engine true (Some userId) query st = Ok200 cards pagination /\
    StronglySorted notOlder cards /\
    forall earlier row, earlier ∈ before -> row ∈ cards -> notOlder earlier row.
Proof.
  intros Hp Hl Hcat Hplain all before. do 2 eexists.
  split; [now apply (GET_plain engine userId query st p l0 category) |].
  fold all.
  pose proof (newestFirst_StronglySorted engine
                (List.filter (matchesWhere engine userId category
                                (truthy (searchParam query))) (rows st)))
    as Hsorted.
  change (StronglySorted notOlder all) in Hsorted.
  set (skip := Z.to_nat ((p - 1) * Z.min l0 100)) in *.
  rewrite <- (take_drop skip all) in Hsorted. fold before in Hsorted.
  split.
  - apply StronglySorted_app_1_r in Hsorted.
    rewrite <- (take_drop (Z.to_nat (Z.min l0 100)) (drop skip all)) in Hsorted.
    now apply StronglySorted_app_1_l in Hsorted.
  - intros earlier row Hearlier Hrow. apply subseteq_take in Hrow.
    exact (StronglySorted_app_1_elem_of _ _ _ _ _ Hsorted Hearlier Hrow).
Qed.

Lemma X27_listing_newest_first_witness :
  exists cards pagination,
    GET SampleListing.engine true (Some 1)
      (mkQuery None None (Some "2") (Some "1")) SampleListing.store
    = Ok200 cards pagination /\
    StronglySorted notOlder cards.
Proof.
  destruct (X27_listing_newest_first SampleListing.engine 1
              (mkQuery None None (Some "2") (Some "1")) SampleListing.store
              2 1 None)
    as (cards & pagination & Hrun & Hsorted & _); try reflexivity.
  exists cards, pagination. split; assumption.
Defined.

End ListingFacts.
